(** * INDI mount drivers: Explore Scientific PMC-Eight and Astro-Physics

    A shallow embedding of the coordinate, rate and wire-codec code of
    [drivers/telescope/pmc8driver.cpp] and of the state handling of
    [drivers/telescope/lx200ap.cpp], with the properties proved about it.

    Conventions of the embedding.
    - A C [int] is a [Z]; an [unsigned] is a [Z] reduced modulo [2^32] where
      the source relies on wrap-around.
    - A C [double] or [float] is a rational ([Q]).  The definitions come
      in two layers: first with exact arithmetic, the number a floating
      value stands for, and then, in module [IEEE], with every operation
      rounded to the nearest [double] or [float] as the machine does; the
      statements that depend on the last bit are made about the second
      layer.  The conversion of a floating value to [int] truncates
      toward zero and is undefined outside the range of [int]; it is
      modelled by [cast_int], which answers [None] there.
    - Global variables and the serial line are fields of an explicit world
      that every command threads through. *)

From Stdlib Require Import ZArith QArith Qround Qabs Qminmax Qpower Lia Lqa.
From Stdlib Require Import String Ascii List Bool DecimalString.
Import ListNotations.

Local Open Scope Z_scope.

(** ** C integers *)

Definition INT_MIN : Z := - 2 ^ 31.
Definition INT_MAX : Z := 2 ^ 31 - 1.
Definition UINT_MOD : Z := 2 ^ 32.

Definition in_int (z : Z) : bool := (INT_MIN <=? z) && (z <=? INT_MAX).

(** Conversion of an [int] to [unsigned]. *)
Definition to_unsigned (z : Z) : Z := z mod UINT_MOD.

(** [~u] on a 32-bit unsigned. *)
Definition unot (u : Z) : Z := (Z.lnot u) mod UINT_MOD.

(** [u++] on a 32-bit unsigned. *)
Definition uincr (u : Z) : Z := (u + 1) mod UINT_MOD.

(** ** printf and strtol, as far as the drivers use them *)

(** The character of a hexadecimal digit, upper case as [%X] prints it:
    the codes from 48 are [0] to [9], those from 65 are [A] to [F]. *)
Definition hexdigit (d : Z) : ascii :=
  if d <? 10
  then ascii_of_N (Z.to_N (48 + d))
  else ascii_of_N (Z.to_N (55 + d)).

(** The [n] least significant hexadecimal digits of [v], most significant
    first. *)
Fixpoint hexN (n : nat) (v : Z) : string :=
  match n with
  | O => EmptyString
  | S k => String (hexdigit ((v / 16 ^ Z.of_nat k) mod 16)) (hexN k v)
  end.

(** Leading zeros are dropped as long as more than [w] characters remain. *)
Fixpoint strip_zeros (w : nat) (s : string) : string :=
  match s with
  | String "0"%char s' =>
      if (String.length s <=? w)%nat then s else strip_zeros w s'
  | _ => s
  end.

(** [sprintf(buf, "%0wX", u)] for a 32-bit unsigned [u]. *)
Definition sprintf_0X (w : nat) (u : Z) : string :=
  strip_zeros (Nat.max w 1) (hexN 8 u).

(** [sprintf(buf, "%d", i)] *)
Definition sprintf_d (i : Z) : string := NilZero.string_of_int (Z.to_int i).

(** [s + k] on a C string. *)
Fixpoint str_drop (k : nat) (s : string) : string :=
  match k, s with
  | O, _ => s
  | S k', String _ s' => str_drop k' s'
  | S _, EmptyString => EmptyString
  end.

(** The first [k] characters, as [strncat(dst, src, k)] appends them. *)
Fixpoint str_take (k : nat) (s : string) : string :=
  match k, s with
  | S k', String c s' => String c (str_take k' s')
  | _, _ => EmptyString
  end.

(** The value of a hexadecimal digit in either case, as [strtol] reads
    it. *)
Definition hexval (c : ascii) : option Z :=
  let n := Z.of_N (N_of_ascii c) in
  if (48 <=? n) && (n <=? 57) then Some (n - 48)
  else if (65 <=? n) && (n <=? 70) then Some (n - 55)
  else if (97 <=? n) && (n <=? 102) then Some (n - 87)
  else None.

(** Digits are consumed up to the first character that is not one. *)
Fixpoint strtol_digits (acc : Z) (s : string) : Z :=
  match s with
  | EmptyString => acc
  | String c s' =>
      match hexval c with
      | Some d => strtol_digits (acc * 16 + d) s'
      | None => acc
      end
  end.

(** [strtol(s, NULL, 0)] on the strings the driver builds, which all start
    with the prefix [0X]; anything else has no digits for this model and
    yields 0. *)
Definition strtol0 (s : string) : Z :=
  match s with
  | String "0"%char (String "X"%char s') => strtol_digits 0 s'
  | _ => 0
  end.

(** ** PMC-Eight wire codec for motor counts *)

(** [convert_motor_counts_to_hex]: the eight digits of the two's complement
    of [val], less the first two. *)
Definition convert_motor_counts_to_hex (val : Z) : string :=
  let tmp :=
    if val <? 0
    then uincr (unot (to_unsigned (Z.abs val)))
    else to_unsigned val in
  let h := sprintf_0X 8 tmp in
  str_drop 2 h.

(** [convert_axispos_to_motor] *)
Definition convert_axispos_to_motor (axispos : Z) : Z :=
  if axispos >? 8388608 then 0 - (16777216 - axispos) else axispos.

(** The number [get_pmc8_position_axis] reads out of a position field. *)
Definition axispos_of_field (field : string) : Z :=
  strtol0 ("0X" ++ str_take 6 field).

(** ** Floating values as rationals

    The first layer: a floating value is the rational it stands for and the
    arithmetic is exact.  The operations as the machine rounds them follow
    further down, in module [IEEE]. *)

Local Open Scope Q_scope.

(** The integral part, toward zero. *)
Definition Qtrunc (q : Q) : Z := Z.quot (Qnum q) (Zpos (Qden q)).

(** [(int) q]: undefined when the integral part does not fit an [int]. *)
Definition cast_int (q : Q) : option Z :=
  let z := Qtrunc q in if in_int z then Some z else None.

Definition Qltb (x y : Q) : bool := if Qlt_le_dec x y then true else false.
Definition Qleb (x y : Q) : bool := if Qlt_le_dec y x then false else true.

(** ** PMC-Eight: constants and rate translation *)

Definition PMC8_AXIS0_SCALE : Q := 4608000.
Definition PMC8_AXIS1_SCALE : Q := 4608000.
Definition ARCSEC_IN_CIRCLE : Q := 1296000.
Definition PMC8_MAX_PRECISE_MOTOR_RATE : Z := 2641.
Definition PMC8_MAX_MOVE_MOTOR_RATE : Z := 256 * 15.
Definition PMC8_MINSLEWRATE : Z := 55.

(** The clamp both converters end with. *)
Definition clamp_rate (limit m : Z) : Z :=
  if (m >? limit)%Z then limit
  else if (m <? - limit)%Z then (- limit)%Z
  else m.

(** [convert_precise_rate_to_motor]; the function always returns [true], so
    only the value stored in [*mrate] is kept. *)
Definition convert_precise_rate_to_motor (rate : Q) : option Z :=
  match cast_int (25 * rate * (PMC8_AXIS0_SCALE / ARCSEC_IN_CIRCLE)) with
  | Some m => Some (clamp_rate PMC8_MAX_PRECISE_MOTOR_RATE m)
  | None => None
  end.

(** [convert_move_rate_to_motor] *)
Definition convert_move_rate_to_motor (rate : Q) : option Z :=
  match cast_int (rate * (PMC8_AXIS0_SCALE / ARCSEC_IN_CIRCLE)) with
  | Some m => Some (clamp_rate PMC8_MAX_MOVE_MOTOR_RATE m)
  | None => None
  end.

(** [convert_movespeedindex_to_rate] *)
Definition convert_movespeedindex_to_rate (mode : Z) : Z :=
  match mode with
  | 0 => 4 * 15
  | 1 => 16 * 15
  | 2 => 64 * 15
  | 3 => 256 * 15
  | _ => 0
  end%Z.

(** ** Commands: state, failure and undefined behaviour

    A command maps the state before to its result and the state after, or
    to [None] where C leaves the behaviour undefined (a floating value cast
    to [int] out of range, an uninitialised variable read). *)

Definition M (S A : Type) : Type := S -> option (A * S).

Definition ret {S A : Type} (a : A) : M S A := fun s => Some (a, s).

Definition bind {S A B : Type} (c : M S A) (k : A -> M S B) : M S B :=
  fun s => match c s with
           | Some (a, s') => k a s'
           | None => None
           end.

Definition undefined {S A : Type} : M S A := fun _ => None.
Definition gets {S A : Type} (f : S -> A) : M S A := fun s => Some (f s, s).
Definition modify {S : Type} (f : S -> S) : M S unit := fun s => Some (tt, f s).

(** A value that may be undefined, used inside a command. *)
Definition defined {S A : Type} (o : option A) : M S A :=
  match o with
  | Some a => ret a
  | None => undefined
  end.

Declare Scope cmd_scope.
Delimit Scope cmd_scope with cmd.
Notation "x <- c ;; k" := (bind c (fun x => k))
  (at level 61, c at next level, right associativity) : cmd_scope.
Notation "c ;; k" := (bind c (fun _ => k))
  (at level 61, right associativity) : cmd_scope.

(** The result and the state a command ends with; a command whose
    behaviour is undefined has no result and leaves the state alone. *)
Definition result_of {S A : Type} (c : M S A) (s : S) : option A :=
  match c s with
  | Some (a, _) => Some a
  | None => None
  end.

Definition state_after {S A : Type} (c : M S A) (s : S) : S :=
  match c s with
  | Some (_, s') => s'
  | None => s
  end.

(** ** PMC-Eight: the driver's globals and the serial line *)

(** Enumerations of [pmc8driver.h], which the source includes; the
    constructors are the names the source uses. *)
Inductive PMC8_AXIS := PMC8_RA_AXIS | PMC8_DEC_AXIS.
Inductive PMC8_DIRECTION := PMC8_N | PMC8_S | PMC8_W | PMC8_E.
Inductive PMC8_SYSTEM_STATUS :=
  ST_STOPPED | ST_SLEWING | ST_PARKED | ST_OTHER.

(** The argument of [set_pmc8_track_mode] is a [uint];
    [PMC8_TRACK_CUSTOM] stands for every value that is none of the three
    the [switch] names. *)
Inductive PMC8_TRACK_RATE :=
  PMC8_TRACK_SIDEREAL | PMC8_TRACK_LUNAR | PMC8_TRACK_SOLAR | PMC8_TRACK_CUSTOM.

(** Modelled from the spec: the numbering of [PMC8_AXIS], declared in
    [pmc8driver.h]; the frames carry 0 for RA and 1 for Dec. *)
Definition axis_number (axis : PMC8_AXIS) : Z :=
  match axis with
  | PMC8_RA_AXIS => 0
  | PMC8_DEC_AXIS => 1
  end.

(** [simPMC8Data]; the two directions hold the [int] the setter casts. *)
Record SimData := mkSimData {
  sim_ra : Q;
  sim_dec : Q;
  raDirection : Z;
  decDirection : Z;
  trackRate : Q;
  moveRate : Q;
  guide_rate : Q
}.

(** What the serial line does at one command and response exchange. *)
Inductive line_event :=
| WriteFails
| ReadFails
| Reply (bytes : string).

Record world := mkWorld {
  pmc8_simulation : bool;
  simPMC8Data : SimData;
  systemStatus : PMC8_SYSTEM_STATUS;
  (** frames written to the port, oldest first *)
  sent : list string;
  (** what the line will do at the coming exchanges *)
  line : list line_event
}.

Definition PMC := M world.

Definition set_simPMC8Data (d : SimData) (w : world) : world :=
  mkWorld (pmc8_simulation w) d (systemStatus w) (sent w) (line w).

Definition set_raDirection (dir : Z) (d : SimData) : SimData :=
  mkSimData (sim_ra d) (sim_dec d) dir (decDirection d)
            (trackRate d) (moveRate d) (guide_rate d).

Definition set_decDirection (dir : Z) (d : SimData) : SimData :=
  mkSimData (sim_ra d) (sim_dec d) (raDirection d) dir
            (trackRate d) (moveRate d) (guide_rate d).

Definition set_trackRate (r : Q) (d : SimData) : SimData :=
  mkSimData (sim_ra d) (sim_dec d) (raDirection d) (decDirection d)
            r (moveRate d) (guide_rate d).

Definition set_moveRate (r : Q) (d : SimData) : SimData :=
  mkSimData (sim_ra d) (sim_dec d) (raDirection d) (decDirection d)
            (trackRate d) r (guide_rate d).

(** Modelled from the spec: [tty_write] of the transport adapter
    ([indicom], outside src): the bytes go out unless the write fails. *)
Definition tty_write (cmd : string) : PMC bool :=
  fun w =>
    match line w with
    | WriteFails :: rest =>
        Some (false, mkWorld (pmc8_simulation w) (simPMC8Data w)
                             (systemStatus w) (sent w) rest)
    | _ =>
        Some (true, mkWorld (pmc8_simulation w) (simPMC8Data w)
                            (systemStatus w) (sent w ++ [cmd]) (line w))
    end.

(** Modelled from the spec: [tty_read] of the transport adapter, which
    reads exactly [n] bytes or fails on the timeout; [Some] carries the
    bytes read. *)
Definition tty_read (n : nat) : PMC (option string) :=
  fun w =>
    let w' rest := mkWorld (pmc8_simulation w) (simPMC8Data w)
                           (systemStatus w) (sent w) rest in
    match line w with
    | Reply bytes :: rest =>
        if (n <=? String.length bytes)%nat
        then Some (Some (str_take n bytes), w' rest)
        else Some (None, w' rest)
    | ReadFails :: rest => Some (None, w' rest)
    | _ => Some (None, w)
    end.

Local Open Scope cmd_scope.
Local Open Scope string_scope.

(** [get_pmc8_tracking_rate_axis]; [Some rate] when it returns [true]. *)
Definition get_pmc8_tracking_rate_axis (axis : PMC8_AXIS) : PMC (option Z) :=
  let cmd := "ESGr" ++ sprintf_d (axis_number axis) ++ "!" in
  sim <- gets pmc8_simulation ;;
  if sim then
    match axis with
    | PMC8_RA_AXIS =>
        d <- gets simPMC8Data ;;
        rate <- defined (cast_int (trackRate d)) ;;
        ret (Some rate)
    | PMC8_DEC_AXIS => ret (Some 0%Z)
    end
  else
    ok <- tty_write cmd ;;
    if negb ok then ret None else
    r <- tty_read 10 ;;
    match r with
    | None => ret None
    | Some response =>
        if negb (String.length response =? 10)%nat then ret None else
        let num_str := "0X" ++ str_take 6 (str_drop 5 response) in
        ret (Some (strtol0 num_str))
    end.

(** [set_pmc8_direction_axis] *)
Definition set_pmc8_direction_axis (axis : PMC8_AXIS) (dir : Z) : PMC bool :=
  let cmd := "ESSd" ++ sprintf_d (axis_number axis) ++ sprintf_d dir ++ "!" in
  sim <- gets pmc8_simulation ;;
  if sim then
    match axis with
    | PMC8_RA_AXIS =>
        modify (fun w => set_simPMC8Data (set_raDirection dir (simPMC8Data w)) w) ;;
        ret true
    | PMC8_DEC_AXIS =>
        modify (fun w => set_simPMC8Data (set_decDirection dir (simPMC8Data w)) w) ;;
        ret true
    end
  else
    ok <- tty_write cmd ;;
    if negb ok then ret false else
    r <- tty_read 7 ;;
    match r with
    | None => ret false
    | Some response =>
        if negb (String.length response =? 7)%nat then ret false else ret true
    end.

(** [get_pmc8_is_scope_slewing]; [Some isslew] when it returns [true]. *)
Definition get_pmc8_is_scope_slewing : PMC (option bool) :=
  ra <- get_pmc8_tracking_rate_axis PMC8_RA_AXIS ;;
  match ra with
  | None => ret None
  | Some rarate =>
      de <- get_pmc8_tracking_rate_axis PMC8_DEC_AXIS ;;
      match de with
      | None => ret None
      | Some decrate =>
          sim <- gets pmc8_simulation ;;
          if sim then
            st <- gets systemStatus ;;
            ret (Some match st with ST_SLEWING => true | _ => false end)
          else
            ret (Some ((rarate >? PMC8_MINSLEWRATE)%Z
                       || (decrate >? PMC8_MINSLEWRATE)%Z))
      end
  end.

(** [set_pmc8_axis_move_rate] *)
Definition set_pmc8_axis_move_rate (axis : PMC8_AXIS) (rate : Q) : PMC bool :=
  rc <- (if Qltb rate 0
         then set_pmc8_direction_axis axis 0
         else set_pmc8_direction_axis axis 1) ;;
  if negb rc then ret rc else
  rateval <- defined (convert_move_rate_to_motor (Qabs rate)) ;;
  let cmd := "ESSr" ++ sprintf_d (axis_number axis)
                    ++ sprintf_0X 4 (to_unsigned rateval) ++ "!" in
  sim <- gets pmc8_simulation ;;
  if sim then
    modify (fun w => set_simPMC8Data (set_moveRate rate (simPMC8Data w)) w) ;;
    ret true
  else
    ok <- tty_write cmd ;;
    if negb ok then ret false else
    r <- tty_read (String.length cmd) ;;
    match r with
    | None => ret false
    | Some response =>
        if (String.length response =? 10)%nat then ret true else ret false
    end.

(** [set_pmc8_custom_ra_move_rate] *)
Definition set_pmc8_custom_ra_move_rate (rate : Q) : PMC bool :=
  if Qltb (inject_Z PMC8_MAX_MOVE_MOTOR_RATE) (Qabs rate) then ret false
  else set_pmc8_axis_move_rate PMC8_RA_AXIS rate.

(** [set_pmc8_custom_dec_move_rate] *)
Definition set_pmc8_custom_dec_move_rate (rate : Q) : PMC bool :=
  if Qltb (inject_Z PMC8_MAX_MOVE_MOTOR_RATE) (Qabs rate) then ret false
  else set_pmc8_axis_move_rate PMC8_DEC_AXIS rate.

(** [start_pmc8_motion]; the results of the two rate commands are dropped,
    as in the source. *)
Definition start_pmc8_motion (dir : PMC8_DIRECTION) (mode : Z) : PMC bool :=
  sl <- get_pmc8_is_scope_slewing ;;
  match sl with
  | None => ret false
  | Some true => ret false
  | Some false =>
      let reqrate := convert_movespeedindex_to_rate mode in
      let reqrate :=
        if (reqrate >? PMC8_MAX_MOVE_MOTOR_RATE)%Z
        then PMC8_MAX_MOVE_MOTOR_RATE
        else if (reqrate <? - PMC8_MAX_MOVE_MOTOR_RATE)%Z
             then (- PMC8_MAX_MOVE_MOTOR_RATE)%Z
             else reqrate in
      let rarate :=
        match dir with
        | PMC8_W => reqrate
        | PMC8_E => (- reqrate)%Z
        | _ => 0%Z
        end in
      let decrate :=
        match dir with
        | PMC8_N => reqrate
        | PMC8_S => (- reqrate)%Z
        | _ => 0%Z
        end in
      (if negb (rarate =? 0)%Z
       then set_pmc8_custom_ra_move_rate (inject_Z rarate) ;; ret tt
       else ret tt) ;;
      (if negb (decrate =? 0)%Z
       then set_pmc8_custom_dec_move_rate (inject_Z decrate) ;; ret tt
       else ret tt) ;;
      ret true
  end.

(** [set_pmc8_custom_ra_track_rate] *)
Definition set_pmc8_custom_ra_track_rate (rate : Q) : PMC bool :=
  rateval <- defined (convert_precise_rate_to_motor rate) ;;
  let cmd := "ESTr" ++ sprintf_0X 4 (to_unsigned rateval) ++ "!" in
  sim <- gets pmc8_simulation ;;
  if sim then
    modify (fun w => set_simPMC8Data (set_trackRate rate (simPMC8Data w)) w) ;;
    ret true
  else
    ok <- tty_write cmd ;;
    if negb ok then ret false else
    r <- tty_read (String.length cmd) ;;
    match r with
    | None => ret false
    | Some response =>
        if negb (String.length response =? 9)%nat then ret false
        else set_pmc8_direction_axis PMC8_RA_AXIS 1
    end.

(** The rate [set_pmc8_track_mode] selects; [ratereal] is not initialised
    when no [case] matches. *)
Definition track_mode_rate (rate : PMC8_TRACK_RATE) : option Q :=
  match rate with
  | PMC8_TRACK_SIDEREAL => Some 15.0
  | PMC8_TRACK_LUNAR => Some 14.453
  | PMC8_TRACK_SOLAR => Some 15.041
  | PMC8_TRACK_CUSTOM => None
  end.

(** [set_pmc8_track_mode] *)
Definition set_pmc8_track_mode (rate : PMC8_TRACK_RATE) : PMC bool :=
  ratereal <- defined (track_mode_rate rate) ;;
  set_pmc8_custom_ra_track_rate ratereal.

(** [stop_pmc8_tracking_motion] *)
Definition stop_pmc8_tracking_motion : PMC bool :=
  rc <- set_pmc8_custom_ra_track_rate 0 ;;
  if negb rc then ret false else ret true.

Close Scope cmd_scope.
Close Scope string_scope.

(** ** PMC-Eight: worlds to run the commands in *)

(** A world off simulation with nothing sent yet, and the line's coming
    behaviour. *)
Definition real_world (coming : list line_event) : world :=
  mkWorld false (mkSimData 0 0 0 0 0 0 0) ST_STOPPED [] coming.

(** The same in simulation. *)
Definition sim_world (d : SimData) (st : PMC8_SYSTEM_STATUS) : world :=
  mkWorld true d st [] [].


(** The frames that ask an axis for its rate. *)
Definition rate_query (f : string) : Prop :=
  f = "ESGr0!"%string \/ f = "ESGr1!"%string.

(** ** PMC-Eight: a motor count written and read back *)

(** What the driver reads back from the field it wrote for [x]. *)
Definition decode_encode (x : Z) : Z :=
  convert_axispos_to_motor (axispos_of_field (convert_motor_counts_to_hex x)).

(** ** PMC-Eight: coordinates and motor counts *)

(** [INDI::Telescope::TelescopePierSide] *)
Inductive TelescopePierSide := PIER_UNKNOWN | PIER_WEST | PIER_EAST.

(** What a converter with an [int *] result does: store counts and return
    [true], return [false], or run into undefined behaviour. *)
Inductive conversion :=
| Counts (mcounts : Z)
| Refused
| Undefined.

Definition counts_of_cast (o : option Z) : conversion :=
  match o with
  | Some z => Counts z
  | None => Undefined
  end.

Section Coordinates.

(** The value of [get_local_sidereal_time(pmc8_longitude)] at the time of
    the call, in hours. *)
Variable lst : Q.

(** The hour angle both [convert_ra_to_motor] and [destSideOfPier] start
    with: one turn is added or taken off, once. *)
Definition hour_angle_of (ra : Q) : Q :=
  let hour_angle := lst - ra in
  if Qltb 12 hour_angle then hour_angle - 24
  else if Qleb hour_angle (-12) then hour_angle + 24
  else hour_angle.

(** [convert_ra_to_motor] *)
Definition convert_ra_to_motor (ra : Q) (sop : TelescopePierSide) : conversion :=
  let hour_angle := hour_angle_of ra in
  match sop with
  | PIER_EAST =>
      let motor_angle := hour_angle - 6 in
      counts_of_cast (cast_int (motor_angle * PMC8_AXIS0_SCALE / 24))
  | PIER_WEST =>
      let motor_angle := hour_angle + 6 in
      counts_of_cast (cast_int (motor_angle * PMC8_AXIS0_SCALE / 24))
  | PIER_UNKNOWN => Refused
  end.

(** [convert_dec_to_motor] *)
Definition convert_dec_to_motor (dec : Q) (sop : TelescopePierSide) : conversion :=
  match sop with
  | PIER_EAST =>
      let motor_angle := dec - 90 in
      counts_of_cast (cast_int ((motor_angle / 360) * PMC8_AXIS1_SCALE))
  | PIER_WEST =>
      let motor_angle := - (dec - 90) in
      counts_of_cast (cast_int ((motor_angle / 360) * PMC8_AXIS1_SCALE))
  | PIER_UNKNOWN => Refused
  end.

(** [convert_motor_to_radec]: the pair [(ra_value, dec_value)]; the
    function always returns [true]. *)
Definition convert_motor_to_radec (racounts deccounts : Z) : Q * Q :=
  let motor_angle := (24 * inject_Z racounts) / PMC8_AXIS0_SCALE in
  let hour_angle :=
    if (deccounts <? 0)%Z then motor_angle + 6 else motor_angle - 6 in
  let ra_value := lst - hour_angle in
  let ra_value :=
    if Qleb 24 ra_value then ra_value - 24
    else if Qltb ra_value 0 then ra_value + 24
    else ra_value in
  let motor_angle := (360 * inject_Z deccounts) / PMC8_AXIS1_SCALE in
  let dec_value :=
    if Qleb 0 motor_angle then 90 - motor_angle else 90 + motor_angle in
  (ra_value, dec_value).

(** [destSideOfPier]; [dec] is unused. *)
Definition destSideOfPier (ra dec : Q) : TelescopePierSide :=
  let hour_angle := hour_angle_of ra in
  if Qltb hour_angle 0 then PIER_WEST else PIER_EAST.

End Coordinates.

(** ** Astro-Physics: driver state *)

(** [INDI::Telescope::TelescopeStatus] *)
Inductive TelescopeStatus :=
  SCOPE_IDLE | SCOPE_SLEWING | SCOPE_TRACKING | SCOPE_PARKING | SCOPE_PARKED.

(** [IPState] *)
Inductive IPState := IPS_IDLE | IPS_OK | IPS_BUSY | IPS_ALERT.

(** Modelled from the spec: the tracking modes handed to
    [selectAPTrackingMode] ([lx200apdriver.h] and [inditelescope.h] are
    outside src); the data model lists sidereal, lunar, solar, custom and
    off, and the custom mode of the base class is the one tested by
    [SetTrackMode]. *)
Inductive ap_track_mode :=
  AP_TRACKING_SIDEREAL | AP_TRACKING_SOLAR | AP_TRACKING_LUNAR
| TRACK_CUSTOM | AP_TRACKING_OFF.

(** Modelled from the spec: [TRACKRATE_SIDEREAL], a macro of the base
    class headers; 15.04106864 arcsec/s. *)
Definition TRACKRATE_SIDEREAL : Q := 15.04106864.

(** [initProperties]: the bounds the driver declares on the two track
    rates, in arcsec/s. *)
Definition TrackRateN_RA_min : Q := -15026.0258.
Definition TrackRateN_RA_max : Q := 15026.0258.
Definition TrackRateN_DE_min : Q := -998.9999.
Definition TrackRateN_DE_max : Q := 998.9999.

(** Calls that leave [lx200ap.cpp]: into the LX200 and Astro-Physics
    command layers, which talk to the mount and whose result is the
    mount's answer, and into the base class, which only takes note. *)
Inductive ap_call :=
| getLX200RA
| getLX200DEC
| getLX200Az
| getLX200Alt
| setAPPark
| abortSlew
| setAPObjectRA (ra : Q)
| setAPObjectDEC (dec : Q)
| Slew
| setAPRATrackRate (rate : Q)
| setAPDETrackRate (rate : Q)
| selectAPTrackingMode (mode : ap_track_mode)
| pierSideQuery
| mountSim
| NewRaDec (ra dec : Q)
| SetParked (parked : bool)
| setPierSide (side : TelescopePierSide)
| slewError.

(** The outcome of a call to the mount: an error, a plain success, a
    number read, or a text read. *)
Inductive answer :=
| Err
| Ack
| Num (q : Q)
| Txt (t : string).

Record ap_state := mkAP {
  (** [isSimulation()] *)
  simulation : bool;
  TrackState : TelescopeStatus;
  currentRA : Q;
  currentDEC : Q;
  targetRA : Q;
  targetDEC : Q;
  lastRA : Q;
  lastDE : Q;
  currentAz : Q;
  currentAlt : Q;
  lastAZ : Q;
  lastAL : Q;
  EqNP_s : IPState;
  AbortSP_s : IPState;
  MovementNSSP_s : IPState;
  MovementWESP_s : IPState;
  (** the mode [IUFindOnSwitchIndex(&TrackModeSP)] finds *)
  TrackModeSP_on : ap_track_mode;
  (** [TrackRateN[AXIS_RA].value] *)
  TrackRateN_RA : Q;
  (** [TrackRateN[AXIS_DE].value] *)
  TrackRateN_DE : Q;
  motionCommanded : bool;
  (** calls made into the command layers and the base class, oldest first *)
  calls : list ap_call;
  (** what the mount will answer to the coming calls *)
  answers : list answer
}.

(** One setter for each field the driver assigns. *)
Definition set_TrackState (v : TelescopeStatus) (s : ap_state) : ap_state :=
  mkAP (simulation s) v (currentRA s) (currentDEC s)
       (targetRA s) (targetDEC s) (lastRA s) (lastDE s)
       (currentAz s) (currentAlt s) (lastAZ s) (lastAL s)
       (EqNP_s s) (AbortSP_s s) (MovementNSSP_s s) (MovementWESP_s s)
       (TrackModeSP_on s) (TrackRateN_RA s) (TrackRateN_DE s)
       (motionCommanded s) (calls s) (answers s).

Definition set_currentRA (v : Q) (s : ap_state) : ap_state :=
  mkAP (simulation s) (TrackState s) v (currentDEC s)
       (targetRA s) (targetDEC s) (lastRA s) (lastDE s)
       (currentAz s) (currentAlt s) (lastAZ s) (lastAL s)
       (EqNP_s s) (AbortSP_s s) (MovementNSSP_s s) (MovementWESP_s s)
       (TrackModeSP_on s) (TrackRateN_RA s) (TrackRateN_DE s)
       (motionCommanded s) (calls s) (answers s).

Definition set_currentDEC (v : Q) (s : ap_state) : ap_state :=
  mkAP (simulation s) (TrackState s) (currentRA s) v
       (targetRA s) (targetDEC s) (lastRA s) (lastDE s)
       (currentAz s) (currentAlt s) (lastAZ s) (lastAL s)
       (EqNP_s s) (AbortSP_s s) (MovementNSSP_s s) (MovementWESP_s s)
       (TrackModeSP_on s) (TrackRateN_RA s) (TrackRateN_DE s)
       (motionCommanded s) (calls s) (answers s).

Definition set_targetRA (v : Q) (s : ap_state) : ap_state :=
  mkAP (simulation s) (TrackState s) (currentRA s) (currentDEC s)
       v (targetDEC s) (lastRA s) (lastDE s)
       (currentAz s) (currentAlt s) (lastAZ s) (lastAL s)
       (EqNP_s s) (AbortSP_s s) (MovementNSSP_s s) (MovementWESP_s s)
       (TrackModeSP_on s) (TrackRateN_RA s) (TrackRateN_DE s)
       (motionCommanded s) (calls s) (answers s).

Definition set_targetDEC (v : Q) (s : ap_state) : ap_state :=
  mkAP (simulation s) (TrackState s) (currentRA s) (currentDEC s)
       (targetRA s) v (lastRA s) (lastDE s)
       (currentAz s) (currentAlt s) (lastAZ s) (lastAL s)
       (EqNP_s s) (AbortSP_s s) (MovementNSSP_s s) (MovementWESP_s s)
       (TrackModeSP_on s) (TrackRateN_RA s) (TrackRateN_DE s)
       (motionCommanded s) (calls s) (answers s).

Definition set_lastRA (v : Q) (s : ap_state) : ap_state :=
  mkAP (simulation s) (TrackState s) (currentRA s) (currentDEC s)
       (targetRA s) (targetDEC s) v (lastDE s)
       (currentAz s) (currentAlt s) (lastAZ s) (lastAL s)
       (EqNP_s s) (AbortSP_s s) (MovementNSSP_s s) (MovementWESP_s s)
       (TrackModeSP_on s) (TrackRateN_RA s) (TrackRateN_DE s)
       (motionCommanded s) (calls s) (answers s).

Definition set_lastDE (v : Q) (s : ap_state) : ap_state :=
  mkAP (simulation s) (TrackState s) (currentRA s) (currentDEC s)
       (targetRA s) (targetDEC s) (lastRA s) v
       (currentAz s) (currentAlt s) (lastAZ s) (lastAL s)
       (EqNP_s s) (AbortSP_s s) (MovementNSSP_s s) (MovementWESP_s s)
       (TrackModeSP_on s) (TrackRateN_RA s) (TrackRateN_DE s)
       (motionCommanded s) (calls s) (answers s).

Definition set_currentAz (v : Q) (s : ap_state) : ap_state :=
  mkAP (simulation s) (TrackState s) (currentRA s) (currentDEC s)
       (targetRA s) (targetDEC s) (lastRA s) (lastDE s)
       v (currentAlt s) (lastAZ s) (lastAL s)
       (EqNP_s s) (AbortSP_s s) (MovementNSSP_s s) (MovementWESP_s s)
       (TrackModeSP_on s) (TrackRateN_RA s) (TrackRateN_DE s)
       (motionCommanded s) (calls s) (answers s).

Definition set_currentAlt (v : Q) (s : ap_state) : ap_state :=
  mkAP (simulation s) (TrackState s) (currentRA s) (currentDEC s)
       (targetRA s) (targetDEC s) (lastRA s) (lastDE s)
       (currentAz s) v (lastAZ s) (lastAL s)
       (EqNP_s s) (AbortSP_s s) (MovementNSSP_s s) (MovementWESP_s s)
       (TrackModeSP_on s) (TrackRateN_RA s) (TrackRateN_DE s)
       (motionCommanded s) (calls s) (answers s).

Definition set_lastAZ (v : Q) (s : ap_state) : ap_state :=
  mkAP (simulation s) (TrackState s) (currentRA s) (currentDEC s)
       (targetRA s) (targetDEC s) (lastRA s) (lastDE s)
       (currentAz s) (currentAlt s) v (lastAL s)
       (EqNP_s s) (AbortSP_s s) (MovementNSSP_s s) (MovementWESP_s s)
       (TrackModeSP_on s) (TrackRateN_RA s) (TrackRateN_DE s)
       (motionCommanded s) (calls s) (answers s).

Definition set_lastAL (v : Q) (s : ap_state) : ap_state :=
  mkAP (simulation s) (TrackState s) (currentRA s) (currentDEC s)
       (targetRA s) (targetDEC s) (lastRA s) (lastDE s)
       (currentAz s) (currentAlt s) (lastAZ s) v
       (EqNP_s s) (AbortSP_s s) (MovementNSSP_s s) (MovementWESP_s s)
       (TrackModeSP_on s) (TrackRateN_RA s) (TrackRateN_DE s)
       (motionCommanded s) (calls s) (answers s).

Definition set_EqNP_s (v : IPState) (s : ap_state) : ap_state :=
  mkAP (simulation s) (TrackState s) (currentRA s) (currentDEC s)
       (targetRA s) (targetDEC s) (lastRA s) (lastDE s)
       (currentAz s) (currentAlt s) (lastAZ s) (lastAL s)
       v (AbortSP_s s) (MovementNSSP_s s) (MovementWESP_s s)
       (TrackModeSP_on s) (TrackRateN_RA s) (TrackRateN_DE s)
       (motionCommanded s) (calls s) (answers s).

Definition set_AbortSP_s (v : IPState) (s : ap_state) : ap_state :=
  mkAP (simulation s) (TrackState s) (currentRA s) (currentDEC s)
       (targetRA s) (targetDEC s) (lastRA s) (lastDE s)
       (currentAz s) (currentAlt s) (lastAZ s) (lastAL s)
       (EqNP_s s) v (MovementNSSP_s s) (MovementWESP_s s)
       (TrackModeSP_on s) (TrackRateN_RA s) (TrackRateN_DE s)
       (motionCommanded s) (calls s) (answers s).

Definition set_MovementNSSP_s (v : IPState) (s : ap_state) : ap_state :=
  mkAP (simulation s) (TrackState s) (currentRA s) (currentDEC s)
       (targetRA s) (targetDEC s) (lastRA s) (lastDE s)
       (currentAz s) (currentAlt s) (lastAZ s) (lastAL s)
       (EqNP_s s) (AbortSP_s s) v (MovementWESP_s s)
       (TrackModeSP_on s) (TrackRateN_RA s) (TrackRateN_DE s)
       (motionCommanded s) (calls s) (answers s).

Definition set_MovementWESP_s (v : IPState) (s : ap_state) : ap_state :=
  mkAP (simulation s) (TrackState s) (currentRA s) (currentDEC s)
       (targetRA s) (targetDEC s) (lastRA s) (lastDE s)
       (currentAz s) (currentAlt s) (lastAZ s) (lastAL s)
       (EqNP_s s) (AbortSP_s s) (MovementNSSP_s s) v
       (TrackModeSP_on s) (TrackRateN_RA s) (TrackRateN_DE s)
       (motionCommanded s) (calls s) (answers s).

Definition set_motionCommanded (v : bool) (s : ap_state) : ap_state :=
  mkAP (simulation s) (TrackState s) (currentRA s) (currentDEC s)
       (targetRA s) (targetDEC s) (lastRA s) (lastDE s)
       (currentAz s) (currentAlt s) (lastAZ s) (lastAL s)
       (EqNP_s s) (AbortSP_s s) (MovementNSSP_s s) (MovementWESP_s s)
       (TrackModeSP_on s) (TrackRateN_RA s) (TrackRateN_DE s)
       v (calls s) (answers s).

Definition set_calls (v : list ap_call) (s : ap_state) : ap_state :=
  mkAP (simulation s) (TrackState s) (currentRA s) (currentDEC s)
       (targetRA s) (targetDEC s) (lastRA s) (lastDE s)
       (currentAz s) (currentAlt s) (lastAZ s) (lastAL s)
       (EqNP_s s) (AbortSP_s s) (MovementNSSP_s s) (MovementWESP_s s)
       (TrackModeSP_on s) (TrackRateN_RA s) (TrackRateN_DE s)
       (motionCommanded s) v (answers s).

Definition set_answers (v : list answer) (s : ap_state) : ap_state :=
  mkAP (simulation s) (TrackState s) (currentRA s) (currentDEC s)
       (targetRA s) (targetDEC s) (lastRA s) (lastDE s)
       (currentAz s) (currentAlt s) (lastAZ s) (lastAL s)
       (EqNP_s s) (AbortSP_s s) (MovementNSSP_s s) (MovementWESP_s s)
       (TrackModeSP_on s) (TrackRateN_RA s) (TrackRateN_DE s)
       (motionCommanded s) (calls s) v.

Definition AP := M ap_state.

Local Open Scope cmd_scope.
Local Open Scope string_scope.

(** A call whose result comes from the mount: the first of the coming
    answers; a line that has nothing more to say answers with an error. *)
Definition call (c : ap_call) : AP answer :=
  fun s =>
    Some (hd Err (answers s),
          set_answers (tl (answers s)) (set_calls (calls s ++ [c]) s)).

(** A call into the base class. *)
Definition note (c : ap_call) : AP unit :=
  modify (fun s => set_calls (calls s ++ [c]) s).

(** A getter of the LX200 layer: the number read, or [None] for a nonzero
    return. *)
Definition get_number (c : ap_call) : AP (option Q) :=
  a <- call c ;;
  match a with
  | Num q => ret (Some q)
  | _ => ret None
  end.

Definition succeeded (a : answer) : bool :=
  match a with
  | Err => false
  | _ => true
  end.

(** A setter or command of the command layers: [true] unless it reports an
    error. *)
Definition command (c : ap_call) : AP bool :=
  a <- call c ;;
  ret (succeeded a).

(** [s] without its last character. *)
Fixpoint str_init (s : string) : string :=
  match s with
  | EmptyString => EmptyString
  | String c EmptyString => EmptyString
  | String c s' => String c (str_init s')
  end.

(** [LX200AstroPhysics::SetTrackRate] *)
Definition SetTrackRate (raRate deRate : Q) : AP bool :=
  let APRARate := (raRate - TRACKRATE_SIDEREAL) / TRACKRATE_SIDEREAL in
  let APDERate := deRate / TRACKRATE_SIDEREAL in
  sim <- gets simulation ;;
  if negb sim then
    ok <- command (setAPRATrackRate APRARate) ;;
    if negb ok then ret false else
    ok <- command (setAPDETrackRate APDERate) ;;
    if negb ok then ret false else ret true
  else ret true.

(** [LX200AstroPhysics::SetTrackMode] *)
Definition SetTrackMode (mode : ap_track_mode) : AP bool :=
  sim <- gets simulation ;;
  match mode with
  | TRACK_CUSTOM =>
      ok <- (if negb sim then command (selectAPTrackingMode AP_TRACKING_SIDEREAL)
             else ret true) ;;
      if negb ok then ret false else
      ra <- gets TrackRateN_RA ;;
      de <- gets TrackRateN_DE ;;
      SetTrackRate ra de
  | _ =>
      ok <- (if negb sim then command (selectAPTrackingMode mode)
             else ret true) ;;
      if negb ok then ret false else ret true
  end.

(** [LX200AstroPhysics::SetTrackEnabled] *)
Definition SetTrackEnabled (enabled : bool) : AP bool :=
  mode <- gets TrackModeSP_on ;;
  SetTrackMode (if enabled then mode else AP_TRACKING_OFF).

(** Modelled from the spec: [INDI::Telescope::SetParked(true)], of the
    base class; the state becomes PARKED. *)
Definition SetParked_true : AP unit :=
  note (SetParked true) ;;
  modify (set_TrackState SCOPE_PARKED).

(** [LX200AstroPhysics::syncSideOfPier] *)
Definition syncSideOfPier : AP unit :=
  a <- call pierSideQuery ;;
  match a with
  | Txt response =>
      let response := str_init response in
      if String.eqb response "East" then note (setPierSide PIER_EAST)
      else if String.eqb response "West" then note (setPierSide PIER_WEST)
      else ret tt
  | _ => ret tt
  end.

(** [LX200AstroPhysics::ReadScopeStatus] *)
Definition ReadScopeStatus : AP bool :=
  sim <- gets simulation ;;
  if sim then note mountSim ;; ret true else
  ra <- get_number getLX200RA ;;
  match ra with
  | None => modify (set_EqNP_s IPS_ALERT) ;; ret false
  | Some ra =>
  modify (set_currentRA ra) ;;
  dec <- get_number getLX200DEC ;;
  match dec with
  | None => modify (set_EqNP_s IPS_ALERT) ;; ret false
  | Some dec =>
  modify (set_currentDEC dec) ;;
  st <- gets TrackState ;;
  go <- match st with
        | SCOPE_SLEWING =>
            dx <- gets (fun s => lastRA s - currentRA s) ;;
            dy <- gets (fun s => lastDE s - currentDEC s) ;;
            (if Qeq_bool dx 0 && Qeq_bool dy 0
             then modify (set_TrackState SCOPE_TRACKING)
             else ret tt) ;;
            modify (fun s => set_lastRA (currentRA s) s) ;;
            modify (fun s => set_lastDE (currentDEC s) s) ;;
            ret true
        | SCOPE_PARKING =>
            az <- get_number getLX200Az ;;
            match az with
            | None => modify (set_EqNP_s IPS_ALERT) ;; ret false
            | Some az =>
            modify (set_currentAz az) ;;
            alt <- get_number getLX200Alt ;;
            match alt with
            | None => modify (set_EqNP_s IPS_ALERT) ;; ret false
            | Some alt =>
            modify (set_currentAlt alt) ;;
            dx <- gets (fun s => lastAZ s - currentAz s) ;;
            dy <- gets (fun s => lastAL s - currentAlt s) ;;
            ok <- (if Qeq_bool dx 0 && Qeq_bool dy 0
                   then
                     parked <- command setAPPark ;;
                     if negb parked then ret false else
                     SetTrackEnabled false ;;
                     SetParked_true ;;
                     ret true
                   else ret true) ;;
            if negb ok then ret false else
            modify (fun s => set_lastAZ (currentAz s) s) ;;
            modify (fun s => set_lastAL (currentAlt s) s) ;;
            ret true
            end
            end
        | _ => ret true
        end ;;
  if negb go then ret false else
  ra <- gets currentRA ;;
  dec <- gets currentDEC ;;
  note (NewRaDec ra dec) ;;
  syncSideOfPier ;;
  ret true
  end
  end.

(** [LX200AstroPhysics::IsMountInitialized]; [Some initialized] when it
    returns [true]. *)
Definition IsMountInitialized : AP (option bool) :=
  let epscheck : Q := 1 # 100000 in
  ra <- get_number getLX200RA ;;
  match ra with
  | None => ret None
  | Some ra =>
      dec <- get_number getLX200DEC ;;
      match dec with
      | None => ret None
      | Some dec =>
          let raZE := Qltb (Qabs ra) epscheck in
          let deZE := Qltb (Qabs dec) epscheck in
          let de90 := Qltb (Qabs (dec - 90)) epscheck in
          if (raZE && deZE) || (raZE && de90)
          then ret (Some false)
          else ret (Some true)
      end
  end.

(** [LX200AstroPhysics::Goto] *)
Definition Goto (r d : Q) : AP bool :=
  modify (set_targetRA r) ;;
  modify (set_targetDEC d) ;;
  sim <- gets simulation ;;
  eq <- gets EqNP_s ;;
  ok <- match eq with
        | IPS_BUSY =>
            aborted <- (if negb sim then command abortSlew else ret true) ;;
            if negb aborted
            then modify (set_AbortSP_s IPS_ALERT) ;; ret false
            else
              modify (set_AbortSP_s IPS_OK) ;;
              modify (set_EqNP_s IPS_IDLE) ;;
              ns <- gets MovementNSSP_s ;;
              we <- gets MovementWESP_s ;;
              (match ns, we with
               | IPS_BUSY, _ | _, IPS_BUSY =>
                   modify (set_MovementNSSP_s IPS_IDLE) ;;
                   modify (set_MovementWESP_s IPS_IDLE) ;;
                   modify (set_EqNP_s IPS_IDLE)
               | _, _ => ret tt
               end) ;;
              ret true
        | _ => ret true
        end ;;
  if negb ok then ret false else
  ok <- (if negb sim then
           tra <- gets targetRA ;;
           tde <- gets targetDEC ;;
           okra <- command (setAPObjectRA tra) ;;
           if negb okra
           then modify (set_EqNP_s IPS_ALERT) ;; ret false
           else
             okde <- command (setAPObjectDEC tde) ;;
             if negb okde
             then modify (set_EqNP_s IPS_ALERT) ;; ret false
             else
               slewing <- command Slew ;;
               if negb slewing
               then modify (set_EqNP_s IPS_ALERT) ;; note slewError ;; ret false
               else
                 modify (set_motionCommanded true) ;;
                 modify (set_lastRA tra) ;;
                 modify (set_lastDE tde) ;;
                 ret true
         else ret true) ;;
  if negb ok then ret false else
  modify (set_TrackState SCOPE_SLEWING) ;;
  modify (set_EqNP_s IPS_BUSY) ;;
  ret true.

Close Scope cmd_scope.
Close Scope string_scope.

(** ** Astro-Physics: states to run the methods in *)

(** A driver state off simulation that has made no call yet, with the
    mount's coming answers. *)
Definition ap_fresh (coming : list answer) : ap_state :=
  mkAP false SCOPE_IDLE 0 0 0 0 0 0 0 0 0 0
       IPS_IDLE IPS_IDLE IPS_IDLE IPS_IDLE
       AP_TRACKING_SIDEREAL 0 0 false [] coming.

(** The answers of a mount that is polled with the given readings: per
    poll the RA, the Dec, and its answer to the pier side query. *)
Definition poll_answers (pier : answer) (readings : list (Q * Q))
  : list answer :=
  flat_map (fun r => [Num (fst r); Num (snd r); pier]) readings.

(** [n] timer ticks, each one call of [ReadScopeStatus]. *)
Fixpoint polls (n : nat) (s : ap_state) : option ap_state :=
  match n with
  | O => Some s
  | S k =>
      match ReadScopeStatus s with
      | Some (_, s') => polls k s'
      | None => None
      end
  end.

(** ** The claims, in the words of the specification *)

(** The 24-bit two's complement reading of a wire value, as the
    specification words it: from [2^23] on, [wire - 2^24]. *)
Definition decode_twos_complement_24 (wire : Z) : Z :=
  if (2 ^ 23 <=? wire)%Z then (wire - 2 ^ 24)%Z else wire.








(** The clamp of the custom rate multipliers. *)
Definition clampQ (lo hi q : Q) : Q :=
  if Qltb q lo then lo else if Qltb hi q then hi else q.

Definition spec_ap_ra_multiplier (raRate : Q) : Q :=
  clampQ (-998.9999) 998.9999
         ((raRate - TRACKRATE_SIDEREAL) / TRACKRATE_SIDEREAL).

Definition spec_ap_de_multiplier (deRate : Q) : Q :=
  clampQ (-998.9999) 998.9999 (deRate / TRACKRATE_SIDEREAL).

(** Modelled from the spec: what [setAPRATrackRate] and [setAPDETrackRate]
    of the command layer ([lx200apdriver], outside src) put on the wire for
    the multiplier they are handed: the multiplier clamped to
    [-998.9999, 998.9999]. *)
Definition wire_multiplier (multiplier : Q) : Q :=
  clampQ (-998.9999) 998.9999 multiplier.

(** The multiplier on the wire for a call, when the call is one of the two
    rate commands. *)
Definition wire_of (c : ap_call) : option Q :=
  match c with
  | setAPRATrackRate m => Some (wire_multiplier m)
  | setAPDETrackRate m => Some (wire_multiplier m)
  | _ => None
  end.

(** Equality at the tolerance of the initialisation test. *)
Definition close_to (x y : Q) : Prop := Qabs (x - y) < 1 # 100000.

Definition same_position (a b : Q * Q) : bool :=
  Qeq_bool (fst a) (fst b) && Qeq_bool (snd a) (snd b).

(** Some position of the list is followed by the same position: with the
    readings of the polls, the position was static across two polls. *)
Fixpoint static_twice (positions : list (Q * Q)) : bool :=
  match positions with
  | a :: tl =>
      match tl with
      | b :: _ => same_position a b || static_twice tl
      | [] => false
      end
  | [] => false
  end.

(** ** C strings, as far as the remaining commands use them

    A [string] stands for the characters a buffer holds before the NUL the
    driver stores behind them; bytes read from the port may themselves be
    NUL. *)

Definition NUL : ascii := "000"%char.

(** The character a buffer holds at its start: the terminating NUL once the
    characters are used up. *)
Definition c_head (s : string) : ascii :=
  match s with
  | EmptyString => NUL
  | String c _ => c
  end.

Definition c_tail (s : string) : string :=
  match s with
  | EmptyString => EmptyString
  | String _ s' => s'
  end.

(** [strlen]: the characters before the first NUL. *)
Fixpoint c_strlen (s : string) : nat :=
  match s with
  | EmptyString => O
  | String c s' => if Ascii.eqb c NUL then O else S (c_strlen s')
  end.

(** [strncmp(a, b, n) == 0]: the first [n] characters agree, or both
    strings end before that at the same place. *)
Fixpoint strncmp_eq (n : nat) (a b : string) : bool :=
  match n with
  | O => true
  | S k =>
      if negb (Ascii.eqb (c_head a) (c_head b)) then false
      else if Ascii.eqb (c_head a) NUL then true
      else strncmp_eq k (c_tail a) (c_tail b)
  end.

(** [strncpy(dst, src, n)]: the [n] bytes of [dst] afterwards; what follows
    the end of [src] is filled with NUL. *)
Fixpoint strncpy (n : nat) (src : string) : string :=
  match n with
  | O => EmptyString
  | S k =>
      if Ascii.eqb (c_head src) NUL
      then String NUL (strncpy k EmptyString)
      else String (c_head src) (strncpy k (c_tail src))
  end.

(** [isspace] in the C locale. *)
Definition isspace (c : ascii) : bool :=
  let n := Z.of_N (N_of_ascii c) in
  ((n =? 32) || ((9 <=? n) && (n <=? 13)))%Z.

Fixpoint skip_space (s : string) : string :=
  match s with
  | String c s' => if isspace c then skip_space s' else s
  | EmptyString => s
  end.

(** A digit of the given base. *)
Definition digit_in (base : Z) (c : ascii) : option Z :=
  match hexval c with
  | Some d => if (d <? base)%Z then Some d else None
  | None => None
  end.

Fixpoint strtol_digits_in (base acc : Z) (s : string) : Z :=
  match s with
  | EmptyString => acc
  | String c s' =>
      match digit_in base c with
      | Some d => strtol_digits_in base (acc * base + d)%Z s'
      | None => acc
      end
  end.

(** The digits of a number whose base its prefix tells: [0x] or [0X] before
    a hexadecimal digit, else a leading [0] for octal, else decimal. *)
Definition strtol_prefixed (s : string) : Z :=
  match s with
  | String "0"%char (String x (String h t)) =>
      if (Ascii.eqb x "x"%char || Ascii.eqb x "X"%char)
         && match hexval h with Some _ => true | None => false end
      then strtol_digits_in 16 0 (String h t)
      else strtol_digits_in 8 0 s
  | String "0"%char _ => strtol_digits_in 8 0 s
  | _ => strtol_digits_in 10 0 s
  end.

(** [strtol(s, NULL, 0)] in full, for strings short enough that a [long]
    holds the value: white space, a sign, and the number. *)
Definition strtol_auto (s : string) : Z :=
  match skip_space s with
  | String "-"%char s' => (- strtol_prefixed s')%Z
  | String "+"%char s' => strtol_prefixed s'
  | s' => strtol_prefixed s'
  end.

(** ** PMC-Eight: the rest of the command set *)

Local Open Scope cmd_scope.
Local Open Scope string_scope.

Definition PMC8_SIMUL_VERSION_RESP : string := "ESGvES06B9T9".

(** The bytes of [s] up to and with the first [stop]. *)
Fixpoint through (stop : ascii) (s : string) : option string :=
  match s with
  | EmptyString => None
  | String c s' =>
      if Ascii.eqb c stop then Some (String c EmptyString)
      else match through stop s' with
           | Some t => Some (String c t)
           | None => None
           end
  end.

(** Modelled from the spec: [tty_read_section] of the transport adapter,
    which reads up to and with the stop character or fails on the timeout;
    [Some] carries the bytes read. *)
Definition tty_read_section (stop : ascii) : PMC (option string) :=
  fun w =>
    let w' rest := mkWorld (pmc8_simulation w) (simPMC8Data w)
                           (systemStatus w) (sent w) rest in
    match line w with
    | Reply bytes :: rest => Some (through stop bytes, w' rest)
    | ReadFails :: rest => Some (None, w' rest)
    | _ => Some (None, w)
    end.

(** [response[nbytes_read] = 0] on a buffer of [size] bytes: storing the
    terminator past the end of the buffer is undefined. *)
Definition stored_in (size : nat) (response : string) : PMC unit :=
  if (size <=? String.length response)%nat then undefined else ret tt.

(** [set_pmc8_simulation] *)
Definition set_pmc8_simulation (enable : bool) : PMC unit :=
  modify (fun w =>
            mkWorld enable
                    (if enable
                     then mkSimData (sim_ra (simPMC8Data w)) (sim_dec (simPMC8Data w))
                                    (raDirection (simPMC8Data w))
                                    (decDirection (simPMC8Data w))
                                    (trackRate (simPMC8Data w))
                                    (moveRate (simPMC8Data w)) 0.5
                     else simPMC8Data w)
                    (systemStatus w) (sent w) (line w)).

(** [set_pmc8_sim_ra] *)
Definition set_pmc8_sim_ra (ra : Q) : PMC unit :=
  modify (fun w =>
            set_simPMC8Data
              (mkSimData ra (sim_dec (simPMC8Data w))
                         (raDirection (simPMC8Data w)) (decDirection (simPMC8Data w))
                         (trackRate (simPMC8Data w)) (moveRate (simPMC8Data w))
                         (guide_rate (simPMC8Data w))) w).

(** [set_pmc8_sim_dec] *)
Definition set_pmc8_sim_dec (dec : Q) : PMC unit :=
  modify (fun w =>
            set_simPMC8Data
              (mkSimData (sim_ra (simPMC8Data w)) dec
                         (raDirection (simPMC8Data w)) (decDirection (simPMC8Data w))
                         (trackRate (simPMC8Data w)) (moveRate (simPMC8Data w))
                         (guide_rate (simPMC8Data w))) w).

(** One pass of the loop of [check_pmc8_connection] and the passes after
    it; a pass whose write or read fails goes on to the next. *)
Fixpoint check_pmc8_connection_passes (passes : nat) : PMC bool :=
  match passes with
  | O => ret false
  | S k =>
      sim <- gets pmc8_simulation ;;
      r <- (if sim then ret (Some PMC8_SIMUL_VERSION_RESP)
            else
              ok <- tty_write "ESGv!" ;;
              if negb ok then ret None else tty_read_section "!"%char) ;;
      match r with
      | None => check_pmc8_connection_passes k
      | Some response =>
          if (0 <? String.length response)%nat
          then
            stored_in 16 response ;;
            if strncmp_eq 6 response "ESGvES"
            then ret true
            else check_pmc8_connection_passes k
          else check_pmc8_connection_passes k
      end
  end.

(** [check_pmc8_connection] *)
Definition check_pmc8_connection : PMC bool :=
  check_pmc8_connection_passes 2.

(** [get_pmc8_model]; the model name it stores. *)
Definition get_pmc8_model : PMC (option string) :=
  ret (Some "PMC-Eight").

(** [get_pmc8_main_firmware]; [Some board] when it returns [true]. *)
Definition get_pmc8_main_firmware : PMC (option string) :=
  sim <- gets pmc8_simulation ;;
  r <- (if sim then ret (Some PMC8_SIMUL_VERSION_RESP)
        else
          ok <- tty_write "ESGv!" ;;
          if negb ok then ret None else tty_read_section "#"%char) ;;
  match r with
  | None => ret None
  | Some response =>
      if (0 <? String.length response)%nat
      then
        stored_in 24 response ;;
        if (String.length response =? 13)%nat
        then ret (Some (strncpy 6 (str_drop 6 (str_take 12 response))))
        else ret None
      else ret None
  end.

(** [get_pmc8_firmware]; the model and the board when it returns [true]. *)
Definition get_pmc8_firmware : PMC (option (string * string)) :=
  m <- get_pmc8_model ;;
  match m with
  | None => ret None
  | Some model =>
      b <- get_pmc8_main_firmware ;;
      match b with
      | None => ret None
      | Some board => ret (Some (model, board))
      end
  end.

(** [get_pmc8_direction_axis]; [Some dir] when it returns [true]. *)
Definition get_pmc8_direction_axis (axis : PMC8_AXIS) : PMC (option Z) :=
  let cmd := "ESGd" ++ sprintf_d (axis_number axis) ++ "!" in
  sim <- gets pmc8_simulation ;;
  if sim then
    d <- gets simPMC8Data ;;
    match axis with
    | PMC8_RA_AXIS => ret (Some (raDirection d))
    | PMC8_DEC_AXIS => ret (Some (decDirection d))
    end
  else
    ok <- tty_write cmd ;;
    if negb ok then ret None else
    r <- tty_read 7 ;;
    match r with
    | None => ret None
    | Some response =>
        if negb (String.length response =? 7)%nat then ret None else
        let num_str := str_take 2 (str_drop 5 response) in
        ret (Some (strtol_auto num_str))
    end.

(** [stop_pmc8_motion] *)
Definition stop_pmc8_motion (dir : PMC8_DIRECTION) : PMC bool :=
  match dir with
  | PMC8_N | PMC8_S => set_pmc8_custom_dec_move_rate 0
  | PMC8_W | PMC8_E => set_pmc8_custom_ra_move_rate 0
  end.

(** [set_pmc8_target_position_axis] *)
Definition set_pmc8_target_position_axis (axis : PMC8_AXIS) (point : Z)
  : PMC bool :=
  let hexpt := convert_motor_counts_to_hex point in
  let cmd := "ESPt" ++ sprintf_d (axis_number axis) ++ hexpt ++ "!" in
  sim <- gets pmc8_simulation ;;
  if sim then ret true else
  ok <- tty_write cmd ;;
  if negb ok then ret false else
  r <- tty_read (String.length cmd) ;;
  match r with
  | None => ret false
  | Some response =>
      let expresp := "ESGt" ++ sprintf_d (axis_number axis) ++ hexpt ++ "!" in
      if negb (strncmp_eq (c_strlen response) response expresp)
      then ret false
      else ret true
  end.

(** [set_pmc8_target_position] *)
Definition set_pmc8_target_position (rapoint decpoint : Z) : PMC bool :=
  rc <- set_pmc8_target_position_axis PMC8_RA_AXIS rapoint ;;
  if negb rc then ret rc else
  set_pmc8_target_position_axis PMC8_DEC_AXIS decpoint.

(** [set_pmc8_position_axis] *)
Definition set_pmc8_position_axis (axis : PMC8_AXIS) (point : Z) : PMC bool :=
  sim <- gets pmc8_simulation ;;
  if sim then ret true else
  let hexpt := convert_motor_counts_to_hex point in
  let cmd := "ESSp" ++ sprintf_d (axis_number axis) ++ hexpt ++ "!" in
  ok <- tty_write cmd ;;
  if negb ok then ret false else
  r <- tty_read (String.length cmd) ;;
  match r with
  | None => ret false
  | Some response =>
      let expresp := "ESGp" ++ sprintf_d (axis_number axis) ++ hexpt ++ "!" in
      if negb (strncmp_eq (c_strlen response) response expresp)
      then ret false
      else ret true
  end.

(** [set_pmc8_position] *)
Definition set_pmc8_position (rapoint decpoint : Z) : PMC bool :=
  rc <- set_pmc8_position_axis PMC8_RA_AXIS rapoint ;;
  if negb rc then ret rc else
  set_pmc8_position_axis PMC8_DEC_AXIS decpoint.

(** What [get_pmc8_position_axis] leaves its caller with: it returned
    [false]; it returned [true] without storing anything in [point], as it
    does in simulation; or it returned [true] with [point] stored. *)
Inductive axis_position :=
| NoPosition
| PositionNotStored
| Position (point : Z).

(** [get_pmc8_position_axis] *)
Definition get_pmc8_position_axis (axis : PMC8_AXIS) : PMC axis_position :=
  sim <- gets pmc8_simulation ;;
  if sim then ret PositionNotStored else
  let cmd := "ESGp" ++ sprintf_d (axis_number axis) ++ "!" in
  ok <- tty_write cmd ;;
  if negb ok then ret NoPosition else
  r <- tty_read 12 ;;
  match r with
  | None => ret NoPosition
  | Some response =>
      if negb (String.length response =? 12)%nat then ret NoPosition else
      ret (Position (axispos_of_field (str_drop 5 response)))
  end.

(** [get_pmc8_position]; [Some (rapoint, decpoint)] when it returns [true].
    The two positions are converted whether or not they were stored. *)
Definition get_pmc8_position : PMC (option (Z * Z)) :=
  a <- get_pmc8_position_axis PMC8_RA_AXIS ;;
  match a with
  | NoPosition => ret None
  | _ =>
      b <- get_pmc8_position_axis PMC8_DEC_AXIS ;;
      match b with
      | NoPosition => ret None
      | _ =>
          match a, b with
          | Position axis_ra_pos, Position axis_dec_pos =>
              ret (Some (convert_axispos_to_motor axis_ra_pos,
                         convert_axispos_to_motor axis_dec_pos))
          | _, _ => undefined
          end
      end
  end.

(** [park_pmc8] *)
Definition park_pmc8 : PMC bool :=
  set_pmc8_target_position 0 0.

(** [abort_pmc8] *)
Definition abort_pmc8 : PMC bool :=
  sim <- gets pmc8_simulation ;;
  if sim then ret true else
  rc <- set_pmc8_custom_ra_move_rate 0 ;;
  if negb rc then ret false else
  rc <- set_pmc8_custom_dec_move_rate 0 ;;
  if negb rc then ret false else ret true.

Section Mount.

(** The value of [get_local_sidereal_time(pmc8_longitude)] during the
    call, in hours. *)
Variable lst : Q.

(** [set_pmc8_sim_system_status] *)
Definition set_pmc8_sim_system_status (value : PMC8_SYSTEM_STATUS) : PMC unit :=
  modify (fun w => mkWorld (pmc8_simulation w) (simPMC8Data w) value
                           (sent w) (line w)) ;;
  match value with
  | ST_PARKED =>
      let ra := lst + 6 in
      let ra := if Qltb 24 ra then ra - 24 else ra in
      set_pmc8_sim_ra ra ;;
      set_pmc8_sim_dec 90
  | _ => ret tt
  end.

(** [unpark_pmc8] *)
Definition unpark_pmc8 : PMC bool :=
  sim <- gets pmc8_simulation ;;
  if sim then set_pmc8_sim_system_status ST_STOPPED ;; ret true
  else ret true.

(** The start [slew_pmc8], [sync_pmc8] and [set_pmc8_radec] share: the pier
    side of the target and the two counts, the declination count being
    taken from [dec_arg]; [None] when a conversion returns [false]. *)
Definition target_counts (ra dec dec_arg : Q) : PMC (option (Z * Z)) :=
  let sop := destSideOfPier lst ra dec in
  match convert_ra_to_motor lst ra sop with
  | Refused => ret None
  | Undefined => undefined
  | Counts racounts =>
      match convert_dec_to_motor dec_arg sop with
      | Refused => ret None
      | Undefined => undefined
      | Counts deccounts => ret (Some (racounts, deccounts))
      end
  end.

(** [slew_pmc8] *)
Definition slew_pmc8 (ra dec : Q) : PMC bool :=
  c <- target_counts ra dec dec ;;
  match c with
  | None => ret false
  | Some (racounts, deccounts) =>
      rc <- set_pmc8_target_position racounts deccounts ;;
      if negb rc then ret false else
      sim <- gets pmc8_simulation ;;
      (if sim then set_pmc8_sim_system_status ST_SLEWING else ret tt) ;;
      ret true
  end.

(** [sync_pmc8] *)
Definition sync_pmc8 (ra dec : Q) : PMC bool :=
  c <- target_counts ra dec dec ;;
  match c with
  | None => ret false
  | Some (racounts, deccounts) =>
      sim <- gets pmc8_simulation ;;
      if sim then ret false else
      rc <- set_pmc8_position racounts deccounts ;;
      if negb rc then ret false else ret true
  end.

(** [set_pmc8_radec]; the source hands [ra] to [convert_dec_to_motor]. *)
Definition set_pmc8_radec (ra dec : Q) : PMC bool :=
  c <- target_counts ra dec ra ;;
  match c with
  | None => ret false
  | Some (racounts, deccounts) =>
      sim <- gets pmc8_simulation ;;
      if sim then ret false else
      rc <- set_pmc8_target_position racounts deccounts ;;
      if negb rc then ret false else ret true
  end.

(** [get_pmc8_coords]; [Some (ra, dec)] when it returns [true]. *)
Definition get_pmc8_coords : PMC (option (Q * Q)) :=
  sim <- gets pmc8_simulation ;;
  c <- (if sim then
          d <- gets simPMC8Data ;;
          target_counts (sim_ra d) (sim_dec d) (sim_dec d)
        else get_pmc8_position) ;;
  match c with
  | None => ret None
  | Some (racounts, deccounts) =>
      ret (Some (convert_motor_to_radec lst racounts deccounts))
  end.

End Mount.

Close Scope cmd_scope.
Close Scope string_scope.

(** ** Floating values as the machine rounds them

    The definitions above take a [double] for the number it stands for.
    Here an operation of the machine is the exact operation followed by
    rounding to the nearest value of the format, a tie going to the even
    one (IEEE 754, the default rounding).  Values are finite: a result of
    size 2^1024 or more (2^128 for a [float]) is an infinity in the machine
    and is not modelled; in the functions below such a value can only end
    in a cast to [int] that is undefined, or in a comparison that an
    infinity and a large number decide alike. *)

(** The nearest integer, a tie going to the even one. *)
Definition round_half_even (x : Q) : Z :=
  let f := Qfloor x in
  match Qcompare (x - inject_Z f) (1 # 2) with
  | Lt => f
  | Gt => (f + 1)%Z
  | Eq => if Z.even f then f else (f + 1)%Z
  end.

(** The [e] with [2^e <= x < 2^(e+1)], for [x > 0]. *)
Definition binade (x : Q) : Z :=
  let e := (Z.log2 (Qnum x) - Z.log2 (Zpos (Qden x)))%Z in
  if Qle_bool (2 ^ e) x then e else (e - 1)%Z.

(** Rounding to the format of [prec] significant bits whose last bit is
    worth [2^emin] at least. *)
Definition round_to (prec emin : Z) (x : Q) : Q :=
  if Qeq_bool x 0 then 0
  else
    let q := Z.max (binade (Qabs x) - prec + 1) emin in
    inject_Z (round_half_even (x / 2 ^ q)) * 2 ^ q.

(** [double] (binary64) and [float] (binary32). *)
Definition b64 : Q -> Q := round_to 53 (-1074).
Definition b32 : Q -> Q := round_to 24 (-149).

(** ** PMC-Eight: the conversions as the machine computes them

    The converters, and the commands that hand their results on, once more,
    now with every floating operation rounded as the machine rounds it, for
    the statements that depend on the last bit.  The definitions of the
    same names above are these with the rounding left out. *)

Module IEEE.

Local Open Scope cmd_scope.
Local Open Scope string_scope.

(** [convert_precise_rate_to_motor]: the parameter is a [float], so the
    argument is rounded to one on the way in; [25*rate] is a product of
    floats; the product with the quotient of the two [double] constants is a
    product of doubles. *)
Definition convert_precise_rate_to_motor (rate : Q) : option Z :=
  let rate := b32 rate in
  match cast_int (b64 (b32 (25 * rate)
                       * b64 (PMC8_AXIS0_SCALE / ARCSEC_IN_CIRCLE))) with
  | Some m => Some (clamp_rate PMC8_MAX_PRECISE_MOTOR_RATE m)
  | None => None
  end.

(** [convert_move_rate_to_motor] *)
Definition convert_move_rate_to_motor (rate : Q) : option Z :=
  let rate := b32 rate in
  match cast_int (b64 (rate * b64 (PMC8_AXIS0_SCALE / ARCSEC_IN_CIRCLE))) with
  | Some m => Some (clamp_rate PMC8_MAX_MOVE_MOTOR_RATE m)
  | None => None
  end.

(** [set_pmc8_custom_ra_track_rate]; [rate] is a [double]. *)
Definition set_pmc8_custom_ra_track_rate (rate : Q) : PMC bool :=
  rateval <- defined (convert_precise_rate_to_motor rate) ;;
  let cmd := "ESTr" ++ sprintf_0X 4 (to_unsigned rateval) ++ "!" in
  sim <- gets pmc8_simulation ;;
  if sim then
    modify (fun w => set_simPMC8Data (set_trackRate rate (simPMC8Data w)) w) ;;
    ret true
  else
    ok <- tty_write cmd ;;
    if negb ok then ret false else
    r <- tty_read (String.length cmd) ;;
    match r with
    | None => ret false
    | Some response =>
        if negb (String.length response =? 9)%nat then ret false
        else set_pmc8_direction_axis PMC8_RA_AXIS 1
    end.

(** The rate [set_pmc8_track_mode] selects: [ratereal] is a [float] that is
    given a [double] constant; it is not initialised when no [case]
    matches. *)
Definition track_mode_rate (rate : PMC8_TRACK_RATE) : option Q :=
  match rate with
  | PMC8_TRACK_SIDEREAL => Some (b32 (b64 15.0))
  | PMC8_TRACK_LUNAR => Some (b32 (b64 14.453))
  | PMC8_TRACK_SOLAR => Some (b32 (b64 15.041))
  | PMC8_TRACK_CUSTOM => None
  end.

(** [set_pmc8_track_mode] *)
Definition set_pmc8_track_mode (rate : PMC8_TRACK_RATE) : PMC bool :=
  ratereal <- defined (track_mode_rate rate) ;;
  set_pmc8_custom_ra_track_rate ratereal.

Section Coordinates.

(** The value of [get_local_sidereal_time(pmc8_longitude)] at the time of
    the call, in hours. *)
Variable lst : Q.

(** The hour angle both [convert_ra_to_motor] and [destSideOfPier] start
    with. *)
Definition hour_angle_of (ra : Q) : Q :=
  let hour_angle := b64 (lst - ra) in
  if Qltb 12 hour_angle then b64 (hour_angle - 24)
  else if Qleb hour_angle (-12) then b64 (hour_angle + 24)
  else hour_angle.

(** [convert_ra_to_motor] *)
Definition convert_ra_to_motor (ra : Q) (sop : TelescopePierSide)
  : conversion :=
  let hour_angle := hour_angle_of ra in
  match sop with
  | PIER_EAST =>
      let motor_angle := b64 (hour_angle - 6) in
      counts_of_cast
        (cast_int (b64 (b64 (motor_angle * PMC8_AXIS0_SCALE) / 24)))
  | PIER_WEST =>
      let motor_angle := b64 (hour_angle + 6) in
      counts_of_cast
        (cast_int (b64 (b64 (motor_angle * PMC8_AXIS0_SCALE) / 24)))
  | PIER_UNKNOWN => Refused
  end.

(** [convert_dec_to_motor] *)
Definition convert_dec_to_motor (dec : Q) (sop : TelescopePierSide)
  : conversion :=
  match sop with
  | PIER_EAST =>
      let motor_angle := b64 (dec - 90) in
      counts_of_cast
        (cast_int (b64 (b64 (motor_angle / 360) * PMC8_AXIS1_SCALE)))
  | PIER_WEST =>
      let motor_angle := - b64 (dec - 90) in
      counts_of_cast
        (cast_int (b64 (b64 (motor_angle / 360) * PMC8_AXIS1_SCALE)))
  | PIER_UNKNOWN => Refused
  end.

(** [convert_motor_to_radec]: the pair [(ra_value, dec_value)]. *)
Definition convert_motor_to_radec (racounts deccounts : Z) : Q * Q :=
  let motor_angle := b64 (b64 (24 * inject_Z racounts) / PMC8_AXIS0_SCALE) in
  let hour_angle :=
    if (deccounts <? 0)%Z then b64 (motor_angle + 6)
    else b64 (motor_angle - 6) in
  let ra_value := b64 (lst - hour_angle) in
  let ra_value :=
    if Qleb 24 ra_value then b64 (ra_value - 24)
    else if Qltb ra_value 0 then b64 (ra_value + 24)
    else ra_value in
  let motor_angle :=
    b64 (b64 (360 * inject_Z deccounts) / PMC8_AXIS1_SCALE) in
  let dec_value :=
    if Qleb 0 motor_angle then b64 (90 - motor_angle)
    else b64 (90 + motor_angle) in
  (ra_value, dec_value).

(** [destSideOfPier]; [dec] is unused. *)
Definition destSideOfPier (ra dec : Q) : TelescopePierSide :=
  let hour_angle := hour_angle_of ra in
  if Qltb hour_angle 0 then PIER_WEST else PIER_EAST.


(** The start [slew_pmc8], [sync_pmc8] and [set_pmc8_radec] share: the pier
    side of the target and the two counts, the declination count being
    taken from [dec_arg]; [None] when a conversion returns [false]. *)
Definition target_counts (ra dec dec_arg : Q) : PMC (option (Z * Z)) :=
  let sop := destSideOfPier ra dec in
  match convert_ra_to_motor ra sop with
  | Refused => ret None
  | Undefined => undefined
  | Counts racounts =>
      match convert_dec_to_motor dec_arg sop with
      | Refused => ret None
      | Undefined => undefined
      | Counts deccounts => ret (Some (racounts, deccounts))
      end
  end.

(** [slew_pmc8] *)
Definition slew_pmc8 (ra dec : Q) : PMC bool :=
  c <- target_counts ra dec dec ;;
  match c with
  | None => ret false
  | Some (racounts, deccounts) =>
      rc <- set_pmc8_target_position racounts deccounts ;;
      if negb rc then ret false else
      sim <- gets pmc8_simulation ;;
      (if sim then set_pmc8_sim_system_status lst ST_SLEWING else ret tt) ;;
      ret true
  end.

(** [sync_pmc8] *)
Definition sync_pmc8 (ra dec : Q) : PMC bool :=
  c <- target_counts ra dec dec ;;
  match c with
  | None => ret false
  | Some (racounts, deccounts) =>
      sim <- gets pmc8_simulation ;;
      if sim then ret false else
      rc <- set_pmc8_position racounts deccounts ;;
      if negb rc then ret false else ret true
  end.

(** [set_pmc8_radec]; the source hands [ra] to [convert_dec_to_motor]. *)
Definition set_pmc8_radec (ra dec : Q) : PMC bool :=
  c <- target_counts ra dec ra ;;
  match c with
  | None => ret false
  | Some (racounts, deccounts) =>
      sim <- gets pmc8_simulation ;;
      if sim then ret false else
      rc <- set_pmc8_target_position racounts deccounts ;;
      if negb rc then ret false else ret true
  end.

(** [get_pmc8_coords]; [Some (ra, dec)] when it returns [true]. *)
Definition get_pmc8_coords : PMC (option (Q * Q)) :=
  sim <- gets pmc8_simulation ;;
  c <- (if sim then
          d <- gets simPMC8Data ;;
          target_counts (sim_ra d) (sim_dec d) (sim_dec d)
        else get_pmc8_position) ;;
  match c with
  | None => ret None
  | Some (racounts, deccounts) =>
      ret (Some (convert_motor_to_radec racounts deccounts))
  end.

End Coordinates.

End IEEE.

(** ** PMC-Eight: what a command leaves behind *)

(** Two worlds that differ at most in the port: in what was written and in
    what the line will do. *)
Definition same_mount (w w' : world) : Prop :=
  pmc8_simulation w' = pmc8_simulation w
  /\ simPMC8Data w' = simPMC8Data w
  /\ systemStatus w' = systemStatus w.

(** The world after a frame went out and the reply to it was taken off the
    line. *)
Definition exchanged (cmd : string) (rest : list line_event) (w : world)
  : world :=
  mkWorld (pmc8_simulation w) (simPMC8Data w) (systemStatus w)
          (sent w ++ [cmd]) rest.

(** A command that leaves the port alone in simulation: nothing is written,
    nothing is taken off the line, and the driver stays in simulation. *)
Definition off_the_wire {A : Type} (c : PMC A) : Prop :=
  forall (w : world) (r : A) (w' : world),
    pmc8_simulation w = true -> c w = Some (r, w') ->
    pmc8_simulation w' = true /\ sent w' = sent w /\ line w' = line w.

(** ** Astro-Physics: the firmware version *)

Local Open Scope cmd_scope.
Local Open Scope string_scope.

(** [ControllerVersion] by the numbers of its enumerators: E is 0 and the
    letters follow, K included, up to V, and then [MCV_UNKNOWN]. *)
Definition MCV_E : Z := 0.
Definition MCV_G : Z := 2.
Definition MCV_T : Z := 15.
Definition MCV_V : Z := 17.
Definition MCV_UNKNOWN : Z := 18.

(** [ServoVersion] *)
Inductive ServoVersion := GTOCP1 | GTOCP2 | GTOCP3 | GTOCP4 | GTOCP_UNKNOWN.

(** The two members [getFirmwareVersion] assigns. *)
Record firmware := mkFirmware {
  firmwareVersion : Z;
  servoType : ServoVersion
}.

(** A [char] as an [int], [char] being signed as it is on x86. *)
Definition char_value (c : ascii) : Z :=
  let n := Z.of_N (N_of_ascii c) in
  if (n <? 128)%Z then n else (n - 256)%Z.

(** [strstr(hay, needle)] finds the needle. *)
Fixpoint strstr_found (needle hay : string) : bool :=
  String.prefix needle hay
  || match hay with
     | EmptyString => false
     | String _ hay' => strstr_found needle hay'
     end.

(** [LX200AstroPhysics::getFirmwareVersion], from the version string on,
    which is the simulated one or the one [getAPVersionNumber] read;
    [static_cast<ControllerVersion>(typeIndex)] keeps the number, whether an
    enumerator has it or not. *)
Definition getFirmwareVersion (versionString : string) : M firmware bool :=
  if strstr_found "VCP4" versionString then
    modify (fun _ => mkFirmware MCV_V GTOCP4) ;;
    ret true
  else if (String.length versionString =? 1)%nat
          || (String.length versionString =? 2)%nat then
    let typeIndex :=
      (char_value (c_head versionString) - char_value "E"%char)%Z in
    if (typeIndex >=? 0)%Z then
      modify (fun f => mkFirmware typeIndex (servoType f)) ;;
      fw <- gets firmwareVersion ;;
      (if (fw <? MCV_G)%Z
       then modify (fun f => mkFirmware (firmwareVersion f) GTOCP2)
       else modify (fun f => mkFirmware (firmwareVersion f) GTOCP3)) ;;
      ret true
    else ret false
  else ret false.

(** The version string in simulation. *)
Definition simulated_version : string := "VCP4-P01-01".

Close Scope cmd_scope.
Close Scope string_scope.

(** ** Astro-Physics: more states to run the methods in *)

(** A driver state off simulation in the given state, with the snapshot of
    azimuth and altitude and the mount's coming answers. *)
Definition ap_with (state : TelescopeStatus) (az alt : Q)
           (coming : list answer) : ap_state :=
  mkAP false state 0 0 0 0 0 0 0 0 az alt
       IPS_IDLE IPS_IDLE IPS_IDLE IPS_IDLE
       TRACK_CUSTOM 30 1 false [] coming.

(** * Properties *)

(** ** PMC-Eight: motor counts on the wire *)

Local Open Scope Z_scope.

Lemma hexval_hexdigit d : 0 <= d < 16 -> hexval (hexdigit d) = Some d.
Proof.
  intros H.
  assert (d = 0 \/ d = 1 \/ d = 2 \/ d = 3 \/ d = 4 \/ d = 5 \/ d = 6 \/ d = 7 \/
          d = 8 \/ d = 9 \/ d = 10 \/ d = 11 \/ d = 12 \/ d = 13 \/ d = 14 \/
          d = 15) as D by lia.
  repeat (destruct D as [-> | D]; [reflexivity |]).
  subst d; reflexivity.
Qed.

Lemma length_hexN n v : String.length (hexN n v) = n.
Proof. induction n as [| k IH]; simpl; [reflexivity | now rewrite IH]. Qed.

Lemma str_take_all s : str_take (String.length s) s = s.
Proof. induction s as [| c s IH]; simpl; [reflexivity | now rewrite IH]. Qed.

Lemma strip_zeros_short w s :
  (String.length s <= w)%nat -> strip_zeros w s = s.
Proof.
  intros H. destruct s as [| c s']; [reflexivity |].
  cbn [strip_zeros].
  apply Nat.leb_le in H. rewrite H.
  destruct c as [[] [] [] [] [] [] [] []]; reflexivity.
Qed.

(** Reading back [n] printed digits gives the value modulo [16^n]. *)
Lemma strtol_digits_hexN n : forall acc v,
  strtol_digits acc (hexN n v) = acc * 16 ^ Z.of_nat n + v mod 16 ^ Z.of_nat n.
Proof.
  induction n as [| k IH]; intros acc v.
  - simpl. rewrite Z.mod_1_r. lia.
  - cbn [hexN strtol_digits].
    rewrite hexval_hexdigit by (apply Z.mod_pos_bound; lia).
    rewrite IH.
    replace (Z.of_nat (S k)) with (Z.of_nat k + 1) by lia.
    rewrite Z.pow_add_r by lia. change (16 ^ 1) with 16.
    rewrite (Z.rem_mul_r v (16 ^ Z.of_nat k) 16) by lia.
    ring.
Qed.

Lemma sprintf_0X_8 u : sprintf_0X 8 u = hexN 8 u.
Proof.
  unfold sprintf_0X. apply strip_zeros_short.
  rewrite length_hexN. simpl. lia.
Qed.

(** The field is the six low digits of the two's complement of [val]. *)
Lemma convert_motor_counts_to_hex_digits val :
  - 2 ^ 31 < val < 2 ^ 31 ->
  convert_motor_counts_to_hex val = hexN 6 (val mod 2 ^ 32).
Proof.
  intros H. unfold convert_motor_counts_to_hex.
  rewrite sprintf_0X_8.
  assert ((if val <? 0
           then uincr (unot (to_unsigned (Z.abs val)))
           else to_unsigned val) = val mod 2 ^ 32) as ->.
  { unfold uincr, unot, to_unsigned, UINT_MOD, Z.lnot.
    destruct (Z.ltb_spec val 0) as [Hneg | Hpos]; [| reflexivity].
    rewrite (Z.mod_small (Z.abs val)) by lia.
    rewrite Z.add_mod_idemp_l by lia.
    f_equal. lia. }
  reflexivity.
Qed.

Lemma axispos_of_field_hexN v : axispos_of_field (hexN 6 v) = v mod 2 ^ 24.
Proof.
  unfold axispos_of_field.
  rewrite <- (length_hexN 6 v) at 1. rewrite str_take_all.
  cbn [append strtol0].
  rewrite strtol_digits_hexN. reflexivity.
Qed.

(** Every count but [-2^23] comes back from the wire as it went. *)
Lemma decode_encode_id x :
  - 2 ^ 23 < x <= 2 ^ 23 -> decode_encode x = x.
Proof.
  intros H. unfold decode_encode.
  rewrite convert_motor_counts_to_hex_digits by lia.
  rewrite axispos_of_field_hexN.
  replace ((x mod 2 ^ 32) mod 2 ^ 24) with (x mod 2 ^ 24).
  2:{ change (2 ^ 32) with (2 ^ 24 * 2 ^ 8).
      rewrite Z.rem_mul_r by lia.
      rewrite Z.mul_comm, Z.mod_add by lia.
      now rewrite Z.mod_mod by lia. }
  unfold convert_axispos_to_motor.
  destruct (Z_lt_le_dec x 0) as [Hneg | Hpos].
  - replace (x mod 2 ^ 24) with (x + 2 ^ 24).
    2:{ apply Z.mod_unique with (q := -1); lia. }
    destruct (Z.gtb_spec (x + 2 ^ 24) 8388608); lia.
  - rewrite Z.mod_small by lia.
    destruct (Z.gtb_spec x 8388608); lia.
Qed.

(** On every 24-bit wire value but [0x800000] the driver's reading is the
    two's complement one. *)
Lemma convert_axispos_to_motor_twos_complement wire :
  0 <= wire < 2 ^ 24 -> wire <> 2 ^ 23 ->
  convert_axispos_to_motor wire = decode_twos_complement_24 wire.
Proof.
  intros R N. unfold convert_axispos_to_motor, decode_twos_complement_24.
  destruct (Z.gtb_spec wire 8388608); destruct (Z.leb_spec (2 ^ 23) wire); lia.
Qed.

(** C1. The wire field is the 24-bit two's complement of the count and
    reading it back returns the count, with one exception: for the count
    [-2^23] the driver writes [800000] and reads it back as [+2^23],
    because [convert_axispos_to_motor] tests [axispos > 8388608] where two's
    complement needs [>=]. *)
Theorem motor_count_roundtrip_lowest :
  - 2 ^ 23 <= -8388608 <= 2 ^ 23 - 1
  /\ convert_motor_counts_to_hex (-8388608) = "800000"%string
  /\ axispos_of_field "800000" = 8388608
  /\ decode_encode (-8388608) = 8388608
  /\ decode_twos_complement_24 8388608 = -8388608
  /\ convert_axispos_to_motor 8388608 <> decode_twos_complement_24 8388608.
Proof.
  split; [lia |].
  repeat split; try reflexivity.
  vm_compute. discriminate.
Qed.

(** ** Truncation of rationals *)

Local Open Scope Q_scope.

Lemma Qtrunc_floor q : 0 <= q -> Qtrunc q = Qfloor q.
Proof.
  destruct q as [n d]. unfold Qle, Qtrunc, Qfloor. simpl. intros H.
  apply Z.quot_div_nonneg; lia.
Qed.

Lemma Qtrunc_ceiling q : q <= 0 -> Qtrunc q = Qceiling q.
Proof.
  destruct q as [n d]. unfold Qle, Qtrunc, Qceiling, Qfloor. simpl. intros H.
  rewrite <- (Z.quot_div_nonneg (- n) (Zpos d)) by lia.
  rewrite Z.quot_opp_l by lia. lia.
Qed.

(** The integral part of a nonnegative value lies at most one below it. *)
Lemma Qtrunc_nonneg q :
  0 <= q -> inject_Z (Qtrunc q) <= q /\ q < inject_Z (Qtrunc q) + 1.
Proof.
  intros H. rewrite Qtrunc_floor by exact H. split.
  - apply Qfloor_le.
  - pose proof (Qlt_floor q) as L.
    rewrite inject_Z_plus in L. exact L.
Qed.

(** The integral part of a nonpositive value lies at most one above it. *)
Lemma Qtrunc_nonpos q :
  q <= 0 -> q <= inject_Z (Qtrunc q) /\ inject_Z (Qtrunc q) - 1 < q.
Proof.
  intros H. rewrite Qtrunc_ceiling by exact H. split.
  - apply Qle_ceiling.
  - pose proof (Qceiling_lt q) as L.
    unfold Z.sub in L. rewrite inject_Z_plus in L. exact L.
Qed.

Lemma Qtrunc_comp q q' : q == q' -> Qtrunc q = Qtrunc q'.
Proof.
  intros E. destruct (Qlt_le_dec q 0) as [Hneg | Hpos].
  - rewrite !Qtrunc_ceiling by lra. now apply Qceiling_comp.
  - rewrite !Qtrunc_floor by lra. now apply Qfloor_comp.
Qed.

Lemma Qtrunc_sign q :
  (0 <= q -> (0 <= Qtrunc q)%Z) /\ (q <= 0 -> (Qtrunc q <= 0)%Z).
Proof.
  split; intros H.
  - rewrite Qtrunc_floor by exact H.
    rewrite <- (Qfloor_Z 0). now apply Qfloor_resp_le.
  - rewrite Qtrunc_ceiling by exact H.
    rewrite <- (Qceiling_Z 0). now apply Qceiling_resp_le.
Qed.

(** A value of absolute value below [2^31] casts to [int]. *)
Lemma cast_int_defined q :
  Qabs q < 2147483648 -> cast_int q = Some (Qtrunc q).
Proof.
  intros H. apply Qabs_Qlt_condition in H. destruct H as [Hlo Hhi].
  unfold cast_int.
  assert (in_int (Qtrunc q) = true) as ->; [| reflexivity].
  unfold in_int, INT_MIN, INT_MAX.
  apply andb_true_intro; split; apply Z.leb_le.
  - destruct (Qlt_le_dec q 0) as [Hneg | Hpos].
    + destruct (Qtrunc_nonpos q) as [L _]; [lra |].
      assert (inject_Z (-2147483649) < inject_Z (Qtrunc q)) as L'
          by (change (inject_Z (-2147483649)) with (-2147483649); lra).
      rewrite <- Zlt_Qlt in L'. lia.
    + destruct (Qtrunc_sign q) as [S _]. specialize (S Hpos). lia.
  - destruct (Qlt_le_dec q 0) as [Hneg | Hpos].
    + destruct (Qtrunc_sign q) as [_ S]. assert (q <= 0) as Hq by lra.
      specialize (S Hq). lia.
    + destruct (Qtrunc_nonneg q Hpos) as [L _].
      assert (inject_Z (Qtrunc q) < inject_Z 2147483648) as L'
          by (change (inject_Z 2147483648) with 2147483648; lra).
      rewrite <- Zlt_Qlt in L'. lia.
Qed.

(** ** Comparisons of rationals *)

Local Open Scope Q_scope.

Lemma Qltb_true x y : Qltb x y = true <-> x < y.
Proof.
  unfold Qltb. destruct (Qlt_le_dec x y) as [L | L]; split; intros H;
    try reflexivity; try assumption; try discriminate; lra.
Qed.

Lemma Qltb_false x y : Qltb x y = false <-> y <= x.
Proof.
  unfold Qltb. destruct (Qlt_le_dec x y) as [L | L]; split; intros H;
    try reflexivity; try assumption; try discriminate; lra.
Qed.

Lemma Qleb_true x y : Qleb x y = true <-> x <= y.
Proof.
  unfold Qleb. destruct (Qlt_le_dec y x) as [L | L]; split; intros H;
    try reflexivity; try assumption; try discriminate; lra.
Qed.

Lemma Qleb_false x y : Qleb x y = false <-> y < x.
Proof.
  unfold Qleb. destruct (Qlt_le_dec y x) as [L | L]; split; intros H;
    try reflexivity; try assumption; try discriminate; lra.
Qed.

(** Case analysis on the comparisons of a goal, leaving the order facts
    in the context. *)
Ltac split_cmp :=
  repeat match goal with
         | |- context [Qltb ?x ?y] =>
             let E := fresh "E" in
             destruct (Qltb x y) eqn:E;
             [apply Qltb_true in E | apply Qltb_false in E]
         | |- context [Qleb ?x ?y] =>
             let E := fresh "E" in
             destruct (Qleb x y) eqn:E;
             [apply Qleb_true in E | apply Qleb_false in E]
         end.

(** ** PMC-Eight: motor rates *)

Lemma clamp_rate_bounds limit m :
  (0 <= limit)%Z -> (- limit <= clamp_rate limit m <= limit)%Z.
Proof.
  intros H. unfold clamp_rate.
  destruct (Z.gtb_spec m limit); [lia |].
  destruct (Z.ltb_spec m (- limit)); lia.
Qed.

(** ** Rounding: how far, and which way *)

Local Open Scope Q_scope.

Lemma round_half_even_near x :
  Qabs (inject_Z (round_half_even x) - x) <= 1 # 2.
Proof.
  unfold round_half_even.
  pose proof (Qfloor_le x) as L. pose proof (Qlt_floor x) as U.
  rewrite inject_Z_plus in U. change (inject_Z 1) with 1 in U.
  set (f := Qfloor x) in *.
  apply Qabs_Qle_condition.
  destruct (Qcompare (x - inject_Z f) (1 # 2)) eqn:E.
  - apply Qeq_alt in E.
    destruct (Z.even f); [| rewrite inject_Z_plus; change (inject_Z 1) with 1];
      split; lra.
  - apply Qlt_alt in E. split; lra.
  - apply Qgt_alt in E. rewrite inject_Z_plus. change (inject_Z 1) with 1.
    split; lra.
Qed.

Lemma round_half_even_nonneg x : 0 <= x -> (0 <= round_half_even x)%Z.
Proof.
  intros H. unfold round_half_even.
  assert (0 <= Qfloor x)%Z as F.
  { change 0%Z with (Qfloor 0). apply Qfloor_resp_le. exact H. }
  destruct (Qcompare (x - inject_Z (Qfloor x)) (1 # 2));
    [destruct (Z.even (Qfloor x)) | |]; lia.
Qed.

Lemma round_half_even_nonpos x : x <= 0 -> (round_half_even x <= 0)%Z.
Proof.
  intros H.
  pose proof (round_half_even_near x) as N.
  apply Qabs_Qle_condition in N.
  assert (inject_Z (round_half_even x) < 1) as L by lra.
  change 1 with (inject_Z 1) in L. rewrite <- Zlt_Qlt in L. lia.
Qed.

Lemma pow2_pos e : 0 < 2 ^ e.
Proof. apply Qpower_0_lt. reflexivity. Qed.

Lemma pow2_plus a b : 2 ^ (a + b) == 2 ^ a * 2 ^ b.
Proof. apply Qpower_plus. discriminate. Qed.

Lemma pow2_Z n : (0 <= n)%Z -> 2 ^ n == inject_Z (2 ^ n).
Proof. intros H. rewrite Zpower_Qpower by exact H. reflexivity. Qed.

Lemma Qabs_positive x : ~ x == 0 -> 0 < Qabs x.
Proof.
  intros Nx. destruct (Qlt_le_dec 0 x) as [L | L].
  - rewrite Qabs_pos by lra. exact L.
  - rewrite Qabs_neg by exact L.
    destruct (Qlt_le_dec x 0) as [L' | L']; [lra |].
    exfalso. apply Nx. lra.
Qed.

(** [binade x] is not above the size of [x]. *)
Lemma binade_le x : 0 < x -> 2 ^ binade x <= x.
Proof.
  intros Hx. unfold binade.
  set (e := (Z.log2 (Qnum x) - Z.log2 (Zpos (Qden x)))%Z).
  destruct (Qle_bool (2 ^ e) x) eqn:E; [apply Qle_bool_iff; exact E |].
  clear E. destruct x as [a b]. cbn [Qnum Qden] in e.
  assert (0 < a)%Z as Ha.
  { unfold Qlt in Hx. cbn in Hx. lia. }
  pose proof (Z.log2_spec a Ha) as [La _].
  pose proof (Z.log2_spec (Zpos b) (Pos2Z.is_pos b)) as [_ Ub].
  pose proof (Z.log2_nonneg a) as Na.
  pose proof (Z.log2_nonneg (Zpos b)) as Nb.
  set (la := Z.log2 a) in *. set (lb := Z.log2 (Zpos b)) in *.
  replace (e - 1)%Z with (la + - (lb + 1))%Z by (unfold e; lia).
  rewrite pow2_plus, Qpower_opp, !pow2_Z by lia.
  rewrite (Qmake_Qdiv a b).
  assert (0 < inject_Z (2 ^ (Z.succ lb))) as PB.
  { change 0 with (inject_Z 0). rewrite <- Zlt_Qlt. lia. }
  assert (0 < inject_Z (Zpos b)) as Pb.
  { change 0 with (inject_Z 0). rewrite <- Zlt_Qlt. lia. }
  replace (lb + 1)%Z with (Z.succ lb) by lia.
  apply Qle_shift_div_l; [exact Pb |].
  assert (inject_Z (2 ^ la) * / inject_Z (2 ^ Z.succ lb) * inject_Z (Zpos b)
          == inject_Z (2 ^ la) * inject_Z (Zpos b) / inject_Z (2 ^ Z.succ lb))
    as -> by (field; intros Z0; rewrite Z0 in PB; inversion PB).
  apply Qle_shift_div_r; [exact PB |].
  rewrite <- !inject_Z_mult, <- Zle_Qle.
  nia.
Qed.

(** And [x] is below the next power of two. *)
Lemma binade_lt x : 0 < x -> x < 2 ^ (binade x + 1).
Proof.
  intros Hx. unfold binade.
  set (e := (Z.log2 (Qnum x) - Z.log2 (Zpos (Qden x)))%Z).
  destruct (Qle_bool (2 ^ e) x) eqn:E.
  - clear E. destruct x as [a b]. cbn [Qnum Qden] in e.
    assert (0 < a)%Z as Ha.
    { unfold Qlt in Hx. cbn in Hx. lia. }
    pose proof (Z.log2_spec a Ha) as [_ Ua].
    pose proof (Z.log2_spec (Zpos b) (Pos2Z.is_pos b)) as [Lb _].
    pose proof (Z.log2_nonneg a) as Na.
    pose proof (Z.log2_nonneg (Zpos b)) as Nb.
    set (la := Z.log2 a) in *. set (lb := Z.log2 (Zpos b)) in *.
    replace (e + 1)%Z with (Z.succ la + - lb)%Z by (unfold e; lia).
    rewrite pow2_plus, Qpower_opp, !pow2_Z by lia.
    rewrite (Qmake_Qdiv a b).
    assert (0 < inject_Z (2 ^ lb)) as PB.
    { change 0 with (inject_Z 0). rewrite <- Zlt_Qlt. lia. }
    assert (0 < inject_Z (Zpos b)) as Pb.
    { change 0 with (inject_Z 0). rewrite <- Zlt_Qlt. lia. }
    apply Qlt_shift_div_r; [exact Pb |].
    assert (inject_Z (2 ^ Z.succ la) * / inject_Z (2 ^ lb) * inject_Z (Zpos b)
            == inject_Z (2 ^ Z.succ la) * inject_Z (Zpos b) / inject_Z (2 ^ lb))
      as -> by (field; intros Z0; rewrite Z0 in PB; inversion PB).
    apply Qlt_shift_div_l; [exact PB |].
    rewrite <- !inject_Z_mult, <- Zlt_Qlt.
    nia.
  - replace (e - 1 + 1)%Z with e by lia.
    destruct (Qlt_le_dec x (2 ^ e)) as [L | L]; [exact L |].
    apply Qle_bool_iff in L. congruence.
Qed.

(** Rounding moves a value by half a unit of its last place at most. *)
Lemma round_to_near prec emin x :
  Qabs (round_to prec emin x - x)
  <= Qabs x * 2 ^ (- prec) + 2 ^ (emin - 1).
Proof.
  unfold round_to.
  pose proof (pow2_pos (- prec)) as P1. pose proof (pow2_pos (emin - 1)) as P2.
  destruct (Qeq_bool x 0) eqn:E0.
  - apply Qeq_bool_iff in E0.
    assert (0 - x == 0) as -> by lra.
    change (Qabs 0) with 0.
    pose proof (Qabs_nonneg x). nra.
  - assert (~ x == 0) as Nx.
    { intros C. apply Qeq_bool_iff in C. congruence. }
    pose proof (Qabs_positive x Nx) as Px.
    pose proof (binade_le (Qabs x) Px) as B.
    set (e := binade (Qabs x)) in *.
    set (q := Z.max (e - prec + 1) emin).
    pose proof (pow2_pos q) as Pq.
    pose proof (round_half_even_near (x / 2 ^ q)) as N.
    set (n := inject_Z (round_half_even (x / 2 ^ q))) in *.
    assert (2 ^ q <= Qabs x * 2 ^ (- prec) * 2 + 2 ^ (emin - 1) * 2) as Hq.
    { unfold q. destruct (Z.max_spec (e - prec + 1) emin) as [[_ ->] | [_ ->]].
      - replace emin with ((emin - 1) + 1)%Z at 1 by lia.
        rewrite pow2_plus. change (2 ^ 1) with 2.
        pose proof (Qabs_nonneg x). nra.
      - replace (e - prec + 1)%Z with (e + (- prec + 1))%Z by lia.
        rewrite !pow2_plus. change (2 ^ 1) with 2.
        pose proof (pow2_pos e). nra. }
    assert (n * 2 ^ q - x == (n - x / 2 ^ q) * 2 ^ q) as ->
        by (field; lra).
    rewrite Qabs_Qmult. rewrite (Qabs_pos (2 ^ q)) by lra.
    pose proof (Qabs_nonneg (n - x / 2 ^ q)). nra.
Qed.

Lemma round_to_sign prec emin x :
  (0 <= x -> 0 <= round_to prec emin x)
  /\ (x <= 0 -> round_to prec emin x <= 0).
Proof.
  unfold round_to. destruct (Qeq_bool x 0); [split; intros; lra |].
  set (q := Z.max (binade (Qabs x) - prec + 1) emin).
  pose proof (pow2_pos q) as Pq.
  split; intros H.
  - assert (0 <= x / 2 ^ q) as D.
    { apply Qle_shift_div_l; [exact Pq | lra]. }
    pose proof (round_half_even_nonneg _ D) as N.
    rewrite Zle_Qle in N. change (inject_Z 0) with 0 in N. nra.
  - assert (x / 2 ^ q <= 0) as D.
    { apply Qle_shift_div_r; [exact Pq | lra]. }
    pose proof (round_half_even_nonpos _ D) as N.
    rewrite Zle_Qle in N. change (inject_Z 0) with 0 in N. nra.
Qed.


Lemma b64_near x :
  Qabs (b64 x - x)
  <= Qabs x * (1 # 9007199254740992)
     + (1 # 10000000000000000000000000000000000000000).
Proof.
  pose proof (round_to_near 53 (-1074) x) as N. fold b64 in N.
  assert (2 ^ (- (53)) == 1 # 9007199254740992) as E1 by reflexivity.
  assert (2 ^ (-1074 - 1) <= 1 # 10000000000000000000000000000000000000000)
    as E2 by (vm_compute; discriminate).
  rewrite E1 in N. lra.
Qed.





(** A double of size [B] at most lies within [B/10^15] of the value it
    rounds. *)
Lemma b64_within x B :
  1 <= B -> - B <= x <= B ->
  x - B * (1 # 1000000000000000) <= b64 x <= x + B * (1 # 1000000000000000).
Proof.
  intros HB Hx. pose proof (b64_near x) as N.
  assert (Qabs x <= B) as A by (apply Qabs_Qle_condition; lra).
  apply Qabs_Qle_condition in N. lra.
Qed.

(** ** Rounding does not cross an integer the format holds *)

Lemma round_half_even_le m (K : Z) :
  m <= inject_Z K -> (round_half_even m <= K)%Z.
Proof.
  intros H. pose proof (round_half_even_near m) as N.
  apply Qabs_Qle_condition in N.
  assert (inject_Z (round_half_even m) < inject_Z (K + 1)) as L.
  { rewrite inject_Z_plus. change (inject_Z 1) with 1. lra. }
  rewrite <- Zlt_Qlt in L. lia.
Qed.

Lemma round_half_even_ge m (K : Z) :
  inject_Z K <= m -> (K <= round_half_even m)%Z.
Proof.
  intros H. pose proof (round_half_even_near m) as N.
  apply Qabs_Qle_condition in N.
  assert (inject_Z (K - 1) < inject_Z (round_half_even m)) as L.
  { unfold Z.sub. rewrite inject_Z_plus, inject_Z_opp.
    change (inject_Z 1) with 1. lra. }
  rewrite <- Zlt_Qlt in L. lia.
Qed.

Lemma pow2_le a b : (a <= b)%Z -> 2 ^ a <= 2 ^ b.
Proof. intros H. apply Qpower_le_compat_l; [exact H | discriminate]. Qed.

Lemma pow2_cancel q : 2 ^ (- q) * 2 ^ q == 1.
Proof. rewrite <- pow2_plus. replace (- q + q)%Z with 0%Z by lia. reflexivity. Qed.

Lemma round_to_le_int prec emin x (c : Z) :
  (0 < prec)%Z -> (emin <= 0)%Z -> (Z.abs c < 2 ^ prec)%Z ->
  x <= inject_Z c -> round_to prec emin x <= inject_Z c.
Proof.
  intros Hp He Hc Hx. unfold round_to.
  destruct (Qeq_bool x 0) eqn:E0.
  { apply Qeq_bool_iff in E0. lra. }
  assert (~ x == 0) as Nx.
  { intros C. apply Qeq_bool_iff in C. congruence. }
  pose proof (binade_le (Qabs x) (Qabs_positive x Nx)) as B.
  set (e := binade (Qabs x)) in *.
  set (q := Z.max (e - prec + 1) emin).
  pose proof (pow2_pos q) as Pq.
  destruct (Z_le_gt_dec q 0) as [Q0 | Q0].
  - assert (inject_Z c == inject_Z (c * 2 ^ (- q)) * 2 ^ q) as Ec.
    { rewrite inject_Z_mult, <- pow2_Z by lia.
      rewrite <- Qmult_assoc, pow2_cancel. ring. }
    assert (x / 2 ^ q <= inject_Z (c * 2 ^ (- q))) as D.
    { apply Qle_shift_div_r; [exact Pq |]. rewrite <- Ec. exact Hx. }
    apply round_half_even_le in D. rewrite Zle_Qle in D.
    rewrite Ec. nra.
  - assert (q = e - prec + 1)%Z as Eq by (unfold q in *; lia).
    assert (prec <= e)%Z as Pe by lia.
    pose proof (pow2_le prec e Pe) as L1.
    assert (inject_Z (Z.abs c) < 2 ^ prec) as L2.
    { rewrite pow2_Z by lia. rewrite <- Zlt_Qlt. exact Hc. }
    assert (- inject_Z (Z.abs c) <= inject_Z c <= inject_Z (Z.abs c)) as L3.
    { rewrite <- inject_Z_opp. rewrite <- !Zle_Qle. lia. }
    assert (x < 0) as Neg.
    { destruct (Qlt_le_dec x 0) as [L | L]; [exact L |].
      rewrite Qabs_pos in B by exact L. lra. }
    rewrite Qabs_neg in B by lra.
    assert (2 ^ e == inject_Z (2 ^ (prec - 1)) * 2 ^ q) as Ee.
    { rewrite <- pow2_Z by lia. rewrite <- pow2_plus.
      replace (prec - 1 + q)%Z with e by lia. reflexivity. }
    assert (x / 2 ^ q <= inject_Z (- 2 ^ (prec - 1))) as D.
    { apply Qle_shift_div_r; [exact Pq |].
      rewrite inject_Z_opp. lra. }
    apply round_half_even_le in D. rewrite Zle_Qle in D.
    rewrite inject_Z_opp in D. nra.
Qed.

Lemma round_to_ge_int prec emin x (c : Z) :
  (0 < prec)%Z -> (emin <= 0)%Z -> (Z.abs c < 2 ^ prec)%Z ->
  inject_Z c <= x -> inject_Z c <= round_to prec emin x.
Proof.
  intros Hp He Hc Hx. unfold round_to.
  destruct (Qeq_bool x 0) eqn:E0.
  { apply Qeq_bool_iff in E0. lra. }
  assert (~ x == 0) as Nx.
  { intros C. apply Qeq_bool_iff in C. congruence. }
  pose proof (binade_le (Qabs x) (Qabs_positive x Nx)) as B.
  set (e := binade (Qabs x)) in *.
  set (q := Z.max (e - prec + 1) emin).
  pose proof (pow2_pos q) as Pq.
  destruct (Z_le_gt_dec q 0) as [Q0 | Q0].
  - assert (inject_Z c == inject_Z (c * 2 ^ (- q)) * 2 ^ q) as Ec.
    { rewrite inject_Z_mult, <- pow2_Z by lia.
      rewrite <- Qmult_assoc, pow2_cancel. ring. }
    assert (inject_Z (c * 2 ^ (- q)) <= x / 2 ^ q) as D.
    { apply Qle_shift_div_l; [exact Pq |]. rewrite <- Ec. exact Hx. }
    apply round_half_even_ge in D. rewrite Zle_Qle in D.
    rewrite Ec. nra.
  - assert (q = e - prec + 1)%Z as Eq by (unfold q in *; lia).
    assert (prec <= e)%Z as Pe by lia.
    pose proof (pow2_le prec e Pe) as L1.
    assert (inject_Z (Z.abs c) < 2 ^ prec) as L2.
    { rewrite pow2_Z by lia. rewrite <- Zlt_Qlt. exact Hc. }
    assert (- inject_Z (Z.abs c) <= inject_Z c <= inject_Z (Z.abs c)) as L3.
    { rewrite <- inject_Z_opp. rewrite <- !Zle_Qle. lia. }
    assert (0 < x) as Pos.
    { destruct (Qlt_le_dec 0 x) as [L | L]; [exact L |].
      rewrite Qabs_neg in B by exact L. lra. }
    rewrite Qabs_pos in B by lra.
    assert (2 ^ e == inject_Z (2 ^ (prec - 1)) * 2 ^ q) as Ee.
    { rewrite <- pow2_Z by lia. rewrite <- pow2_plus.
      replace (prec - 1 + q)%Z with e by lia. reflexivity. }
    assert (inject_Z (2 ^ (prec - 1)) <= x / 2 ^ q) as D.
    { apply Qle_shift_div_l; [exact Pq |]. lra. }
    apply round_half_even_ge in D. rewrite Zle_Qle in D.
    nra.
Qed.

(** For doubles and the integers below 2^53. *)
Lemma b64_le_int x (c : Z) :
  (Z.abs c < 9007199254740992)%Z -> x <= inject_Z c -> b64 x <= inject_Z c.
Proof. intros H. apply round_to_le_int; [reflexivity | discriminate | exact H]. Qed.

Lemma b64_ge_int x (c : Z) :
  (Z.abs c < 9007199254740992)%Z -> inject_Z c <= x -> inject_Z c <= b64 x.
Proof. intros H. apply round_to_ge_int; [reflexivity | discriminate | exact H]. Qed.

(** An integer below 2^53 is a double. *)
Lemma b64_of_int (c : Z) :
  (Z.abs c < 9007199254740992)%Z -> b64 (inject_Z c) == inject_Z c.
Proof.
  intros H.
  pose proof (b64_le_int (inject_Z c) c H (Qle_refl _)).
  pose proof (b64_ge_int (inject_Z c) c H (Qle_refl _)).
  lra.
Qed.

(** ** PMC-Eight: motor rates as the machine computes them *)

Local Open Scope Q_scope.







(** ** PMC-Eight: destination side of pier *)

Section HourAngle.

Variable lst : Q.
Hypothesis lst_range : 0 <= lst < 24.

(** With both times of day in [0, 24), one turn brings the hour angle
    into (-12, 12]. *)
Lemma hour_angle_of_range ra :
  0 <= ra < 24 ->
  -12 < hour_angle_of lst ra <= 12
  /\ (hour_angle_of lst ra == lst - ra
      \/ hour_angle_of lst ra == lst - ra - 24
      \/ hour_angle_of lst ra == lst - ra + 24).
Proof.
  intros Hra. unfold hour_angle_of. split_cmp.
  - split; [lra | right; left; reflexivity].
  - split; [lra | right; right; reflexivity].
  - split; [lra | left; reflexivity].
Qed.

(** C8. [destSideOfPier] takes the hour angle LST - RA into (-12, 12] and
    answers WEST when it is negative and EAST otherwise: never UNKNOWN,
    and EAST when the hour angle is exactly 0. *)
Theorem destSideOfPier_by_hour_angle (ra dec : Q) :
  0 <= ra < 24 ->
  let hour_angle := hour_angle_of lst ra in
  -12 < hour_angle <= 12
  /\ (hour_angle == lst - ra \/ hour_angle == lst - ra - 24
      \/ hour_angle == lst - ra + 24)
  /\ (hour_angle < 0 -> destSideOfPier lst ra dec = PIER_WEST)
  /\ (0 <= hour_angle -> destSideOfPier lst ra dec = PIER_EAST)
  /\ (destSideOfPier lst ra dec = PIER_EAST
      \/ destSideOfPier lst ra dec = PIER_WEST)
  /\ destSideOfPier lst ra dec <> PIER_UNKNOWN
  /\ (hour_angle == 0 -> destSideOfPier lst ra dec = PIER_EAST).
Proof.
  intros Hra hour_angle.
  destruct (hour_angle_of_range ra Hra) as [R K].
  fold hour_angle in R, K.
  unfold destSideOfPier. fold hour_angle.
  destruct (Qltb hour_angle 0) eqn:E;
    [apply Qltb_true in E | apply Qltb_false in E].
  - split; [exact R |]. split; [exact K |].
    split; [reflexivity |].
    split; [intros P; lra |].
    split; [right; reflexivity |].
    split; [discriminate |].
    intros Z. rewrite Z in E. lra.
  - split; [exact R |]. split; [exact K |].
    split; [intros N; lra |].
    split; [reflexivity |].
    split; [left; reflexivity |].
    split; [discriminate | reflexivity].
Qed.

End HourAngle.

Lemma destSideOfPier_by_hour_angle_witness :
  0 <= 10 < 24 /\ 0 <= 10 < 24
  /\ destSideOfPier 10 10 0 = PIER_EAST
  /\ destSideOfPier 10 10 0 <> PIER_UNKNOWN.
Proof.
  assert (0 <= 10 < 24) as R by (split; [discriminate | reflexivity]).
  split; [exact R |]. split; [exact R |].
  pose proof (destSideOfPier_by_hour_angle 10 R 10 0 R) as H.
  cbv zeta in H.
  destruct H as (_ & _ & _ & HE & _ & HU & _).
  split; [apply HE; discriminate | exact HU].
Defined.

(** ** PMC-Eight: motor counts out and back *)

Lemma cast_int_bounds v :
  Qabs v < 2147483648 ->
  exists c, cast_int v = Some c
    /\ (0 <= v -> inject_Z c <= v /\ v < inject_Z c + 1)
    /\ (v <= 0 -> v <= inject_Z c /\ inject_Z c - 1 < v).
Proof.
  intros H. exists (Qtrunc v). split; [now apply cast_int_defined |].
  split; intros S; [now apply Qtrunc_nonneg | now apply Qtrunc_nonpos].
Qed.

(** ** PMC-Eight: coordinates and counts as the machine computes them *)

Local Open Scope Q_scope.

(** Names the double [b64 t], of size [B] at most, and records how near it
    is to [t]. *)
Tactic Notation "rounded" constr(t) "within" constr(B)
       "as" ident(v) ident(N) :=
  assert (t - B * (1 # 1000000000000000) <= b64 t
          <= t + B * (1 # 1000000000000000)) as N
      by (apply b64_within; [lra | split; lra]);
  set (v := b64 t) in *.

Lemma b64_sign x : (0 <= x -> 0 <= b64 x) /\ (x <= 0 -> b64 x <= 0).
Proof. exact (round_to_sign 53 (-1074) x). Qed.

Lemma Z_of_Q_bounds (lo hi : Z) (c : Z) :
  inject_Z lo - 1 < inject_Z c -> inject_Z c < inject_Z hi + 1 ->
  (lo <= c <= hi)%Z.
Proof.
  intros L H.
  assert (inject_Z (lo - 1) < inject_Z c) as L'.
  { unfold Z.sub. rewrite inject_Z_plus. exact L. }
  assert (inject_Z c < inject_Z (hi + 1)) as H'.
  { rewrite inject_Z_plus. exact H. }
  rewrite <- Zlt_Qlt in L', H'. lia.
Qed.

(** An integer between two rationals, for bounds that are numerals. *)
Ltac count_bounds lo hi :=
  apply (Z_of_Q_bounds lo hi);
  [change (inject_Z lo) with (Qmake lo 1)
  | change (inject_Z hi) with (Qmake hi 1)]; lra.

Section MachineCoordinates.

Variable lst : Q.
Hypothesis lst_range : 0 <= lst < 24.

(** The hour angle the machine computes is the exact one, a turn added or
    taken off, up to rounding. *)
Lemma machine_hour_angle ra :
  0 <= ra < 24 ->
  exists k,
    (k == -1 \/ k == 0 \/ k == 1)
    /\ Qabs (IEEE.hour_angle_of lst ra - (lst - ra + 24 * k))
       <= 1 # 10000000000000
    /\ - 12 - (1 # 10000000000000) <= IEEE.hour_angle_of lst ra
       <= 12 + (1 # 10000000000000).
Proof.
  intros Hra. unfold IEEE.hour_angle_of. cbv zeta.
  rounded (lst - ra) within 24 as h0 R0.
  destruct (Qltb 12 h0) eqn:E1.
  - apply Qltb_true in E1.
    rounded (h0 - 24) within 24 as h1 R1.
    exists (-1). split; [left; reflexivity |].
    split; [apply Qabs_Qle_condition |]; split; lra.
  - apply Qltb_false in E1.
    destruct (Qleb h0 (-12)) eqn:E2.
    + apply Qleb_true in E2.
      rounded (h0 + 24) within 24 as h1 R1.
      exists 1. split; [right; right; reflexivity |].
      split; [apply Qabs_Qle_condition |]; split; lra.
    + apply Qleb_false in E2.
      exists 0. split; [right; left; reflexivity |].
      split; [apply Qabs_Qle_condition |]; split; lra.
Qed.

(** The RA count of a target: within a count of the exact one, and within
    3456000 of zero. *)
Lemma machine_ra_counts ra sop :
  0 <= ra < 24 -> sop <> PIER_UNKNOWN ->
  exists c k,
    IEEE.convert_ra_to_motor lst ra sop = Counts c
    /\ (k == -1 \/ k == 0 \/ k == 1)
    /\ (-3456000 <= c <= 3456000)%Z
    /\ Qabs (inject_Z c
             - (lst - ra + 24 * k
                + match sop with PIER_EAST => -6 | _ => 6 end) * 192000)
       <= 1 + (1 # 1000000).
Proof.
  intros Hra Hsop.
  destruct (machine_hour_angle ra Hra) as (k & Hk & Hh & Hr).
  apply Qabs_Qle_condition in Hh.
  unfold IEEE.convert_ra_to_motor, PMC8_AXIS0_SCALE. cbv zeta.
  set (h := IEEE.hour_angle_of lst ra) in *.
  destruct sop; [contradiction | |].
  - rounded (h + 6) within 32 as m Rm.
    rounded (m * 4608000) within 100000000 as p Rp.
    set (t := p / 24) in *.
    assert (t == p * (1 # 24)) as Et by (unfold t; field).
    clearbody t.
    rounded t within 4000000 as q Rq.
    assert (Qabs q < 2147483648) as A by (apply Qabs_Qlt_condition; lra).
    destruct (cast_int_bounds q A) as (c & -> & Cp & Cn).
    exists c, k. split; [reflexivity |]. split; [exact Hk |].
    destruct (Qlt_le_dec q 0) as [Sq | Sq].
    + destruct Cn as [C1 C2]; [lra |].
      split; [count_bounds (-3456000)%Z 3456000%Z |].
      apply Qabs_Qle_condition. split; lra.
    + destruct (Cp Sq) as [C1 C2].
      split; [count_bounds (-3456000)%Z 3456000%Z |].
      apply Qabs_Qle_condition. split; lra.
  - rounded (h - 6) within 32 as m Rm.
    rounded (m * 4608000) within 100000000 as p Rp.
    set (t := p / 24) in *.
    assert (t == p * (1 # 24)) as Et by (unfold t; field).
    clearbody t.
    rounded t within 4000000 as q Rq.
    assert (Qabs q < 2147483648) as A by (apply Qabs_Qlt_condition; lra).
    destruct (cast_int_bounds q A) as (c & -> & Cp & Cn).
    exists c, k. split; [reflexivity |]. split; [exact Hk |].
    destruct (Qlt_le_dec q 0) as [Sq | Sq].
    + destruct Cn as [C1 C2]; [lra |].
      split; [count_bounds (-3456000)%Z 3456000%Z |].
      apply Qabs_Qle_condition. split; lra.
    + destruct (Cp Sq) as [C1 C2].
      split; [count_bounds (-3456000)%Z 3456000%Z |].
      apply Qabs_Qle_condition. split; lra.
Qed.

(** The Dec count of a target: not above zero east of the pier and not
    below it west, the integral part of a value within 1e-6 of the exact
    count. *)
Lemma machine_dec_counts dec sop :
  -90 <= dec <= 90 -> sop <> PIER_UNKNOWN ->
  exists d,
    IEEE.convert_dec_to_motor dec sop = Counts d
    /\ (-2304000 <= d <= 2304000)%Z
    /\ (sop = PIER_EAST ->
        (d <= 0)%Z
        /\ (dec - 90) * 12800 - (1 # 1000000) <= inject_Z d
           < (dec - 90) * 12800 + 1 + (1 # 1000000))
    /\ (sop = PIER_WEST ->
        (0 <= d)%Z
        /\ (90 - dec) * 12800 - 1 - (1 # 1000000) < inject_Z d
           <= (90 - dec) * 12800 + (1 # 1000000)).
Proof.
  intros Hdec Hsop.
  unfold IEEE.convert_dec_to_motor, PMC8_AXIS1_SCALE. cbv zeta.
  assert (dec - 90 <= 0) as S0 by lra.
  destruct (b64_sign (dec - 90)) as [_ Sg]. specialize (Sg S0).
  rounded (dec - 90) within 256 as g Rg.
  destruct sop; [contradiction | |].
  - set (t := - g / 360) in *.
    assert (t == - g * (1 # 360)) as Et by (unfold t; field).
    clearbody t.
    assert (0 <= t) as S1 by lra.
    destruct (b64_sign t) as [Su _]. specialize (Su S1).
    rounded t within 1 as u Ru.
    assert (0 <= u * 4608000) as S2 by lra.
    destruct (b64_sign (u * 4608000)) as [Sv _]. specialize (Sv S2).
    rounded (u * 4608000) within 4000000 as v Rv.
    assert (Qabs v < 2147483648) as A by (apply Qabs_Qlt_condition; lra).
    destruct (cast_int_bounds v A) as (d & -> & Cp & _).
    destruct (Cp Sv) as [C1 C2].
    exists d. split; [reflexivity |].
    split; [count_bounds (-2304000)%Z 2304000%Z |].
    split; [discriminate |]. intros _.
    split; [| split; lra].
    assert (inject_Z (-1) < inject_Z d) as P
        by (change (inject_Z (-1)) with (-1); lra).
    rewrite <- Zlt_Qlt in P. lia.
  - set (t := g / 360) in *.
    assert (t == g * (1 # 360)) as Et by (unfold t; field).
    clearbody t.
    assert (t <= 0) as S1 by lra.
    destruct (b64_sign t) as [_ Su]. specialize (Su S1).
    rounded t within 1 as u Ru.
    assert (u * 4608000 <= 0) as S2 by lra.
    destruct (b64_sign (u * 4608000)) as [_ Sv]. specialize (Sv S2).
    rounded (u * 4608000) within 4000000 as v Rv.
    assert (Qabs v < 2147483648) as A by (apply Qabs_Qlt_condition; lra).
    destruct (cast_int_bounds v A) as (d & -> & _ & Cn).
    destruct (Cn Sv) as [C1 C2].
    exists d. split; [reflexivity |].
    split; [count_bounds (-2304000)%Z 2304000%Z |].
    split; [| discriminate]. intros _.
    split; [| split; lra].
    assert (inject_Z d < inject_Z 1) as P
        by (change (inject_Z 1) with 1; lra).
    rewrite <- Zlt_Qlt in P. lia.
Qed.

(** Counts read back: the right ascension is the sidereal time less the
    hour angle of the counts, a turn added or taken off, and the declination
    is 90 degrees less the size of the Dec count, both up to rounding. *)
Lemma machine_radec_back c d :
  (-3456000 <= c <= 3456000)%Z -> (-2304000 <= d <= 2304000)%Z ->
  exists k,
    (k == -1 \/ k == 0 \/ k == 1)
    /\ Qabs (fst (IEEE.convert_motor_to_radec lst c d)
             - (lst - (inject_Z c * (1 # 192000)
                       + (if (d <? 0)%Z then 6 else -6)) + 24 * k))
       <= 1 # 100000000000
    /\ - (1 # 100000000000) <= fst (IEEE.convert_motor_to_radec lst c d)
       <= 24 + (1 # 100000000000)
    /\ Qabs (snd (IEEE.convert_motor_to_radec lst c d)
             - (90 - inject_Z (Z.abs d) * (1 # 12800)))
       <= 1 # 100000000000
    /\ (d = 0%Z -> snd (IEEE.convert_motor_to_radec lst c d) == 90).
Proof.
  intros Hc Hd.
  assert (-3456000 <= inject_Z c <= 3456000) as Qc.
  { destruct Hc as [L H]. rewrite Zle_Qle in L, H. exact (conj L H). }
  assert (-2304000 <= inject_Z d <= 2304000) as Qd.
  { destruct Hd as [L H]. rewrite Zle_Qle in L, H. exact (conj L H). }
  assert (exists y,
             snd (IEEE.convert_motor_to_radec lst c d) = y
             /\ Qabs (y - (90 - inject_Z (Z.abs d) * (1 # 12800)))
                <= 1 # 100000000000) as (y & Ey & Hy).
  { unfold IEEE.convert_motor_to_radec, PMC8_AXIS1_SCALE. cbv zeta.
    cbn [snd].
    destruct (Z.ltb_spec d 0) as [Neg | Pos].
    - assert (inject_Z d <= -1) as D1.
      { change (-1) with (inject_Z (-1)). rewrite <- Zle_Qle. lia. }
      rounded (360 * inject_Z d) within 1000000000 as s0 R0.
      set (t := s0 / 4608000) in *.
      assert (t == s0 * (1 # 4608000)) as Et by (unfold t; field).
      clearbody t.
      rounded t within 256 as s Rs.
      assert (Qleb 0 s = false) as -> by (apply Qleb_false; lra).
      rounded (90 + s) within 512 as y Ry.
      exists y. split; [reflexivity |].
      rewrite Z.abs_neq by lia. rewrite inject_Z_opp.
      apply Qabs_Qle_condition. split; lra.
    - assert (0 <= inject_Z d) as D1.
      { change 0 with (inject_Z 0). rewrite <- Zle_Qle. exact Pos. }
      assert (0 <= 360 * inject_Z d) as P0 by lra.
      destruct (b64_sign (360 * inject_Z d)) as [S0 _]. specialize (S0 P0).
      rounded (360 * inject_Z d) within 1000000000 as s0 R0.
      set (t := s0 / 4608000) in *.
      assert (t == s0 * (1 # 4608000)) as Et by (unfold t; field).
      clearbody t.
      assert (0 <= t) as P1 by lra.
      destruct (b64_sign t) as [S1 _]. specialize (S1 P1).
      rounded t within 256 as s Rs.
      assert (Qleb 0 s = true) as -> by (apply Qleb_true; exact S1).
      rounded (90 - s) within 512 as y Ry.
      exists y. split; [reflexivity |].
      rewrite Z.abs_eq by lia.
      apply Qabs_Qle_condition. split; lra. }
  assert (exists k r,
             fst (IEEE.convert_motor_to_radec lst c d) = r
             /\ (k == -1 \/ k == 0 \/ k == 1)
             /\ Qabs (r - (lst - (inject_Z c * (1 # 192000)
                                  + (if (d <? 0)%Z then 6 else -6))
                           + 24 * k))
                <= 1 # 100000000000
             /\ - (1 # 100000000000) <= r <= 24 + (1 # 100000000000))
    as (k & r & Er & Hk & Hr & Rr).
  { unfold IEEE.convert_motor_to_radec, PMC8_AXIS0_SCALE. cbv zeta.
    cbn [fst].
    rounded (24 * inject_Z c) within 100000000 as a0 R0.
    set (t := a0 / 4608000) in *.
    assert (t == a0 * (1 # 4608000)) as Et by (unfold t; field).
    clearbody t.
    rounded t within 32 as a Ra.
    set (six := if (d <? 0)%Z then 6 else -6).
    assert (exists h,
               (if (d <? 0)%Z then b64 (a + 6) else b64 (a - 6)) = h
               /\ a + six - (1 # 10000000000000) <= h
                  <= a + six + (1 # 10000000000000)) as (h & -> & Rh).
    { unfold six. destruct (d <? 0)%Z.
      - rounded (a + 6) within 32 as h Rh. exists h.
        split; [reflexivity | lra].
      - rounded (a - 6) within 32 as h Rh. exists h.
        split; [reflexivity | lra]. }
    assert (-6 <= six <= 6) as S6 by (unfold six; destruct (d <? 0)%Z; lra).
    clearbody six.
    rounded (lst - h) within 64 as r0 Rr0.
    destruct (Qleb 24 r0) eqn:E1.
    - apply Qleb_true in E1.
      rounded (r0 - 24) within 64 as r Rr.
      exists (-1), r. split; [reflexivity |].
      split; [left; reflexivity |].
      split; [apply Qabs_Qle_condition |]; split; lra.
    - apply Qleb_false in E1.
      destruct (Qltb r0 0) eqn:E2.
      + apply Qltb_true in E2.
        rounded (r0 + 24) within 64 as r Rr.
        exists 1, r. split; [reflexivity |].
        split; [right; right; reflexivity |].
        split; [apply Qabs_Qle_condition |]; split; lra.
      + apply Qltb_false in E2.
        exists 0, r0. split; [reflexivity |].
        split; [right; left; reflexivity |].
        split; [apply Qabs_Qle_condition |]; split; lra. }
  exists k. rewrite Er, Ey.
  split; [exact Hk |]. split; [exact Hr |]. split; [exact Rr |].
  split; [exact Hy |].
  intros ->. rewrite <- Ey. vm_compute. reflexivity.
Qed.




End MachineCoordinates.


(** ** PMC-Eight: jogging with an unknown speed index *)

Local Open Scope Z_scope.

Lemma convert_movespeedindex_to_rate_other mode :
  mode < 0 \/ 3 < mode -> convert_movespeedindex_to_rate mode = 0.
Proof.
  intros H. unfold convert_movespeedindex_to_rate.
  destruct mode as [| p | p]; [lia | | reflexivity].
  destruct p as [[q | q |] | [q | q |] |]; try reflexivity; lia.
Qed.

(** Symbolic runs of the line: reduce, then split on what the line does. *)
Ltac run_line H :=
  cbn -[str_take str_drop Nat.leb Nat.eqb String.length strtol0 cast_int
        sprintf_0X to_unsigned Qabs Qltb inject_Z] in H.

Ltac line_cases H :=
  repeat (match type of H with
          | context [match ?l with [] => _ | _ :: _ => _ end] =>
              is_var l; destruct l as [| [| | ?] ?]
          | context [if (?n <=? ?m)%nat then _ else _] =>
              destruct (n <=? m)%nat
          | context [if (?n =? ?m)%nat then _ else _] =>
              destruct (n =? m)%nat
          | context [match cast_int ?q with _ => _ end] =>
              destruct (cast_int q)
          end; run_line H).

Ltac unfold_pmc H :=
  unfold tty_write, tty_read, defined, gets, modify, bind, ret, undefined,
         negb in H.

Lemma get_pmc8_tracking_rate_axis_frame axis w r w' :
  get_pmc8_tracking_rate_axis axis w = Some (r, w') ->
  pmc8_simulation w' = pmc8_simulation w
  /\ simPMC8Data w' = simPMC8Data w
  /\ systemStatus w' = systemStatus w
  /\ exists queries,
       sent w' = sent w ++ queries /\ Forall rate_query queries.
Proof.
  intros H. destruct w as [sim d st snt ln].
  unfold get_pmc8_tracking_rate_axis in H. unfold_pmc H.
  run_line H.
  destruct sim, axis; run_line H; line_cases H; try discriminate H;
    injection H as <- <-; cbn; repeat split;
    first [ exists []; split; [now rewrite app_nil_r | constructor]
          | eexists; split; [reflexivity |];
            repeat constructor; solve [left; reflexivity | right; reflexivity] ].
Qed.

Lemma get_pmc8_is_scope_slewing_frame w r w' :
  get_pmc8_is_scope_slewing w = Some (r, w') ->
  pmc8_simulation w' = pmc8_simulation w
  /\ simPMC8Data w' = simPMC8Data w
  /\ systemStatus w' = systemStatus w
  /\ exists queries,
       sent w' = sent w ++ queries /\ Forall rate_query queries.
Proof.
  intros H. unfold get_pmc8_is_scope_slewing, bind in H.
  destruct (get_pmc8_tracking_rate_axis PMC8_RA_AXIS w)
    as [[ra w1] |] eqn:E1; [| discriminate H].
  apply get_pmc8_tracking_rate_axis_frame in E1.
  destruct E1 as (S1 & D1 & T1 & q1 & Q1 & F1).
  destruct ra as [rarate |].
  - destruct (get_pmc8_tracking_rate_axis PMC8_DEC_AXIS w1)
      as [[de w2] |] eqn:E2; [| discriminate H].
    apply get_pmc8_tracking_rate_axis_frame in E2.
    destruct E2 as (S2 & D2 & T2 & q2 & Q2 & F2).
    assert (w' = w2) as ->.
    { destruct de as [decrate |]; unfold gets, ret in H;
        [destruct (pmc8_simulation w2) |]; now injection H. }
    split; [congruence |]. split; [congruence |]. split; [congruence |].
    exists (q1 ++ q2). split.
    + rewrite Q2, Q1. now rewrite app_assoc.
    + apply Forall_app. now split.
  - unfold ret in H. injection H as _ <-.
    split; [assumption |]. split; [assumption |]. split; [assumption |].
    exists q1. now split.
Qed.

(** C9. With a speed index outside 0..3 and the mount found not slewing,
    [start_pmc8_motion] translates the index to rate 0, issues no frame
    beyond the two rate queries of the slewing test, leaves the simulated
    mount as it was, and returns [true]. *)
Theorem start_pmc8_motion_unknown_speed (dir : PMC8_DIRECTION) (mode : Z)
        (w w' : world) :
  mode < 0 \/ 3 < mode ->
  get_pmc8_is_scope_slewing w = Some (Some false, w') ->
  convert_movespeedindex_to_rate mode = 0
  /\ start_pmc8_motion dir mode w = Some (true, w')
  /\ simPMC8Data w' = simPMC8Data w
  /\ exists queries,
       sent w' = sent w ++ queries /\ Forall rate_query queries.
Proof.
  intros Hmode Hs.
  pose proof (convert_movespeedindex_to_rate_other mode Hmode) as R.
  split; [exact R |]. split.
  - unfold start_pmc8_motion, bind. rewrite Hs, R.
    destruct dir; reflexivity.
  - apply get_pmc8_is_scope_slewing_frame in Hs.
    destruct Hs as (_ & D & _ & Q). split; assumption.
Qed.

Lemma start_pmc8_motion_unknown_speed_witness :
  let w := real_world [Reply "ESGr0000035!"; Reply "ESGr1000000!"] in
  let w' := state_after get_pmc8_is_scope_slewing w in
  (7 < 0 \/ 3 < 7)
  /\ get_pmc8_is_scope_slewing w = Some (Some false, w')
  /\ convert_movespeedindex_to_rate 7 = 0
  /\ start_pmc8_motion PMC8_W 7 w = Some (true, w')
  /\ simPMC8Data w' = simPMC8Data w
  /\ exists queries,
       sent w' = sent w ++ queries /\ Forall rate_query queries.
Proof.
  intros w w'.
  assert (7 < 0 \/ 3 < 7) as A by (right; reflexivity).
  assert (get_pmc8_is_scope_slewing w = Some (Some false, w')) as B
      by (vm_compute; reflexivity).
  split; [exact A |]. split; [exact B |].
  exact (start_pmc8_motion_unknown_speed PMC8_W 7 w w' A B).
Defined.

(** ** PMC-Eight: custom RA track rate *)

(** Off simulation a direction command that is acknowledged has put its
    frame on the wire, and nothing else. *)
Lemma set_pmc8_direction_axis_sent axis dir w w' :
  pmc8_simulation w = false ->
  set_pmc8_direction_axis axis dir w = Some (true, w') ->
  sent w' = sent w ++ [("ESSd" ++ sprintf_d (axis_number axis)
                               ++ sprintf_d dir ++ "!")%string]
  /\ pmc8_simulation w' = false
  /\ simPMC8Data w' = simPMC8Data w.
Proof.
  intros Hsim H. destruct w as [sim d st snt ln].
  cbn in Hsim. subst sim.
  unfold set_pmc8_direction_axis in H. unfold_pmc H.
  cbn -[sprintf_d axis_number append str_take Nat.leb Nat.eqb String.length] in H.
  line_cases H; try discriminate H;
    injection H as <-; repeat split; reflexivity.
Qed.

(** C10, amended. Off simulation, a call of [set_pmc8_custom_ra_track_rate]
    that returns [true] has written the rate frame and then, as its last
    frame, the command that sets the RA axis direction to 1. *)
Theorem custom_ra_track_rate_ends_with_direction (rate : Q) (w w' : world) :
  pmc8_simulation w = false ->
  set_pmc8_custom_ra_track_rate rate w = Some (true, w') ->
  exists rateval,
    convert_precise_rate_to_motor rate = Some rateval
    /\ sent w' = sent w
                 ++ [("ESTr" ++ sprintf_0X 4 (to_unsigned rateval) ++ "!")%string;
                     "ESSd01!"%string].
Proof.
  intros Hsim H.
  unfold set_pmc8_custom_ra_track_rate in H.
  destruct (convert_precise_rate_to_motor rate) as [rateval |] eqn:E;
    [| discriminate H].
  exists rateval. split; [reflexivity |].
  unfold defined in H. unfold bind at 1 in H. unfold ret at 1 in H.
  unfold bind at 1 in H. unfold gets at 1 in H. rewrite Hsim in H.
  set (cmd := ("ESTr" ++ sprintf_0X 4 (to_unsigned rateval) ++ "!")%string) in *.
  unfold bind at 1 in H.
  destruct (tty_write cmd w) as [[ok w1] |] eqn:W; [| discriminate H].
  assert (ok = true -> sent w1 = sent w ++ [cmd]
                       /\ pmc8_simulation w1 = false) as HW.
  { intros ->. unfold tty_write in W.
    destruct (line w) as [| [| | bytes] rest]; try discriminate W;
      inversion W; subst w1; cbn; (split; [reflexivity | exact Hsim]). }
  destruct ok; cbn [negb] in H; [| unfold ret in H; discriminate H].
  destruct (HW eq_refl) as [S1 Sim1].
  unfold bind at 1 in H.
  destruct (tty_read (String.length cmd) w1) as [[r w2] |] eqn:R;
    [| discriminate H].
  assert (sent w2 = sent w1 /\ pmc8_simulation w2 = pmc8_simulation w1) as [S2 Sim2].
  { unfold tty_read in R.
    destruct (line w1) as [| [| | bytes] rest];
      try (inversion R; subst w2; cbn; split; reflexivity).
    destruct (String.length cmd <=? String.length bytes)%nat;
      inversion R; subst w2; cbn; split; reflexivity. }
  destruct r as [response |]; [| unfold ret in H; discriminate H].
  destruct (String.length response =? 9)%nat; cbn [negb] in H;
    [| unfold ret in H; discriminate H].
  apply set_pmc8_direction_axis_sent in H; [| congruence].
  destruct H as (S3 & _ & _).
  rewrite S3, S2, S1. rewrite <- app_assoc. reflexivity.
Qed.

Lemma length_str_take n : forall s,
  (n <= String.length s)%nat -> String.length (str_take n s) = n.
Proof.
  induction n as [| k IH]; intros s H.
  - destruct s; reflexivity.
  - destruct s as [| c s']; simpl in *; [lia |].
    rewrite IH by lia. reflexivity.
Qed.

(** Off simulation a negative motor rate cannot succeed: printed with
    [%04X] it takes eight digits, and the echo of the 13-byte frame fails the
    test for 9 bytes. *)
Lemma negative_track_rate_is_refused (coming : list line_event) :
  convert_precise_rate_to_motor (-1) = Some (-88)
  /\ result_of (set_pmc8_custom_ra_track_rate (-1)) (real_world coming)
     <> Some true.
Proof.
  split; [reflexivity |].
  unfold result_of.
  destruct (set_pmc8_custom_ra_track_rate (-1) (real_world coming))
    as [[b w'] |] eqn:E; [| discriminate].
  intros H. injection H as ->.
  unfold set_pmc8_custom_ra_track_rate in E.
  change (convert_precise_rate_to_motor (-1)) with (Some (-88)) in E.
  change (sprintf_0X 4 (to_unsigned (-88))) with "FFFFFFA8"%string in E.
  unfold_pmc E. unfold real_world in E.
  cbn -[str_take Nat.leb Nat.eqb String.length] in E.
  change (String.length "ESTrFFFFFFA8!") with 13%nat in E.
  destruct coming as [| [| | bytes] rest];
    cbn -[str_take Nat.leb Nat.eqb String.length] in E; try discriminate E.
  destruct (13 <=? String.length bytes)%nat eqn:L;
    cbn -[str_take Nat.leb Nat.eqb String.length] in E; [| discriminate E].
  rewrite length_str_take in E by (apply Nat.leb_le; exact L).
  cbn in E. discriminate E.
Qed.

(** The claim of C10 fails as worded: in simulation the call returns [true]
    as soon as the rate is recorded; no direction is commanded and the RA
    direction keeps the value it had, here 0. *)
Lemma custom_ra_track_rate_in_simulation :
  let w := sim_world (mkSimData 0 0 0 0 0 0 0) ST_STOPPED in
  let w' := state_after (set_pmc8_custom_ra_track_rate 15) w in
  result_of (set_pmc8_custom_ra_track_rate 15) w = Some true
  /\ raDirection (simPMC8Data w') = 0
  /\ sent w' = []
  /\ raDirection
       (simPMC8Data (state_after (set_pmc8_direction_axis PMC8_RA_AXIS 1) w))
     = 1.
Proof.
  vm_compute. repeat split; reflexivity.
Qed.

Lemma custom_ra_track_rate_ends_with_direction_witness :
  let w := real_world [Reply "ESTr0535!"; Reply "ESSd01!"] in
  let w' := state_after (set_pmc8_custom_ra_track_rate 15) w in
  pmc8_simulation w = false
  /\ set_pmc8_custom_ra_track_rate 15 w = Some (true, w')
  /\ exists rateval,
       convert_precise_rate_to_motor 15 = Some rateval
       /\ sent w' = sent w
                    ++ [("ESTr" ++ sprintf_0X 4 (to_unsigned rateval) ++ "!")%string;
                        "ESSd01!"%string].
Proof.
  intros w w'.
  assert (pmc8_simulation w = false) as A by reflexivity.
  assert (set_pmc8_custom_ra_track_rate 15 w = Some (true, w')) as B
      by (vm_compute; reflexivity).
  split; [exact A |]. split; [exact B |].
  exact (custom_ra_track_rate_ends_with_direction 15 w w' A B).
Defined.

(** ** PMC-Eight: track modes *)

Local Open Scope Q_scope.





Local Open Scope Z_scope.

(** ** Astro-Physics: custom track rates *)

Local Open Scope Q_scope.

(** C3. Off simulation, with a mount that takes both commands,
    [SetTrackRate] hands the RA multiplier (raRate - 15.04106864)/15.04106864
    to [setAPRATrackRate] and then the Dec multiplier deRate/15.04106864 to
    [setAPDETrackRate], and each goes on the wire clamped to
    [-998.9999, 998.9999].  For 15026.03 arcsec/s in RA the multiplier lies
    within the range and goes out as it is; for 20000 arcsec/s it goes out
    as 998.9999. *)
Theorem SetTrackRate_wire_multipliers (raRate deRate : Q) (s : ap_state)
        (a1 a2 : answer) (rest : list answer) :
  simulation s = false ->
  answers s = a1 :: a2 :: rest ->
  succeeded a1 = true -> succeeded a2 = true ->
  let APRARate := (raRate - 15.04106864) / 15.04106864 in
  let APDERate := deRate / 15.04106864 in
  exists s',
    SetTrackRate raRate deRate s = Some (true, s')
    /\ calls s'
       = calls s ++ [setAPRATrackRate APRARate; setAPDETrackRate APDERate]
    /\ answers s' = rest
    /\ wire_of (setAPRATrackRate APRARate)
       = Some (spec_ap_ra_multiplier raRate)
    /\ wire_of (setAPDETrackRate APDERate)
       = Some (spec_ap_de_multiplier deRate)
    /\ wire_multiplier ((15026.03 - 15.04106864) / 15.04106864)
       = (15026.03 - 15.04106864) / 15.04106864
    /\ wire_multiplier ((20000 - 15.04106864) / 15.04106864) = 998.9999.
Proof.
  intros Hsim Hans H1 H2 APRARate APDERate.
  unfold SetTrackRate, command, call, gets, bind, ret. rewrite Hsim.
  cbn [negb]. rewrite Hans.
  fold APRARate APDERate.
  cbn. rewrite H1. cbn. rewrite H2. cbn.
  eexists. split; [reflexivity |].
  cbn. rewrite <- app_assoc. cbn.
  split; [reflexivity |]. split; [reflexivity |].
  split; [reflexivity |]. split; [reflexivity |].
  split; reflexivity.
Qed.

Lemma SetTrackRate_wire_multipliers_witness :
  let s := ap_fresh [Ack; Ack] in
  simulation s = false
  /\ answers s = [Ack; Ack]
  /\ succeeded Ack = true
  /\ exists s',
       SetTrackRate 20000 0 s = Some (true, s')
       /\ calls s'
          = calls s
            ++ [setAPRATrackRate ((20000 - 15.04106864) / 15.04106864);
                setAPDETrackRate (0 / 15.04106864)]
       /\ answers s' = []
       /\ wire_of (setAPRATrackRate ((20000 - 15.04106864) / 15.04106864))
          = Some (spec_ap_ra_multiplier 20000)
       /\ wire_of (setAPDETrackRate (0 / 15.04106864))
          = Some (spec_ap_de_multiplier 0)
       /\ wire_multiplier ((15026.03 - 15.04106864) / 15.04106864)
          = (15026.03 - 15.04106864) / 15.04106864
       /\ wire_multiplier ((20000 - 15.04106864) / 15.04106864) = 998.9999.
Proof.
  intros s.
  split; [reflexivity |]. split; [reflexivity |]. split; [reflexivity |].
  exact (SetTrackRate_wire_multipliers 20000 0 s Ack Ack []
           eq_refl eq_refl eq_refl eq_refl).
Defined.

(** ** Astro-Physics: detection of a mount that was never initialised *)

Lemma close_to_zero x : close_to x 0 <-> Qabs x < 1 # 100000.
Proof.
  unfold close_to.
  assert (x - 0 == x) as E by ring.
  rewrite E. reflexivity.
Qed.

(** C7. When both coordinates are read, [IsMountInitialized] reports the
    mount as not initialised exactly when RA is 0 and Dec is 0 or 90, each
    within 1e-5; for every other reading it reports it as initialised. *)
Theorem IsMountInitialized_detects (ra dec : Q) (s : ap_state)
        (rest : list answer) :
  answers s = Num ra :: Num dec :: rest ->
  exists initialized s',
    IsMountInitialized s = Some (Some initialized, s')
    /\ (initialized = false
        <-> close_to ra 0 /\ (close_to dec 0 \/ close_to dec 90))
    /\ (initialized = true
        <-> ~ (close_to ra 0 /\ (close_to dec 0 \/ close_to dec 90))).
Proof.
  intros Hs.
  unfold IsMountInitialized, get_number, call, bind, ret. rewrite Hs.
  cbn -[Qabs Qltb].
  set (raZE := Qltb (Qabs ra) (1 # 100000)).
  set (deZE := Qltb (Qabs dec) (1 # 100000)).
  set (de90 := Qltb (Qabs (dec - 90)) (1 # 100000)).
  assert (raZE = true <-> close_to ra 0) as Hra
      by (unfold raZE; rewrite Qltb_true, close_to_zero; reflexivity).
  assert (deZE = true <-> close_to dec 0) as Hde
      by (unfold deZE; rewrite Qltb_true, close_to_zero; reflexivity).
  assert (de90 = true <-> close_to dec 90) as H90
      by (unfold de90; rewrite Qltb_true; reflexivity).
  destruct raZE, deZE, de90; cbn;
    eexists; eexists; (split; [reflexivity |]);
    split; split; intros; try reflexivity; try discriminate;
    intuition discriminate.
Qed.

Lemma IsMountInitialized_detects_witness :
  answers (ap_fresh [Num 0; Num 90]) = [Num 0; Num 90]
  /\ exists initialized s',
       IsMountInitialized (ap_fresh [Num 0; Num 90])
       = Some (Some initialized, s')
       /\ (initialized = false
           <-> close_to 0 0 /\ (close_to 90 0 \/ close_to 90 90))
       /\ (initialized = true
           <-> ~ (close_to 0 0 /\ (close_to 90 0 \/ close_to 90 90))).
Proof.
  split; [reflexivity |].
  exact (IsMountInitialized_detects 0 90 (ap_fresh [Num 0; Num 90]) []
           eq_refl).
Defined.

(** ** Astro-Physics: end of a slew *)

(** One poll while slewing: the reading is compared with the snapshot, the
    state advances when both differences are zero, and the snapshot becomes
    the reading. *)
Lemma ReadScopeStatus_slewing (ra dec : Q) (s : ap_state) (a : answer)
      (rest : list answer) :
  simulation s = false ->
  TrackState s = SCOPE_SLEWING ->
  answers s = Num ra :: Num dec :: a :: rest ->
  exists s',
    ReadScopeStatus s = Some (true, s')
    /\ simulation s' = false
    /\ TrackState s'
       = (if same_position (lastRA s, lastDE s) (ra, dec)
          then SCOPE_TRACKING else SCOPE_SLEWING)
    /\ lastRA s' = ra /\ lastDE s' = dec
    /\ answers s' = rest.
Proof.
  intros Hsim Hst Hans.
  assert (Qeq_bool (lastRA s - ra) 0 = Qeq_bool (lastRA s) ra) as Era.
  { destruct (Qeq_bool (lastRA s) ra) eqn:E.
    - apply Qeq_bool_iff in E. apply Qeq_bool_iff. lra.
    - apply Qeq_bool_neq in E.
      destruct (Qeq_bool (lastRA s - ra) 0) eqn:E'; [| reflexivity].
      apply Qeq_bool_iff in E'. exfalso. apply E. lra. }
  assert (Qeq_bool (lastDE s - dec) 0 = Qeq_bool (lastDE s) dec) as Ede.
  { destruct (Qeq_bool (lastDE s) dec) eqn:E.
    - apply Qeq_bool_iff in E. apply Qeq_bool_iff. lra.
    - apply Qeq_bool_neq in E.
      destruct (Qeq_bool (lastDE s - dec) 0) eqn:E'; [| reflexivity].
      apply Qeq_bool_iff in E'. exfalso. apply E. lra. }
  unfold same_position. cbn [fst snd]. rewrite <- Era, <- Ede.
  unfold ReadScopeStatus, syncSideOfPier, get_number, call, note, modify,
         gets, bind, ret.
  rewrite Hsim, Hans. cbn -[Qeq_bool Qminus String.eqb str_init].
  rewrite Hst. cbn -[Qeq_bool Qminus String.eqb str_init].
  destruct (Qeq_bool (lastRA s - ra) 0 && Qeq_bool (lastDE s - dec) 0);
    cbn -[String.eqb str_init];
    destruct a; cbn -[String.eqb str_init];
    repeat match goal with
           | |- context [String.eqb ?x ?y] => destruct (String.eqb x y)
           end;
    eexists; repeat split; cbn; solve [reflexivity | exact Hsim | exact Hst].
Qed.

Lemma ReadScopeStatus_tracking (ra dec : Q) (s : ap_state) (a : answer)
      (rest : list answer) :
  simulation s = false ->
  TrackState s = SCOPE_TRACKING ->
  answers s = Num ra :: Num dec :: a :: rest ->
  exists s',
    ReadScopeStatus s = Some (true, s')
    /\ simulation s' = false
    /\ TrackState s' = SCOPE_TRACKING
    /\ answers s' = rest.
Proof.
  intros Hsim Hst Hans.
  unfold ReadScopeStatus, syncSideOfPier, get_number, call, note, modify,
         gets, bind, ret.
  rewrite Hsim, Hans. cbn -[String.eqb str_init].
  rewrite Hst. cbn -[String.eqb str_init].
  destruct a; cbn -[String.eqb str_init];
    repeat match goal with
           | |- context [String.eqb ?x ?y] => destruct (String.eqb x y)
           end;
    eexists; repeat split; cbn; solve [reflexivity | exact Hsim | exact Hst].
Qed.

Section Polling.

(** The mount's answer to the pier side query, at every poll. *)
Variable pier : answer.

Lemma polls_while_tracking (readings : list (Q * Q)) :
  forall (s : ap_state) (rest : list answer),
    simulation s = false ->
    TrackState s = SCOPE_TRACKING ->
    answers s = poll_answers pier readings ++ rest ->
    exists s',
      polls (length readings) s = Some s'
      /\ TrackState s' = SCOPE_TRACKING
      /\ answers s' = rest.
Proof.
  induction readings as [| [ra dec] tl IH]; intros s rest Hsim Hst Hans.
  - exists s. repeat split; assumption.
  - cbn in Hans.
    destruct (ReadScopeStatus_tracking ra dec s _ _ Hsim Hst Hans)
      as (s1 & E & Hsim1 & Hst1 & Hans1).
    cbn [polls length]. rewrite E. now apply IH.
Qed.

Lemma polls_while_slewing (readings : list (Q * Q)) :
  forall (s : ap_state) (rest : list answer),
    simulation s = false ->
    TrackState s = SCOPE_SLEWING ->
    answers s = poll_answers pier readings ++ rest ->
    exists s',
      polls (length readings) s = Some s'
      /\ TrackState s'
         = (if static_twice ((lastRA s, lastDE s) :: readings)
            then SCOPE_TRACKING else SCOPE_SLEWING)
      /\ answers s' = rest.
Proof.
  induction readings as [| [ra dec] tl IH]; intros s rest Hsim Hst Hans.
  - exists s. repeat split; assumption.
  - cbn in Hans.
    destruct (ReadScopeStatus_slewing ra dec s _ _ Hsim Hst Hans)
      as (s1 & E & Hsim1 & Hst1 & Hra1 & Hde1 & Hans1).
    cbn [polls length]. rewrite E.
    change (static_twice ((lastRA s, lastDE s) :: (ra, dec) :: tl))
      with (same_position (lastRA s, lastDE s) (ra, dec)
            || static_twice ((ra, dec) :: tl)).
    destruct (same_position (lastRA s, lastDE s) (ra, dec)).
    + cbn [orb]. now apply polls_while_tracking.
    + cbn [orb]. rewrite <- Hra1, <- Hde1. now apply IH.
Qed.

End Polling.

(** The commands of a slew, one after the other; the paths on which one of
    them fails do not return [true]. *)
Ltac slew_steps H Hsim :=
  repeat match type of H with
         | context [if succeeded ?a then _ else _] =>
             destruct (succeeded a); cbn in H; try discriminate H
         end;
  injection H as <-; cbn; rewrite ?Hsim; repeat split; reflexivity.

(** A [Goto] that succeeds leaves the driver slewing, with the target as
    the snapshot the next poll is compared with. *)
Lemma Goto_started (r d : Q) (s s1 : ap_state) :
  simulation s = false ->
  Goto r d s = Some (true, s1) ->
  simulation s1 = false
  /\ TrackState s1 = SCOPE_SLEWING
  /\ lastRA s1 = r /\ lastDE s1 = d.
Proof.
  intros Hsim H.
  unfold Goto, command, call, note, modify, gets, bind, ret, negb in H.
  cbn in H. rewrite Hsim in H. cbn in H.
  destruct (EqNP_s s); cbn in H;
    [ slew_steps H Hsim | slew_steps H Hsim | | slew_steps H Hsim ].
  destruct (succeeded (hd Err (answers s))); cbn in H; [| discriminate H].
  destruct (MovementNSSP_s s), (MovementWESP_s s); cbn in H;
    slew_steps H Hsim.
Qed.

(** C5, amended. After a [Goto] that succeeded, off simulation and with
    every poll reading the mount, the state is TRACKING after the polls
    exactly when some reading equalled the snapshot it was compared with:
    the reading of the poll before or, for the first poll, the target of
    the [Goto]; otherwise the state is still SLEWING.  A poll that finds a
    difference leaves its reading as the new snapshot. *)
Theorem slew_ends_when_static (r d : Q) (readings : list (Q * Q))
        (pier : answer) (s s1 : ap_state) (rest : list answer) :
  simulation s = false ->
  Goto r d s = Some (true, s1) ->
  answers s1 = poll_answers pier readings ++ rest ->
  exists s2,
    polls (length readings) s1 = Some s2
    /\ TrackState s2
       = (if static_twice ((r, d) :: readings)
          then SCOPE_TRACKING else SCOPE_SLEWING)
    /\ answers s2 = rest.
Proof.
  intros Hsim HG Hans.
  destruct (Goto_started r d s s1 Hsim HG) as (Hsim1 & Hst1 & Hra & Hde).
  destruct (polls_while_slewing pier readings s1 rest Hsim1 Hst1 Hans)
    as (s2 & E & T & A).
  exists s2. rewrite Hra, Hde in T. repeat split; assumption.
Qed.

(** The claim of C5 fails as worded: a single poll that reads the target of
    the [Goto] ends the slew, though no two polls have seen the mount at
    rest. *)
Lemma slew_ends_at_first_poll :
  let s0 := ap_fresh ([Ack; Ack; Ack] ++ poll_answers (Txt "East#") [(5, 10)]) in
  let s1 := state_after (Goto 5 10) s0 in
  let s2 := state_after ReadScopeStatus s1 in
  result_of (Goto 5 10) s0 = Some true
  /\ TrackState s1 = SCOPE_SLEWING
  /\ result_of ReadScopeStatus s1 = Some true
  /\ TrackState s2 = SCOPE_TRACKING
  /\ static_twice [(5, 10)] = false.
Proof.
  vm_compute. repeat split; reflexivity.
Qed.

Lemma slew_ends_when_static_witness :
  let readings := [(4, 9); (5, 10); (5, 10)] in
  let s0 := ap_fresh ([Ack; Ack; Ack] ++ poll_answers (Txt "East#") readings) in
  let s1 := state_after (Goto 5 10) s0 in
  simulation s0 = false
  /\ Goto 5 10 s0 = Some (true, s1)
  /\ answers s1 = poll_answers (Txt "East#") readings ++ []
  /\ exists s2,
       polls (length readings) s1 = Some s2
       /\ TrackState s2
          = (if static_twice ((5, 10) :: readings)
             then SCOPE_TRACKING else SCOPE_SLEWING)
       /\ answers s2 = [].
Proof.
  intros readings s0 s1.
  assert (simulation s0 = false) as A by reflexivity.
  assert (Goto 5 10 s0 = Some (true, s1)) as B by (vm_compute; reflexivity).
  assert (answers s1 = poll_answers (Txt "East#") readings ++ []) as C
      by (vm_compute; reflexivity).
  split; [exact A |]. split; [exact B |]. split; [exact C |].
  exact (slew_ends_when_static 5 10 readings (Txt "East#") s0 s1 [] A B C).
Defined.
(** ** PMC-Eight: counts beyond 24 bits *)

Local Open Scope Z_scope.

Lemma mod_2_32_2_24 x : (x mod 2 ^ 32) mod 2 ^ 24 = x mod 2 ^ 24.
Proof.
  change (2 ^ 32) with (2 ^ 24 * 2 ^ 8).
  rewrite Z.rem_mul_r by lia.
  rewrite Z.mul_comm, Z.mod_add by lia.
  now rewrite Z.mod_mod by lia.
Qed.

(** A digit below position [m] is a digit of the residue modulo [16^m]. *)
Lemma hex_digit_of_residue v k m :
  0 <= k < m ->
  ((v mod 16 ^ m) / 16 ^ k) mod 16 = (v / 16 ^ k) mod 16.
Proof.
  intros H.
  assert (0 < 16 ^ k) as Pk by (apply Z.pow_pos_nonneg; lia).
  assert (0 < 16 ^ (m - k - 1)) as Pm by (apply Z.pow_pos_nonneg; lia).
  replace (16 ^ m) with (16 ^ k * (16 * 16 ^ (m - k - 1))).
  2:{ rewrite <- (Z.pow_succ_r 16) by lia. rewrite <- Z.pow_add_r by lia.
      f_equal. lia. }
  rewrite Z.rem_mul_r by lia.
  rewrite (Z.mul_comm (16 ^ k)), Z.div_add by lia.
  rewrite Z.div_small by (apply Z.mod_pos_bound; lia).
  rewrite Z.add_0_l.
  rewrite Z.rem_mul_r by lia.
  rewrite (Z.mul_comm 16), Z.mod_add by lia.
  apply Z.mod_mod. lia.
Qed.

Lemma hexN_of_residue n : forall m v,
  (n <= m)%nat -> hexN n (v mod 16 ^ Z.of_nat m) = hexN n v.
Proof.
  induction n as [| k IH]; intros m v H; [reflexivity |].
  cbn [hexN]. f_equal.
  - f_equal. apply hex_digit_of_residue. lia.
  - apply IH. lia.
Qed.

(** What comes back for any count: its residue modulo [2^24] that lies in
    (-2^23, 2^23]. *)
Lemma decode_encode_residue x :
  - 2 ^ 31 < x < 2 ^ 31 ->
  decode_encode x
  = if x mod 2 ^ 24 >? 2 ^ 23 then x mod 2 ^ 24 - 2 ^ 24 else x mod 2 ^ 24.
Proof.
  intros H. unfold decode_encode.
  rewrite convert_motor_counts_to_hex_digits by lia.
  rewrite axispos_of_field_hexN, mod_2_32_2_24.
  unfold convert_axispos_to_motor.
  change 8388608 with (2 ^ 23). change 16777216 with (2 ^ 24).
  destruct (x mod 2 ^ 24 >? 2 ^ 23); lia.
Qed.

(** X1. A count that does not fit 24 bits is not refused: the field holds
    its low 24 bits, and the count read back is the one congruent to it
    modulo [2^24] in (-2^23, 2^23], so that two counts [2^24] apart are
    written as the same field. *)
Theorem decode_encode_wraps x :
  - 2 ^ 31 < x < 2 ^ 31 ->
  - 2 ^ 23 < decode_encode x <= 2 ^ 23
  /\ (decode_encode x - x) mod 2 ^ 24 = 0
  /\ (x + 2 ^ 24 < 2 ^ 31 ->
      convert_motor_counts_to_hex (x + 2 ^ 24) = convert_motor_counts_to_hex x).
Proof.
  intros H. rewrite decode_encode_residue by exact H.
  pose proof (Z.mod_pos_bound x (2 ^ 24) ltac:(lia)) as B.
  pose proof (Z.div_mod x (2 ^ 24) ltac:(lia)) as D.
  split; [| split].
  - destruct (Z.gtb_spec (x mod 2 ^ 24) (2 ^ 23)); lia.
  - destruct (Z.gtb_spec (x mod 2 ^ 24) (2 ^ 23)).
    + replace (x mod 2 ^ 24 - 2 ^ 24 - x)
        with ((- (x / 2 ^ 24) - 1) * 2 ^ 24) by lia.
      apply Z.mod_mul; lia.
    + replace (x mod 2 ^ 24 - x) with ((- (x / 2 ^ 24)) * 2 ^ 24) by lia.
      apply Z.mod_mul; lia.
  - intros Hi.
    rewrite !convert_motor_counts_to_hex_digits by lia.
    rewrite <- (hexN_of_residue 6 6 ((x + 2 ^ 24) mod 2 ^ 32)) by lia.
    rewrite <- (hexN_of_residue 6 6 (x mod 2 ^ 32)) by lia.
    change (16 ^ Z.of_nat 6) with (2 ^ 24).
    rewrite !mod_2_32_2_24.
    replace (x + 2 ^ 24) with (x + 1 * 2 ^ 24) by lia.
    rewrite Z.mod_add by lia. reflexivity.
Qed.

Lemma decode_encode_wraps_witness :
  - 2 ^ 31 < 9000000 < 2 ^ 31
  /\ (- 2 ^ 23 < decode_encode 9000000 <= 2 ^ 23
      /\ (decode_encode 9000000 - 9000000) mod 2 ^ 24 = 0
      /\ (9000000 + 2 ^ 24 < 2 ^ 31 ->
          convert_motor_counts_to_hex (9000000 + 2 ^ 24)
          = convert_motor_counts_to_hex 9000000)).
Proof.
  assert (- 2 ^ 31 < 9000000 < 2 ^ 31) as R by lia.
  exact (conj R (decode_encode_wraps 9000000 R)).
Defined.

(** ** PMC-Eight: the counts of a target *)

Local Open Scope Q_scope.

Lemma Zle_of_Qle a b : inject_Z a <= inject_Z b -> (a <= b)%Z.
Proof. intros H. now rewrite Zle_Qle. Qed.

Lemma Zlt_of_Qlt a b : inject_Z a < inject_Z b -> (a < b)%Z.
Proof. intros H. now rewrite Zlt_Qlt. Qed.

(** The integral part of a value between two integers lies between
    them. *)
Lemma cast_int_between v lo hi :
  (- 2 ^ 31 < lo)%Z -> (hi < 2 ^ 31)%Z -> (lo <= 0 <= hi)%Z ->
  inject_Z lo <= v <= inject_Z hi ->
  exists c, cast_int v = Some c /\ (lo <= c <= hi)%Z
            /\ (0 <= v -> inject_Z c <= v /\ v < inject_Z c + 1)
            /\ (v <= 0 -> v <= inject_Z c /\ inject_Z c - 1 < v).
Proof.
  intros Hlo Hhi H0 [L U].
  assert (inject_Z hi < 2147483648) as U'.
  { change 2147483648 with (inject_Z (2 ^ 31)). now rewrite <- Zlt_Qlt. }
  assert (-2147483648 < inject_Z lo) as L'.
  { change (-2147483648) with (inject_Z (- 2 ^ 31)). now rewrite <- Zlt_Qlt. }
  destruct (cast_int_bounds v) as (c & E & P & N).
  { apply Qabs_Qlt_condition. lra. }
  exists c. split; [exact E |]. split; [| split; assumption].
  assert (inject_Z 0 <= inject_Z hi /\ inject_Z lo <= inject_Z 0) as [H1 H2]
      by (rewrite <- !Zle_Qle; lia).
  change (inject_Z 0) with 0 in H1, H2.
  destruct (Qlt_le_dec v 0) as [S | S].
  - destruct N as [N1 N2]; [lra |]. split.
    + apply Zle_of_Qle. lra.
    + assert (c < 1)%Z; [| lia].
      apply Zlt_of_Qlt. change (inject_Z 1) with 1. lra.
  - destruct (P S) as [P1 P2]. split.
    + assert (-1 < c)%Z; [| lia].
      apply Zlt_of_Qlt. change (inject_Z (-1)) with (-1). lra.
    + apply Zle_of_Qle. lra.
Qed.

Section TargetCounts.

Variable lst : Q.
Hypothesis lst_range : 0 <= lst < 24.

(** The RA count of a target: the motor angle, the hour angle moved by six
    hours to the side of the pier, at 192000 counts an hour. *)
Lemma convert_ra_to_motor_counts ra sop :
  0 <= ra < 24 -> sop <> PIER_UNKNOWN ->
  exists racounts,
    convert_ra_to_motor lst ra sop = Counts racounts
    /\ (-3456000 <= racounts <= 3456000)%Z.
Proof.
  intros Hra Hsop.
  destruct (hour_angle_of_range lst lst_range ra Hra) as [R _].
  unfold convert_ra_to_motor.
  set (ha := hour_angle_of lst ra) in *.
  destruct sop; [congruence | |].
  - set (v := (ha + 6) * PMC8_AXIS0_SCALE / 24).
    assert (v == (ha + 6) * 192000) as Ev by (unfold v, PMC8_AXIS0_SCALE; field).
    destruct (cast_int_between v (-3456000) 3456000) as (c & -> & B & _);
      try lia.
    { change (inject_Z (-3456000)) with (-3456000).
      change (inject_Z 3456000) with 3456000. lra. }
    exists c. split; [reflexivity | exact B].
  - set (v := (ha - 6) * PMC8_AXIS0_SCALE / 24).
    assert (v == (ha - 6) * 192000) as Ev by (unfold v, PMC8_AXIS0_SCALE; field).
    destruct (cast_int_between v (-3456000) 3456000) as (c & -> & B & _);
      try lia.
    { change (inject_Z (-3456000)) with (-3456000).
      change (inject_Z 3456000) with 3456000. lra. }
    exists c. split; [reflexivity | exact B].
Qed.

(** The Dec count of a target: the distance from the pole at 12800 counts
    a degree, below zero on the east side of the pier and above on the
    west. *)
Lemma convert_dec_to_motor_counts dec sop :
  -90 <= dec <= 90 -> sop <> PIER_UNKNOWN ->
  exists deccounts,
    convert_dec_to_motor dec sop = Counts deccounts
    /\ (sop = PIER_EAST -> (-2304000 <= deccounts <= 0)%Z)
    /\ (sop = PIER_WEST -> (0 <= deccounts <= 2304000)%Z).
Proof.
  intros Hdec Hsop. unfold convert_dec_to_motor.
  destruct sop; [congruence | |].
  - set (v := - (dec - 90) / 360 * PMC8_AXIS1_SCALE).
    assert (v == (90 - dec) * 12800) as Ev by (unfold v, PMC8_AXIS1_SCALE; field).
    destruct (cast_int_between v 0 2304000) as (c & -> & B & _); try lia.
    { change (inject_Z 0) with 0. change (inject_Z 2304000) with 2304000. lra. }
    exists c. split; [reflexivity |]. split; [discriminate | intros _; exact B].
  - set (v := (dec - 90) / 360 * PMC8_AXIS1_SCALE).
    assert (v == (dec - 90) * 12800) as Ev by (unfold v, PMC8_AXIS1_SCALE; field).
    destruct (cast_int_between v (-2304000) 0) as (c & -> & B & _); try lia.
    { change (inject_Z 0) with 0. change (inject_Z (-2304000)) with (-2304000).
      lra. }
    exists c. split; [reflexivity |]. split; [intros _; exact B | discriminate].
Qed.

(** X2. At a sidereal time in [0, 24), every target with RA in [0, 24) and
    Dec in [-90, 90] has counts on either side of the pier; the RA count
    lies within 3456000 of zero, the Dec count within 2304000 of zero with
    the sign that tells the side of the pier, and both go over the wire and
    come back unchanged. *)
Theorem target_counts_fit_the_wire (ra dec : Q) (sop : TelescopePierSide) :
  0 <= ra < 24 -> -90 <= dec <= 90 -> sop <> PIER_UNKNOWN ->
  exists racounts deccounts,
    convert_ra_to_motor lst ra sop = Counts racounts
    /\ convert_dec_to_motor dec sop = Counts deccounts
    /\ (-3456000 <= racounts <= 3456000)%Z
    /\ (sop = PIER_EAST -> (-2304000 <= deccounts <= 0)%Z)
    /\ (sop = PIER_WEST -> (0 <= deccounts <= 2304000)%Z)
    /\ decode_encode racounts = racounts
    /\ decode_encode deccounts = deccounts.
Proof.
  intros Hra Hdec Hsop.
  destruct (convert_ra_to_motor_counts ra sop Hra Hsop) as (rc & Er & Br).
  destruct (convert_dec_to_motor_counts dec sop Hdec Hsop) as (dc & Ed & BE & BW).
  exists rc, dc.
  split; [exact Er |]. split; [exact Ed |]. split; [exact Br |].
  split; [exact BE |]. split; [exact BW |].
  split; apply decode_encode_id; [lia |].
  destruct sop; [congruence | specialize (BW eq_refl) | specialize (BE eq_refl)];
    lia.
Qed.

End TargetCounts.



Lemma target_counts_fit_the_wire_witness :
  0 <= 10 < 24 /\ 0 <= 4 < 24 /\ -90 <= 45 <= 90
  /\ PIER_EAST <> PIER_UNKNOWN
  /\ exists racounts deccounts,
       convert_ra_to_motor 10 4 PIER_EAST = Counts racounts
       /\ convert_dec_to_motor 45 PIER_EAST = Counts deccounts
       /\ (-3456000 <= racounts <= 3456000)%Z
       /\ (PIER_EAST = PIER_EAST -> (-2304000 <= deccounts <= 0)%Z)
       /\ (PIER_EAST = PIER_WEST -> (0 <= deccounts <= 2304000)%Z)
       /\ decode_encode racounts = racounts
       /\ decode_encode deccounts = deccounts.
Proof.
  assert (0 <= 10 < 24) as A by lra.
  assert (0 <= 4 < 24) as B by lra.
  assert (-90 <= 45 <= 90) as C by lra.
  assert (PIER_EAST <> PIER_UNKNOWN) as D by discriminate.
  split; [exact A |]. split; [exact B |]. split; [exact C |].
  split; [exact D |].
  exact (target_counts_fit_the_wire 10 A 4 45 PIER_EAST B C D).
Defined.

Local Open Scope Q_scope.

Lemma b64_between x (lo hi : Z) (l h : Q) :
  l == inject_Z lo -> h == inject_Z hi ->
  (Z.abs lo < 9007199254740992)%Z -> (Z.abs hi < 9007199254740992)%Z ->
  l <= x <= h -> l <= b64 x <= h.
Proof.
  intros El Eh Hl Hh [L H]. rewrite El, Eh in *.
  split; [apply b64_ge_int | apply b64_le_int]; assumption.
Qed.

(** Names the double [b64 t] and records the integers it lies between. *)
Tactic Notation "rounded" constr(t) "between" constr(lo) "and" constr(hi)
       "as" ident(v) ident(N) :=
  assert (Qmake lo 1 <= b64 t <= Qmake hi 1) as N
      by (apply (b64_between t lo hi);
          [reflexivity | reflexivity | reflexivity | reflexivity
          | split; lra]);
  set (v := b64 t) in *.

(** ** PMC-Eight: the range of the coordinates read from counts *)

Section MachineRange.

Variable lst : Q.
Hypothesis lst_range : 0 <= lst < 24.

(** X3. For an RA count within 3456000 of zero the right ascension
    [convert_motor_to_radec] computes lies in [0, 24], the upper end
    included: a value just below zero becomes 24.0 when a turn is added.
    The declination is never above 90; for a Dec count within 2304000 of
    zero it is not below -90 and is, up to rounding, 90 degrees less the
    size of the count at 12800 counts a degree. *)
Theorem convert_motor_to_radec_range (racounts deccounts : Z) :
  (-3456000 <= racounts <= 3456000)%Z ->
  let ra_value := fst (IEEE.convert_motor_to_radec lst racounts deccounts) in
  let dec_value := snd (IEEE.convert_motor_to_radec lst racounts deccounts) in
  0 <= ra_value <= 24
  /\ dec_value <= 90
  /\ ((-2304000 <= deccounts <= 2304000)%Z ->
      -90 <= dec_value
      /\ Qabs (dec_value - (90 - inject_Z (Z.abs deccounts) * (1 # 12800)))
         <= 1 # 100000000000).
Proof.
  intros Hc ra_value dec_value.
  assert (-3456000 <= inject_Z racounts <= 3456000) as Qc.
  { destruct Hc as [L H]. rewrite Zle_Qle in L, H. exact (conj L H). }
  split; [| split].
  - unfold ra_value, IEEE.convert_motor_to_radec, PMC8_AXIS0_SCALE.
    cbv zeta. cbn [fst].
    rounded (24 * inject_Z racounts) between (-82944000)%Z and 82944000%Z
      as a0 R0.
    set (t := a0 / 4608000) in *.
    assert (t == a0 * (1 # 4608000)) as Et by (unfold t; field).
    clearbody t.
    rounded t between (-18)%Z and 18%Z as a Ra.
    assert (exists h,
               (if (deccounts <? 0)%Z then b64 (a + 6) else b64 (a - 6)) = h
               /\ -24 <= h <= 24) as (h & -> & Rh).
    { destruct (deccounts <? 0)%Z.
      - rounded (a + 6) between (-24)%Z and 24%Z as h Rh. exists h.
        split; [reflexivity | exact Rh].
      - rounded (a - 6) between (-24)%Z and 24%Z as h Rh. exists h.
        split; [reflexivity | exact Rh]. }
    rounded (lst - h) between (-24)%Z and 48%Z as r0 Rr0.
    destruct (Qleb 24 r0) eqn:E1.
    + apply Qleb_true in E1.
      rounded (r0 - 24) between 0%Z and 24%Z as r Rr. exact Rr.
    + apply Qleb_false in E1.
      destruct (Qltb r0 0) eqn:E2.
      * apply Qltb_true in E2.
        rounded (r0 + 24) between 0%Z and 24%Z as r Rr. exact Rr.
      * apply Qltb_false in E2. lra.
  - unfold dec_value, IEEE.convert_motor_to_radec, PMC8_AXIS1_SCALE.
    cbv zeta. cbn [snd].
    set (s := b64 (b64 (360 * inject_Z deccounts) / 4608000)).
    destruct (Qleb 0 s) eqn:E.
    + apply Qleb_true in E.
      apply (b64_le_int (90 - s) 90); [reflexivity |].
      change (inject_Z 90) with 90. lra.
    + apply Qleb_false in E.
      apply (b64_le_int (90 + s) 90); [reflexivity |].
      change (inject_Z 90) with 90. lra.
  - intros Hd.
    destruct (machine_radec_back lst lst_range racounts deccounts Hc Hd)
      as (k & _ & _ & _ & Ny & _).
    split; [| exact Ny].
    assert (-2304000 <= inject_Z deccounts <= 2304000) as Qd.
    { destruct Hd as [L H]. rewrite Zle_Qle in L, H. exact (conj L H). }
    unfold dec_value, IEEE.convert_motor_to_radec, PMC8_AXIS1_SCALE.
    cbv zeta. cbn [snd].
    rounded (360 * inject_Z deccounts) between (-829440000)%Z and 829440000%Z
      as s0 R0.
    set (t := s0 / 4608000) in *.
    assert (t == s0 * (1 # 4608000)) as Et by (unfold t; field).
    clearbody t.
    rounded t between (-180)%Z and 180%Z as s Rs.
    destruct (Qleb 0 s) eqn:E.
    + apply Qleb_true in E.
      rounded (90 - s) between (-90)%Z and 90%Z as y Ry. lra.
    + apply Qleb_false in E.
      rounded (90 + s) between (-90)%Z and 90%Z as y Ry. lra.
Qed.

End MachineRange.

Lemma convert_motor_to_radec_range_witness :
  0 <= 6 - (1 # 1125899906842624) < 24
  /\ (-3456000 <= 0 <= 3456000)%Z
  /\ fst (IEEE.convert_motor_to_radec (6 - (1 # 1125899906842624)) 0 (-1))
     == 24
  /\ (let ra_value :=
        fst (IEEE.convert_motor_to_radec (6 - (1 # 1125899906842624)) 0 (-1)) in
      let dec_value :=
        snd (IEEE.convert_motor_to_radec (6 - (1 # 1125899906842624)) 0 (-1)) in
      0 <= ra_value <= 24
      /\ dec_value <= 90
      /\ ((-2304000 <= -1 <= 2304000)%Z ->
          -90 <= dec_value
          /\ Qabs (dec_value - (90 - inject_Z (Z.abs (-1)) * (1 # 12800)))
             <= 1 # 100000000000)).
Proof.
  assert (0 <= 6 - (1 # 1125899906842624) < 24) as A
      by (split; [discriminate | reflexivity]).
  assert (-3456000 <= 0 <= 3456000)%Z as B by lia.
  split; [exact A |]. split; [exact B |].
  split; [vm_compute; reflexivity |].
  exact (convert_motor_to_radec_range (6 - (1 # 1125899906842624)) A 0 (-1) B).
Defined.

(** ** PMC-Eight: frames and their echoes *)

Local Open Scope Z_scope.

Lemma length_append a b :
  String.length (a ++ b) = (String.length a + String.length b)%nat.
Proof. induction a as [| c a IH]; simpl; [reflexivity | now rewrite IH]. Qed.

Lemma length_convert_motor_counts_to_hex val :
  String.length (convert_motor_counts_to_hex val) = 6%nat.
Proof.
  unfold convert_motor_counts_to_hex. rewrite sprintf_0X_8. reflexivity.
Qed.

Lemma length_axis_digit axis :
  String.length (sprintf_d (axis_number axis)) = 1%nat.
Proof. destruct axis; reflexivity. Qed.

(** A frame of four letters, the axis and a position field has twelve
    characters. *)
Lemma length_position_frame head axis point :
  String.length head = 4%nat ->
  String.length
    (head ++ sprintf_d (axis_number axis)
          ++ convert_motor_counts_to_hex point ++ "!")%string = 12%nat.
Proof.
  intros H.
  rewrite !length_append, H, length_axis_digit,
    length_convert_motor_counts_to_hex.
  reflexivity.
Qed.

Lemma strncmp_eq_refl n : forall a, strncmp_eq n a a = true.
Proof.
  induction n as [| k IH]; intros a; [reflexivity |].
  cbn [strncmp_eq]. rewrite Ascii.eqb_refl. cbn [negb].
  destruct (Ascii.eqb (c_head a) NUL); [reflexivity | apply IH].
Qed.

(** Without a NUL in [a], comparing over the length of [a] against a
    string of the same length is equality. *)
Lemma strncmp_eq_whole : forall a b,
  c_strlen a = String.length a -> String.length a = String.length b ->
  strncmp_eq (c_strlen a) a b = true -> a = b.
Proof.
  induction a as [| c a IH]; intros b Hn Hl H.
  - destruct b; [reflexivity | discriminate Hl].
  - destruct b as [| d b]; [discriminate Hl |].
    cbn [c_strlen String.length] in Hn.
    destruct (Ascii.eqb c NUL) eqn:Ec; [discriminate Hn |].
    cbn [c_strlen] in H. rewrite Ec in H.
    cbn [strncmp_eq c_head c_tail] in H.
    destruct (Ascii.eqb c d) eqn:Ecd; cbn [negb] in H; [| discriminate H].
    rewrite Ec in H.
    apply Ascii.eqb_eq in Ecd. subst d. f_equal.
    apply IH; [now injection Hn | now injection Hl | exact H].
Qed.

(** ** PMC-Eight: one exchange with the mount *)

Local Open Scope cmd_scope.

Lemma same_mount_refl w : same_mount w w.
Proof. repeat split. Qed.

Lemma same_mount_trans w1 w2 w3 :
  same_mount w1 w2 -> same_mount w2 w3 -> same_mount w1 w3.
Proof.
  intros (A & B & C) (A' & B' & C'). repeat split; congruence.
Qed.

Lemma same_mount_exchanged cmd rest w : same_mount w (exchanged cmd rest w).
Proof. repeat split. Qed.

Lemma off_simulation {A : Type} (a b : PMC A) (w : world) :
  pmc8_simulation w = false ->
  (sim <- gets pmc8_simulation ;; if sim then a else b) w = b w.
Proof. intros H. unfold bind, gets. now rewrite H. Qed.

Lemma in_simulation {A : Type} (a b : PMC A) (w : world) :
  pmc8_simulation w = true ->
  (sim <- gets pmc8_simulation ;; if sim then a else b) w = a w.
Proof. intros H. unfold bind, gets. now rewrite H. Qed.

(** When the line replies with enough bytes, the frame goes out and the
    command goes on with the first [n] bytes of the reply. *)
Lemma exchange_reply {A : Type} (cmd : string) (n : nat) (fail : A)
      (k : string -> PMC A) (w : world) bytes rest :
  line w = Reply bytes :: rest -> (n <= String.length bytes)%nat ->
  (ok <- tty_write cmd ;;
   if negb ok then ret fail else
   r <- tty_read n ;;
   match r with
   | None => ret fail
   | Some response => k response
   end) w
  = k (str_take n bytes) (exchanged cmd rest w).
Proof.
  intros L Hl. destruct w as [sim d st snt ln]. cbn in L. subst ln.
  unfold tty_write, tty_read, bind, ret, negb, exchanged.
  cbn -[str_take Nat.leb String.length].
  apply Nat.leb_le in Hl. rewrite Hl. reflexivity.
Qed.

(** Otherwise the exchange fails, after at most the frame went out. *)
Lemma exchange_cases {A : Type} (cmd : string) (n : nat) (fail : A)
      (k : string -> PMC A) (w : world) :
  let c := (ok <- tty_write cmd ;;
            if negb ok then ret fail else
            r <- tty_read n ;;
            match r with
            | None => ret fail
            | Some response => k response
            end) in
  (exists w1, c w = Some (fail, w1) /\ same_mount w w1
              /\ (sent w1 = sent w \/ sent w1 = sent w ++ [cmd]))
  \/ (exists bytes rest,
         line w = Reply bytes :: rest /\ (n <= String.length bytes)%nat
         /\ c w = k (str_take n bytes) (exchanged cmd rest w)).
Proof.
  intros c.
  destruct (line w) as [| [| | bytes] rest] eqn:L.
  4: destruct (n <=? String.length bytes)%nat eqn:Hl.
  4:{ right. exists bytes, rest. apply Nat.leb_le in Hl.
      split; [reflexivity |]. split; [exact Hl |].
      now apply exchange_reply. }
  all: left; subst c; destruct w as [sim d st snt ln]; cbn in L; subst ln;
    unfold tty_write, tty_read, bind, ret, negb, same_mount;
    cbn -[str_take Nat.leb String.length]; try rewrite Hl;
    eexists; (split; [reflexivity |]); (split; [repeat split |]);
    solve [left; reflexivity | right; reflexivity].
Qed.

(** The commands that set a position or a target: the frame, and the echo
    the reply is compared with over the length the reply has as a C
    string. *)
Lemma position_command_reply (head echo : string) axis point w bytes rest :
  String.length head = 4%nat ->
  line w = Reply bytes :: rest -> (12 <= String.length bytes)%nat ->
  let hexpt := convert_motor_counts_to_hex point in
  let cmd := (head ++ sprintf_d (axis_number axis) ++ hexpt ++ "!")%string in
  let expresp := (echo ++ sprintf_d (axis_number axis) ++ hexpt ++ "!")%string in
  (ok <- tty_write cmd ;;
   if negb ok then ret false else
   r <- tty_read (String.length cmd) ;;
   match r with
   | None => ret false
   | Some response =>
       if negb (strncmp_eq (c_strlen response) response expresp)
       then ret false
       else ret true
   end) w
  = Some (strncmp_eq (c_strlen (str_take 12 bytes)) (str_take 12 bytes) expresp,
          exchanged cmd rest w).
Proof.
  intros Hh L Hl hexpt cmd expresp.
  assert (String.length cmd = 12%nat) as Lc
      by (apply length_position_frame; exact Hh).
  etransitivity.
  - apply (exchange_reply cmd (String.length cmd) false
             (fun response =>
                if negb (strncmp_eq (c_strlen response) response expresp)
                then ret false else ret true) w bytes rest L).
    now rewrite Lc.
  - cbv beta. rewrite Lc.
    destruct (strncmp_eq (c_strlen (str_take 12 bytes)) (str_take 12 bytes)
                expresp); reflexivity.
Qed.

Lemma position_command_cases (head echo : string) axis point w :
  String.length head = 4%nat ->
  let hexpt := convert_motor_counts_to_hex point in
  let cmd := (head ++ sprintf_d (axis_number axis) ++ hexpt ++ "!")%string in
  let expresp := (echo ++ sprintf_d (axis_number axis) ++ hexpt ++ "!")%string in
  let c := (ok <- tty_write cmd ;;
            if negb ok then ret false else
            r <- tty_read (String.length cmd) ;;
            match r with
            | None => ret false
            | Some response =>
                if negb (strncmp_eq (c_strlen response) response expresp)
                then ret false
                else ret true
            end) in
  exists b w1,
    c w = Some (b, w1) /\ same_mount w w1
    /\ (b = true -> sent w1 = sent w ++ [cmd])
    /\ (sent w1 = sent w \/ sent w1 = sent w ++ [cmd]).
Proof.
  intros Hh hexpt cmd expresp c.
  destruct (exchange_cases cmd (String.length cmd) false
              (fun response =>
                 if negb (strncmp_eq (c_strlen response) response expresp)
                 then ret false else ret true) w)
    as [(w1 & E & M & S) | (bytes & rest & L & Hl & E)].
  - exists false, w1. split; [exact E |]. split; [exact M |].
    split; [discriminate | exact S].
  - assert (String.length cmd = 12%nat) as Lc
        by (apply length_position_frame; exact Hh).
    rewrite Lc in Hl.
    eexists; eexists. split.
    + apply (position_command_reply head echo axis point w bytes rest Hh L Hl).
    + split; [apply same_mount_exchanged |].
      split; [intros _; reflexivity | right; reflexivity].
Qed.

(** ** PMC-Eight: setting a target *)

(** X5. Off simulation, with a reply of twelve bytes or more on the line,
    [set_pmc8_target_position_axis] compares the first twelve bytes with
    the frame it wrote, [ESGt] in the place of [ESPt]: a reply without a
    NUL byte is accepted exactly when it is that echo.  The comparison runs
    over the length of the reply as a C string, so a reply that starts with
    a NUL byte is accepted whatever follows. *)
Theorem target_position_needs_the_echo (axis : PMC8_AXIS) (point : Z)
        (bytes : string) (rest : list line_event) (w : world) :
  pmc8_simulation w = false ->
  line w = Reply bytes :: rest -> (12 <= String.length bytes)%nat ->
  let reply := str_take 12 bytes in
  let echo := ("ESGt" ++ sprintf_d (axis_number axis)
                      ++ convert_motor_counts_to_hex point ++ "!")%string in
  (c_strlen reply = 12%nat ->
   (result_of (set_pmc8_target_position_axis axis point) w = Some true
    <-> reply = echo))
  /\ (c_head bytes = NUL ->
      result_of (set_pmc8_target_position_axis axis point) w = Some true).
Proof.
  intros Hsim L Hl reply echo.
  assert (result_of (set_pmc8_target_position_axis axis point) w
          = Some (strncmp_eq (c_strlen reply) reply echo)) as R.
  { unfold result_of, set_pmc8_target_position_axis.
    rewrite off_simulation by exact Hsim.
    rewrite (position_command_reply "ESPt" "ESGt" axis point w bytes rest
               eq_refl L Hl).
    reflexivity. }
  rewrite R. split.
  - intros Hn. split.
    + intros H. injection H as H.
      apply strncmp_eq_whole; [| | exact H].
      * rewrite Hn. unfold reply. now rewrite length_str_take.
      * unfold reply, echo. rewrite length_str_take by exact Hl.
        symmetry. apply length_position_frame. reflexivity.
    + intros ->. now rewrite strncmp_eq_refl.
  - intros Hz. f_equal.
    assert (c_strlen reply = 0%nat) as ->; [| reflexivity].
    unfold reply. destruct bytes as [| c bytes']; [reflexivity |].
    cbn in Hz. subst c. reflexivity.
Qed.

Lemma target_position_needs_the_echo_witness :
  let w := real_world [Reply "ESGt1F73600!"] in
  pmc8_simulation w = false
  /\ line w = [Reply "ESGt1F73600!"]
  /\ (12 <= String.length "ESGt1F73600!")%nat
  /\ c_strlen (str_take 12 "ESGt1F73600!") = 12%nat
  /\ result_of (set_pmc8_target_position_axis PMC8_DEC_AXIS (-576000)) w
     = Some true.
Proof.
  intros w.
  assert (pmc8_simulation w = false) as A by reflexivity.
  assert (line w = [Reply "ESGt1F73600!"]) as B by reflexivity.
  assert (12 <= String.length "ESGt1F73600!")%nat as C by (vm_compute; lia).
  assert (c_strlen (str_take 12 "ESGt1F73600!") = 12%nat) as D by reflexivity.
  split; [exact A |]. split; [exact B |]. split; [exact C |].
  split; [exact D |].
  destruct (target_position_needs_the_echo PMC8_DEC_AXIS (-576000)
              "ESGt1F73600!" [] w A B C) as [H _].
  apply (H D). reflexivity.
Defined.

(** The frame that sets a target and the frame that sets a position. *)
Lemma set_pmc8_target_position_axis_run axis point w :
  pmc8_simulation w = false ->
  exists b w1,
    set_pmc8_target_position_axis axis point w = Some (b, w1)
    /\ same_mount w w1
    /\ (b = true ->
        sent w1 = sent w ++ [("ESPt" ++ sprintf_d (axis_number axis)
                                     ++ convert_motor_counts_to_hex point
                                     ++ "!")%string])
    /\ (sent w1 = sent w
        \/ sent w1 = sent w ++ [("ESPt" ++ sprintf_d (axis_number axis)
                                        ++ convert_motor_counts_to_hex point
                                        ++ "!")%string]).
Proof.
  intros Hsim. unfold set_pmc8_target_position_axis.
  rewrite off_simulation by exact Hsim.
  exact (position_command_cases "ESPt" "ESGt" axis point w eq_refl).
Qed.

Lemma set_pmc8_position_axis_run axis point w :
  pmc8_simulation w = false ->
  exists b w1,
    set_pmc8_position_axis axis point w = Some (b, w1)
    /\ same_mount w w1
    /\ (b = true ->
        sent w1 = sent w ++ [("ESSp" ++ sprintf_d (axis_number axis)
                                     ++ convert_motor_counts_to_hex point
                                     ++ "!")%string])
    /\ (sent w1 = sent w
        \/ sent w1 = sent w ++ [("ESSp" ++ sprintf_d (axis_number axis)
                                        ++ convert_motor_counts_to_hex point
                                        ++ "!")%string]).
Proof.
  intros Hsim. unfold set_pmc8_position_axis.
  rewrite off_simulation by exact Hsim.
  exact (position_command_cases "ESSp" "ESGp" axis point w eq_refl).
Qed.

(** The RA axis and then the Dec axis, the second only after the first
    succeeded. *)
Lemma both_axes_run (c : PMC8_AXIS -> Z -> PMC bool)
      (f : PMC8_AXIS -> Z -> string) :
  (forall axis point w,
      pmc8_simulation w = false ->
      exists b w1,
        c axis point w = Some (b, w1) /\ same_mount w w1
        /\ (b = true -> sent w1 = sent w ++ [f axis point])
        /\ (sent w1 = sent w \/ sent w1 = sent w ++ [f axis point])) ->
  forall rapoint decpoint w,
    pmc8_simulation w = false ->
    exists b w',
      (rc <- c PMC8_RA_AXIS rapoint ;;
       if negb rc then ret rc else c PMC8_DEC_AXIS decpoint) w = Some (b, w')
      /\ same_mount w w'
      /\ (b = true ->
          sent w' = sent w ++ [f PMC8_RA_AXIS rapoint; f PMC8_DEC_AXIS decpoint])
      /\ (result_of (c PMC8_RA_AXIS rapoint) w = Some false ->
          b = false
          /\ (sent w' = sent w \/ sent w' = sent w ++ [f PMC8_RA_AXIS rapoint]))
      /\ (sent w' = sent w
          \/ sent w' = sent w ++ [f PMC8_RA_AXIS rapoint]
          \/ sent w' = sent w ++ [f PMC8_RA_AXIS rapoint;
                                  f PMC8_DEC_AXIS decpoint]).
Proof.
  intros Hc rapoint decpoint w Hsim.
  destruct (Hc PMC8_RA_AXIS rapoint w Hsim) as (b1 & w1 & E1 & M1 & T1 & S1).
  unfold bind, result_of. rewrite E1.
  destruct b1; cbn [negb].
  - assert (pmc8_simulation w1 = false) as Hsim1
        by (destruct M1 as (A & _); congruence).
    destruct (Hc PMC8_DEC_AXIS decpoint w1 Hsim1)
      as (b2 & w2 & E2 & M2 & T2 & S2).
    exists b2, w2. rewrite (T1 eq_refl) in *.
    split; [exact E2 |].
    split; [exact (same_mount_trans _ _ _ M1 M2) |].
    split; [| split].
    + intros B. rewrite (T2 B), <- app_assoc. reflexivity.
    + discriminate.
    + destruct S2 as [S2 | S2]; rewrite S2.
      * right; left; reflexivity.
      * right; right. now rewrite <- app_assoc.
  - exists false, w1. split; [reflexivity |]. split; [exact M1 |].
    split; [discriminate |]. split.
    + intros _. split; [reflexivity | exact S1].
    + destruct S1 as [S1 | S1]; [left | right; left]; exact S1.
Qed.

Lemma set_pmc8_target_position_run rapoint decpoint w :
  pmc8_simulation w = false ->
  let fra := ("ESPt" ++ sprintf_d (axis_number PMC8_RA_AXIS)
                     ++ convert_motor_counts_to_hex rapoint ++ "!")%string in
  let fdec := ("ESPt" ++ sprintf_d (axis_number PMC8_DEC_AXIS)
                      ++ convert_motor_counts_to_hex decpoint ++ "!")%string in
  exists b w',
    set_pmc8_target_position rapoint decpoint w = Some (b, w')
    /\ same_mount w w'
    /\ (b = true -> sent w' = sent w ++ [fra; fdec])
    /\ (result_of (set_pmc8_target_position_axis PMC8_RA_AXIS rapoint) w
        = Some false ->
        b = false /\ (sent w' = sent w \/ sent w' = sent w ++ [fra]))
    /\ (sent w' = sent w \/ sent w' = sent w ++ [fra]
        \/ sent w' = sent w ++ [fra; fdec]).
Proof.
  intros Hsim fra fdec.
  exact (both_axes_run set_pmc8_target_position_axis
           (fun axis point =>
              ("ESPt" ++ sprintf_d (axis_number axis)
                      ++ convert_motor_counts_to_hex point ++ "!")%string)
           set_pmc8_target_position_axis_run rapoint decpoint w Hsim).
Qed.

Lemma set_pmc8_position_run rapoint decpoint w :
  pmc8_simulation w = false ->
  let fra := ("ESSp" ++ sprintf_d (axis_number PMC8_RA_AXIS)
                     ++ convert_motor_counts_to_hex rapoint ++ "!")%string in
  let fdec := ("ESSp" ++ sprintf_d (axis_number PMC8_DEC_AXIS)
                      ++ convert_motor_counts_to_hex decpoint ++ "!")%string in
  exists b w',
    set_pmc8_position rapoint decpoint w = Some (b, w')
    /\ same_mount w w'
    /\ (b = true -> sent w' = sent w ++ [fra; fdec])
    /\ (result_of (set_pmc8_position_axis PMC8_RA_AXIS rapoint) w
        = Some false ->
        b = false /\ (sent w' = sent w \/ sent w' = sent w ++ [fra]))
    /\ (sent w' = sent w \/ sent w' = sent w ++ [fra]
        \/ sent w' = sent w ++ [fra; fdec]).
Proof.
  intros Hsim fra fdec.
  exact (both_axes_run set_pmc8_position_axis
           (fun axis point =>
              ("ESSp" ++ sprintf_d (axis_number axis)
                      ++ convert_motor_counts_to_hex point ++ "!")%string)
           set_pmc8_position_axis_run rapoint decpoint w Hsim).
Qed.

(** X6. Off simulation [set_pmc8_target_position] always returns; what it
    wrote is the RA frame alone, or the RA frame and then the Dec frame, or
    nothing; it returns [true] only with both frames written, and when the
    RA axis fails the Dec axis is never commanded. *)
Theorem set_pmc8_target_position_stops_at_ra (rapoint decpoint : Z)
        (w : world) :
  pmc8_simulation w = false ->
  let fra := ("ESPt" ++ sprintf_d (axis_number PMC8_RA_AXIS)
                     ++ convert_motor_counts_to_hex rapoint ++ "!")%string in
  let fdec := ("ESPt" ++ sprintf_d (axis_number PMC8_DEC_AXIS)
                      ++ convert_motor_counts_to_hex decpoint ++ "!")%string in
  exists b w',
    set_pmc8_target_position rapoint decpoint w = Some (b, w')
    /\ same_mount w w'
    /\ (b = true -> sent w' = sent w ++ [fra; fdec])
    /\ (result_of (set_pmc8_target_position_axis PMC8_RA_AXIS rapoint) w
        = Some false ->
        b = false /\ (sent w' = sent w \/ sent w' = sent w ++ [fra]))
    /\ (sent w' = sent w \/ sent w' = sent w ++ [fra]
        \/ sent w' = sent w ++ [fra; fdec]).
Proof.
  intros Hsim fra fdec.
  destruct (set_pmc8_target_position_run rapoint decpoint w Hsim)
    as (b & w' & E & M & T & F & S).
  exists b, w'. repeat split; try assumption; try apply M; now apply F.
Qed.

Lemma set_pmc8_target_position_stops_at_ra_witness :
  let w := real_world [Reply "ESGt0000001!"; Reply "ESGt1FFFFFF!"] in
  pmc8_simulation w = false
  /\ exists b w',
       set_pmc8_target_position 0 (-1) w = Some (b, w')
       /\ same_mount w w'
       /\ (b = true -> sent w' = sent w ++ ["ESPt0000000!"; "ESPt1FFFFFF!"]%string)
       /\ (result_of (set_pmc8_target_position_axis PMC8_RA_AXIS 0) w
           = Some false ->
           b = false
           /\ (sent w' = sent w \/ sent w' = sent w ++ ["ESPt0000000!"%string]))
       /\ (sent w' = sent w \/ sent w' = sent w ++ ["ESPt0000000!"%string]
           \/ sent w' = sent w ++ ["ESPt0000000!"; "ESPt1FFFFFF!"]%string).
Proof.
  intros w.
  assert (pmc8_simulation w = false) as A by reflexivity.
  exact (conj A (set_pmc8_target_position_stops_at_ra 0 (-1) w A)).
Defined.

(** ** PMC-Eight: slewing *)

Local Open Scope Q_scope.

Lemma destSideOfPier_known lst ra dec :
  destSideOfPier lst ra dec <> PIER_UNKNOWN.
Proof. unfold destSideOfPier. destruct (Qltb _ _); discriminate. Qed.

Section Slewing.

Variable lst : Q.
Hypothesis lst_range : 0 <= lst < 24.

(** For a target in range the two conversions succeed, on the side of the
    pier [destSideOfPier] chooses, whatever the declination the Dec count
    is taken from as long as it is in range. *)
Lemma target_counts_run ra dec dec_arg w :
  0 <= ra < 24 -> -90 <= dec_arg <= 90 ->
  exists racounts deccounts,
    target_counts lst ra dec dec_arg w = Some (Some (racounts, deccounts), w)
    /\ convert_ra_to_motor lst ra (destSideOfPier lst ra dec) = Counts racounts
    /\ convert_dec_to_motor dec_arg (destSideOfPier lst ra dec)
       = Counts deccounts
    /\ decode_encode racounts = racounts
    /\ decode_encode deccounts = deccounts.
Proof.
  intros Hra Hdec.
  destruct (convert_ra_to_motor_counts lst lst_range ra
              (destSideOfPier lst ra dec) Hra (destSideOfPier_known lst ra dec))
    as (rc & Er & Br).
  destruct (convert_dec_to_motor_counts dec_arg (destSideOfPier lst ra dec)
              Hdec (destSideOfPier_known lst ra dec))
    as (dc & Ed & BE & BW).
  exists rc, dc. unfold target_counts. rewrite Er, Ed.
  split; [reflexivity |]. split; [reflexivity |]. split; [reflexivity |].
  split; apply decode_encode_id; [lia |].
  destruct (destSideOfPier lst ra dec);
    [ exfalso; revert Ed; discriminate
    | specialize (BW eq_refl) | specialize (BE eq_refl) ]; lia.
Qed.

(** X8. In simulation a slew to a target in range returns [true], writes
    nothing and leaves the simulated position where it was: all it does is
    to set the status to slewing.  Nothing in the driver takes the status
    back: [abort_pmc8] returns [true] and changes nothing, and a jog is
    refused afterwards. *)
Theorem slew_pmc8_in_simulation (ra dec : Q) (w : world) :
  0 <= ra < 24 -> -90 <= dec <= 90 -> pmc8_simulation w = true ->
  exists w',
    slew_pmc8 lst ra dec w = Some (true, w')
    /\ systemStatus w' = ST_SLEWING
    /\ simPMC8Data w' = simPMC8Data w
    /\ pmc8_simulation w' = true
    /\ sent w' = sent w /\ line w' = line w
    /\ abort_pmc8 w' = Some (true, w')
    /\ (cast_int (trackRate (simPMC8Data w)) <> None ->
        forall dir mode, start_pmc8_motion dir mode w' = Some (false, w')).
Proof.
  intros Hra Hdec Hsim.
  destruct (target_counts_run ra dec dec w Hra Hdec)
    as (rc & dc & Et & _).
  destruct w as [sim d st snt ln]. cbn in Hsim. subst sim.
  exists (mkWorld true d ST_SLEWING snt ln).
  split.
  { unfold slew_pmc8. unfold bind at 1. rewrite Et. reflexivity. }
  repeat (split; [reflexivity |]).
  intros Hc dir mode. cbn in Hc.
  unfold start_pmc8_motion, get_pmc8_is_scope_slewing,
    get_pmc8_tracking_rate_axis, bind, gets, ret, defined.
  cbn -[cast_int].
  destruct (cast_int (trackRate d)); [reflexivity | congruence].
Qed.

End Slewing.

Lemma slew_pmc8_in_simulation_witness :
  let w := sim_world (mkSimData 4 45 0 0 15 0 (1 # 2)) ST_STOPPED in
  0 <= 10 < 24 /\ 0 <= 6 < 24 /\ -90 <= 20 <= 90
  /\ pmc8_simulation w = true
  /\ exists w',
       slew_pmc8 10 6 20 w = Some (true, w')
       /\ systemStatus w' = ST_SLEWING
       /\ simPMC8Data w' = simPMC8Data w
       /\ pmc8_simulation w' = true
       /\ sent w' = sent w /\ line w' = line w
       /\ abort_pmc8 w' = Some (true, w')
       /\ (cast_int (trackRate (simPMC8Data w)) <> None ->
           forall dir mode, start_pmc8_motion dir mode w' = Some (false, w')).
Proof.
  intros w.
  assert (0 <= 10 < 24) as A by lra.
  assert (0 <= 6 < 24) as B by lra.
  assert (-90 <= 20 <= 90) as C by lra.
  assert (pmc8_simulation w = true) as D by reflexivity.
  split; [exact A |]. split; [exact B |]. split; [exact C |].
  split; [exact D |].
  exact (slew_pmc8_in_simulation 10 A 6 20 w B C D).
Defined.

(** ** PMC-Eight: targets on the wire, as the machine computes them *)

Local Open Scope Q_scope.

Lemma machine_side_known lst ra dec :
  IEEE.destSideOfPier lst ra dec <> PIER_UNKNOWN.
Proof. unfold IEEE.destSideOfPier. destruct (Qltb _ _); discriminate. Qed.

Section MachineTargets.

Variable lst : Q.
Hypothesis lst_range : 0 <= lst < 24.

(** For a target in range the two conversions succeed, on the side of the
    pier [destSideOfPier] chooses, whatever the declination the Dec count
    is taken from as long as it is in range, and both counts go over the
    wire and come back unchanged. *)
Lemma machine_target_counts ra dec dec_arg w :
  0 <= ra < 24 -> -90 <= dec_arg <= 90 ->
  exists racounts deccounts,
    IEEE.target_counts lst ra dec dec_arg w
    = Some (Some (racounts, deccounts), w)
    /\ IEEE.convert_ra_to_motor lst ra (IEEE.destSideOfPier lst ra dec)
       = Counts racounts
    /\ IEEE.convert_dec_to_motor dec_arg (IEEE.destSideOfPier lst ra dec)
       = Counts deccounts
    /\ (-3456000 <= racounts <= 3456000)%Z
    /\ (-2304000 <= deccounts <= 2304000)%Z
    /\ decode_encode racounts = racounts
    /\ decode_encode deccounts = deccounts.
Proof.
  intros Hra Hdec.
  destruct (machine_ra_counts lst lst_range ra
              (IEEE.destSideOfPier lst ra dec) Hra
              (machine_side_known lst ra dec))
    as (rc & k & Er & _ & Br & _).
  destruct (machine_dec_counts dec_arg (IEEE.destSideOfPier lst ra dec)
              Hdec (machine_side_known lst ra dec))
    as (dc & Ed & Bd & _).
  exists rc, dc. unfold IEEE.target_counts. rewrite Er, Ed.
  split; [reflexivity |]. split; [reflexivity |]. split; [reflexivity |].
  split; [exact Br |]. split; [exact Bd |].
  split; apply decode_encode_id; lia.
Qed.

(** X7. Off simulation, at a sidereal time in [0, 24), a slew to a target
    with RA in [0, 24) and Dec in [-90, 90] never fails in the conversions:
    it always returns, and when it returns [true] it has written the target
    of the RA axis and then the target of the Dec axis, the counts the two
    converters compute for the target on the side of the pier
    [destSideOfPier] chooses, each in a field that reads back as the
    count. *)
Theorem slew_pmc8_frames (ra dec : Q) (w : world) :
  0 <= ra < 24 -> -90 <= dec <= 90 -> pmc8_simulation w = false ->
  exists racounts deccounts b w',
    IEEE.convert_ra_to_motor lst ra (IEEE.destSideOfPier lst ra dec)
    = Counts racounts
    /\ IEEE.convert_dec_to_motor dec (IEEE.destSideOfPier lst ra dec)
       = Counts deccounts
    /\ IEEE.slew_pmc8 lst ra dec w = Some (b, w')
    /\ same_mount w w'
    /\ (b = true ->
        sent w' = sent w
                  ++ [("ESPt0" ++ convert_motor_counts_to_hex racounts ++ "!")%string;
                      ("ESPt1" ++ convert_motor_counts_to_hex deccounts ++ "!")%string])
    /\ decode_encode racounts = racounts
    /\ decode_encode deccounts = deccounts.
Proof.
  intros Hra Hdec Hsim.
  destruct (machine_target_counts ra dec dec w Hra Hdec)
    as (rc & dc & Et & Er & Ed & _ & _ & Dr & Dd).
  destruct (set_pmc8_target_position_run rc dc w Hsim)
    as (b & w' & E & M & T & _ & _).
  exists rc, dc, b, w'.
  split; [exact Er |]. split; [exact Ed |].
  assert (pmc8_simulation w' = false) as Hsim'
      by (destruct M as (A & _); congruence).
  split; [| split; [exact M |]; split; [| split; assumption]].
  - unfold IEEE.slew_pmc8. unfold bind at 1. rewrite Et.
    unfold bind at 1. rewrite E.
    destruct b; cbn [negb]; [| reflexivity].
    unfold bind, gets, ret. rewrite Hsim'. reflexivity.
  - intros B. exact (T B).
Qed.

(** X9. [set_pmc8_radec] takes the Dec count from the right ascension: off
    simulation, for a right ascension in [0, 24), the Dec target it writes
    is the count [convert_dec_to_motor] computes for [ra] read as a
    declination in degrees, and its outcome is the same for every
    declination it is given.  In simulation it returns [false]. *)
Theorem set_pmc8_radec_takes_dec_from_ra (ra dec : Q) (w : world) :
  0 <= ra < 24 ->
  (pmc8_simulation w = false ->
   exists racounts deccounts b w',
     IEEE.convert_ra_to_motor lst ra (IEEE.destSideOfPier lst ra dec)
     = Counts racounts
     /\ IEEE.convert_dec_to_motor ra (IEEE.destSideOfPier lst ra dec)
        = Counts deccounts
     /\ IEEE.set_pmc8_radec lst ra dec w = Some (b, w')
     /\ (b = true ->
         sent w' = sent w
                   ++ [("ESPt0" ++ convert_motor_counts_to_hex racounts ++ "!")%string;
                       ("ESPt1" ++ convert_motor_counts_to_hex deccounts ++ "!")%string]))
  /\ (pmc8_simulation w = true ->
      IEEE.set_pmc8_radec lst ra dec w = Some (false, w))
  /\ (forall dec',
         IEEE.set_pmc8_radec lst ra dec' w = IEEE.set_pmc8_radec lst ra dec w).
Proof.
  intros Hra.
  assert (-90 <= ra <= 90) as Hdec by lra.
  destruct (machine_target_counts ra dec ra w Hra Hdec)
    as (rc & dc & Et & Er & Ed & _).
  split; [| split].
  - intros Hsim.
    destruct (set_pmc8_target_position_run rc dc w Hsim)
      as (b & w' & E & M & T & _ & _).
    exists rc, dc, b, w'.
    split; [exact Er |]. split; [exact Ed |]. split.
    + unfold IEEE.set_pmc8_radec. unfold bind at 1. rewrite Et.
      rewrite off_simulation by exact Hsim.
      unfold bind at 1. rewrite E. destruct b; reflexivity.
    + intros B. exact (T B).
  - intros Hsim. unfold IEEE.set_pmc8_radec. unfold bind at 1. rewrite Et.
    now rewrite in_simulation by exact Hsim.
  - intros dec'. reflexivity.
Qed.

(** X10. [sync_pmc8] never succeeds in simulation, where it returns [false]
    and changes nothing.  Off simulation, for a target in range, it always
    returns, and when it returns [true] it has written the position of the
    RA axis and then the position of the Dec axis, the counts the two
    converters compute for the target on the side of the pier
    [destSideOfPier] chooses. *)
Theorem sync_pmc8_frames (ra dec : Q) (w : world) :
  0 <= ra < 24 -> -90 <= dec <= 90 ->
  (pmc8_simulation w = true -> IEEE.sync_pmc8 lst ra dec w = Some (false, w))
  /\ (pmc8_simulation w = false ->
      exists racounts deccounts b w',
        IEEE.convert_ra_to_motor lst ra (IEEE.destSideOfPier lst ra dec)
        = Counts racounts
        /\ IEEE.convert_dec_to_motor dec (IEEE.destSideOfPier lst ra dec)
           = Counts deccounts
        /\ IEEE.sync_pmc8 lst ra dec w = Some (b, w')
        /\ same_mount w w'
        /\ (b = true ->
            sent w' = sent w
                      ++ [("ESSp0" ++ convert_motor_counts_to_hex racounts ++ "!")%string;
                          ("ESSp1" ++ convert_motor_counts_to_hex deccounts ++ "!")%string])).
Proof.
  intros Hra Hdec.
  destruct (machine_target_counts ra dec dec w Hra Hdec)
    as (rc & dc & Et & Er & Ed & _).
  split.
  - intros Hsim. unfold IEEE.sync_pmc8. unfold bind at 1. rewrite Et.
    now rewrite in_simulation by exact Hsim.
  - intros Hsim.
    destruct (set_pmc8_position_run rc dc w Hsim)
      as (b & w' & E & M & T & _ & _).
    exists rc, dc, b, w'.
    split; [exact Er |]. split; [exact Ed |].
    split; [| split; [exact M | intros B; exact (T B)]].
    unfold IEEE.sync_pmc8. unfold bind at 1. rewrite Et.
    rewrite off_simulation by exact Hsim.
    unfold bind at 1. rewrite E. destruct b; reflexivity.
Qed.


End MachineTargets.

Lemma set_pmc8_radec_takes_dec_from_ra_witness :
  let w := real_world [Reply "ESGt0017700!"; Reply "ESGt10E8CFF!"] in
  0 <= 10 < 24 /\ 0 <= 15.5 < 24
  /\ IEEE.convert_dec_to_motor 15.5 (IEEE.destSideOfPier 10 15.5 45)
     = Counts 953599
  /\ IEEE.set_pmc8_radec 10 15.5 45 w
     = Some (true, mkWorld false (simPMC8Data w) (systemStatus w)
                           ["ESPt0017700!"; "ESPt10E8CFF!"]%string [])
  /\ (forall dec',
         IEEE.set_pmc8_radec 10 15.5 dec' w = IEEE.set_pmc8_radec 10 15.5 45 w)
  /\ (pmc8_simulation w = false ->
      exists racounts deccounts b w',
        IEEE.convert_ra_to_motor 10 15.5 (IEEE.destSideOfPier 10 15.5 45)
        = Counts racounts
        /\ IEEE.convert_dec_to_motor 15.5 (IEEE.destSideOfPier 10 15.5 45)
           = Counts deccounts
        /\ IEEE.set_pmc8_radec 10 15.5 45 w = Some (b, w')
        /\ (b = true ->
            sent w' = sent w
                      ++ [("ESPt0" ++ convert_motor_counts_to_hex racounts ++ "!")%string;
                          ("ESPt1" ++ convert_motor_counts_to_hex deccounts ++ "!")%string])).
Proof.
  intros w.
  assert (0 <= 10 < 24) as A by lra.
  assert (0 <= 15.5 < 24) as B by lra.
  split; [exact A |]. split; [exact B |].
  split; [vm_compute; reflexivity |].
  split; [vm_compute; reflexivity |].
  destruct (set_pmc8_radec_takes_dec_from_ra 10 A 15.5 45 w B) as (F & _ & I).
  split; [exact I | exact F].
Defined.

Lemma sync_pmc8_frames_witness :
  let w := real_world [Reply "ESGp0000000!"; Reply "ESGp1F31C01!"] in
  0 <= 10 < 24 /\ 0 <= 4 < 24 /\ -90 <= 24 <= 90
  /\ IEEE.convert_dec_to_motor 24 (IEEE.destSideOfPier 10 4 24)
     = Counts (-844799)
  /\ (pmc8_simulation w = true -> IEEE.sync_pmc8 10 4 24 w = Some (false, w))
  /\ (pmc8_simulation w = false ->
      exists racounts deccounts b w',
        IEEE.convert_ra_to_motor 10 4 (IEEE.destSideOfPier 10 4 24)
        = Counts racounts
        /\ IEEE.convert_dec_to_motor 24 (IEEE.destSideOfPier 10 4 24)
           = Counts deccounts
        /\ IEEE.sync_pmc8 10 4 24 w = Some (b, w')
        /\ same_mount w w'
        /\ (b = true ->
            sent w' = sent w
                      ++ [("ESSp0" ++ convert_motor_counts_to_hex racounts ++ "!")%string;
                          ("ESSp1" ++ convert_motor_counts_to_hex deccounts ++ "!")%string])).
Proof.
  intros w.
  assert (0 <= 10 < 24) as A by lra.
  assert (0 <= 4 < 24) as B by lra.
  assert (-90 <= 24 <= 90) as C by lra.
  split; [exact A |]. split; [exact B |]. split; [exact C |].
  split; [vm_compute; reflexivity |].
  exact (sync_pmc8_frames 10 A 4 24 w B C).
Defined.

Lemma slew_pmc8_frames_witness :
  let w := real_world [Reply "ESGt0000000!"; Reply "ESGt1F31C01!"] in
  0 <= 10 < 24 /\ 0 <= 4 < 24 /\ -90 <= 24 <= 90
  /\ pmc8_simulation w = false
  /\ IEEE.slew_pmc8 10 4 24 w
     = Some (true, mkWorld false (simPMC8Data w) (systemStatus w)
                           ["ESPt0000000!"; "ESPt1F31C01!"]%string [])
  /\ exists racounts deccounts b w',
       IEEE.convert_ra_to_motor 10 4 (IEEE.destSideOfPier 10 4 24)
       = Counts racounts
       /\ IEEE.convert_dec_to_motor 24 (IEEE.destSideOfPier 10 4 24)
          = Counts deccounts
       /\ IEEE.slew_pmc8 10 4 24 w = Some (b, w')
       /\ same_mount w w'
       /\ (b = true ->
           sent w' = sent w
                     ++ [("ESPt0" ++ convert_motor_counts_to_hex racounts ++ "!")%string;
                         ("ESPt1" ++ convert_motor_counts_to_hex deccounts ++ "!")%string])
       /\ decode_encode racounts = racounts
       /\ decode_encode deccounts = deccounts.
Proof.
  intros w.
  assert (0 <= 10 < 24) as A by lra.
  assert (0 <= 4 < 24) as B by lra.
  assert (-90 <= 24 <= 90) as C by lra.
  assert (pmc8_simulation w = false) as D by reflexivity.
  split; [exact A |]. split; [exact B |]. split; [exact C |].
  split; [exact D |]. split; [vm_compute; reflexivity |].
  exact (slew_pmc8_frames 10 A 4 24 w B C D).
Defined.


(** ** PMC-Eight: reading the position *)

Local Open Scope Z_scope.

Lemma str_take_append a b : str_take (String.length a) (a ++ b) = a.
Proof. induction a as [| c a IH]; simpl; [now destruct b | now rewrite IH]. Qed.

Lemma str_drop_append a b : str_drop (String.length a) (a ++ b) = b.
Proof. induction a as [| c a IH]; simpl; [reflexivity | exact IH]. Qed.

(** The field of a reply to a position query. *)
Lemma axispos_of_reply (head : string) (point : Z) :
  String.length head = 5%nat ->
  axispos_of_field
    (str_drop 5 (head ++ convert_motor_counts_to_hex point ++ "!"))
  = axispos_of_field (convert_motor_counts_to_hex point).
Proof.
  intros H. rewrite <- H, str_drop_append.
  unfold axispos_of_field.
  pose proof (length_convert_motor_counts_to_hex point) as L.
  assert (str_take 6 (convert_motor_counts_to_hex point ++ "!")
          = convert_motor_counts_to_hex point) as ->
      by (rewrite <- L; apply str_take_append).
  assert (str_take 6 (convert_motor_counts_to_hex point)
          = convert_motor_counts_to_hex point) as ->
      by (rewrite <- L at 1; apply str_take_all).
  reflexivity.
Qed.

Lemma get_pmc8_position_axis_reply axis point rest w :
  pmc8_simulation w = false ->
  line w = Reply ("ESGp" ++ sprintf_d (axis_number axis)
                         ++ convert_motor_counts_to_hex point ++ "!") :: rest ->
  get_pmc8_position_axis axis w
  = Some (Position (axispos_of_field (convert_motor_counts_to_hex point)),
          exchanged ("ESGp" ++ sprintf_d (axis_number axis) ++ "!") rest w).
Proof.
  intros Hsim L. unfold get_pmc8_position_axis.
  rewrite off_simulation by exact Hsim.
  set (reply := ("ESGp" ++ sprintf_d (axis_number axis)
                        ++ convert_motor_counts_to_hex point ++ "!")%string) in *.
  assert (String.length reply = 12%nat) as Lr
      by (apply length_position_frame; reflexivity).
  etransitivity.
  - apply (exchange_reply _ 12 NoPosition
             (fun response =>
                if negb (String.length response =? 12)%nat then ret NoPosition
                else ret (Position (axispos_of_field (str_drop 5 response))))
             w reply rest L).
    now rewrite Lr.
  - cbv beta.
    assert (str_take 12 reply = reply) as ->
        by (rewrite <- Lr; apply str_take_all).
    rewrite Lr. cbn [Nat.eqb negb]. unfold ret. f_equal. f_equal. f_equal.
    unfold reply.
    change ("ESGp" ++ sprintf_d (axis_number axis)
                   ++ convert_motor_counts_to_hex point ++ "!")%string
      with (("ESGp" ++ sprintf_d (axis_number axis))
              ++ convert_motor_counts_to_hex point ++ "!")%string.
    apply axispos_of_reply. destruct axis; reflexivity.
Qed.

(** X11. Off simulation, when the mount answers the two position queries
    with the fields of counts in (-2^23, 2^23], [get_pmc8_position] asks the
    RA axis and then the Dec axis and returns those counts.  In simulation
    [get_pmc8_position_axis] returns [true] without a position, and
    [get_pmc8_position] converts two variables that were never assigned. *)
Theorem get_pmc8_position_reads_counts (rapoint decpoint : Z)
        (rest : list line_event) (w : world) :
  - 2 ^ 23 < rapoint <= 2 ^ 23 -> - 2 ^ 23 < decpoint <= 2 ^ 23 ->
  (pmc8_simulation w = false ->
   line w = Reply ("ESGp0" ++ convert_motor_counts_to_hex rapoint ++ "!")
            :: Reply ("ESGp1" ++ convert_motor_counts_to_hex decpoint ++ "!")
            :: rest ->
   exists w',
     get_pmc8_position w = Some (Some (rapoint, decpoint), w')
     /\ sent w' = sent w ++ ["ESGp0!"; "ESGp1!"]%string
     /\ line w' = rest /\ same_mount w w')
  /\ (pmc8_simulation w = true -> get_pmc8_position w = None).
Proof.
  intros Hr Hd. split.
  - intros Hsim L.
    pose proof (get_pmc8_position_axis_reply PMC8_RA_AXIS rapoint _ w Hsim L)
      as E1.
    set (w1 := exchanged ("ESGp" ++ sprintf_d (axis_number PMC8_RA_AXIS) ++ "!")
                         (Reply ("ESGp1" ++ convert_motor_counts_to_hex decpoint
                                         ++ "!") :: rest) w) in *.
    assert (pmc8_simulation w1 = false) as Hsim1 by exact Hsim.
    pose proof (get_pmc8_position_axis_reply PMC8_DEC_AXIS decpoint rest w1
                  Hsim1 eq_refl) as E2.
    eexists. split.
    + unfold get_pmc8_position. unfold bind at 1. rewrite E1.
      unfold bind at 1. rewrite E2. unfold ret.
      pose proof (decode_encode_id rapoint Hr) as Dr.
      pose proof (decode_encode_id decpoint Hd) as Dd.
      unfold decode_encode in Dr, Dd. rewrite Dr, Dd. reflexivity.
    + split; [| split; [reflexivity | repeat split]].
      cbn [sent exchanged w1]. rewrite <- app_assoc. reflexivity.
  - intros Hsim.
    assert (forall axis,
               get_pmc8_position_axis axis w = Some (PositionNotStored, w)) as E.
    { intros axis. unfold get_pmc8_position_axis.
      now rewrite in_simulation by exact Hsim. }
    unfold get_pmc8_position. unfold bind at 1. rewrite E.
    unfold bind at 1. rewrite E. reflexivity.
Qed.

Lemma get_pmc8_position_reads_counts_witness :
  let w := real_world [Reply "ESGp0000000!"; Reply "ESGp1F73600!"] in
  - 2 ^ 23 < 0 <= 2 ^ 23 /\ - 2 ^ 23 < -576000 <= 2 ^ 23
  /\ pmc8_simulation w = false
  /\ exists w',
       get_pmc8_position w = Some (Some (0, -576000), w')
       /\ sent w' = sent w ++ ["ESGp0!"; "ESGp1!"]%string
       /\ line w' = [] /\ same_mount w w'.
Proof.
  intros w.
  assert (- 2 ^ 23 < 0 <= 2 ^ 23) as A by lia.
  assert (- 2 ^ 23 < -576000 <= 2 ^ 23) as B by lia.
  assert (pmc8_simulation w = false) as C by reflexivity.
  split; [exact A |]. split; [exact B |]. split; [exact C |].
  destruct (get_pmc8_position_reads_counts 0 (-576000) [] w A B) as [H _].
  exact (H C eq_refl).
Defined.

(** ** PMC-Eight: the position the simulated mount reports *)

Local Open Scope Q_scope.

Section SimulatedPosition.

Variable lst : Q.
Hypothesis lst_range : 0 <= lst < 24.

Lemma cast_int_comp q q' : q == q' -> cast_int q = cast_int q'.
Proof. intros E. unfold cast_int. now rewrite (Qtrunc_comp q q' E). Qed.

(** X13. In simulation, setting the status to parked puts the simulated
    mount six hours east of the meridian at the pole, which is the position
    of motor counts (0, 0), the target [park_pmc8] commands: the counts of
    the simulated position are (0, 0), and [get_pmc8_coords] reports
    declination 90 and the right ascension LST + 6 hours, taken into
    [0, 24). *)
Theorem parked_simulation_is_home (w : world) :
  pmc8_simulation w = true ->
  let w' := state_after (set_pmc8_sim_system_status lst ST_PARKED) w in
  systemStatus w' = ST_PARKED
  /\ sim_dec (simPMC8Data w') = 90
  /\ target_counts lst (sim_ra (simPMC8Data w')) (sim_dec (simPMC8Data w'))
                   (sim_dec (simPMC8Data w')) w'
     = Some (Some (0, 0)%Z, w')
  /\ exists ra' dec',
       get_pmc8_coords lst w' = Some (Some (ra', dec'), w')
       /\ dec' == 90 /\ 0 <= ra' < 24
       /\ (ra' == lst + 6 \/ ra' == lst + 6 - 24).
Proof.
  intros Hsim w'.
  destruct w as [sim d st snt ln]. cbn in Hsim. subst sim.
  set (ra := if Qltb 24 (lst + 6) then lst + 6 - 24 else lst + 6).
  assert (w' = mkWorld true
                 (mkSimData ra 90 (raDirection d) (decDirection d)
                            (trackRate d) (moveRate d) (guide_rate d))
                 ST_PARKED snt ln) as Ew by reflexivity.
  clearbody w'. subst w'. cbn [systemStatus simPMC8Data sim_ra sim_dec].
  split; [reflexivity |]. split; [reflexivity |].
  assert (hour_angle_of lst ra == -6) as Hha
      by (unfold hour_angle_of, ra; split_cmp; lra).
  assert (destSideOfPier lst ra 90 = PIER_WEST) as Hside.
  { unfold destSideOfPier.
    destruct (Qltb (hour_angle_of lst ra) 0) eqn:E; [reflexivity |].
    apply Qltb_false in E. lra. }
  assert (convert_ra_to_motor lst ra PIER_WEST = Counts 0) as Hra.
  { unfold convert_ra_to_motor.
    rewrite (cast_int_comp _ 0); [reflexivity |].
    rewrite Hha. reflexivity. }
  assert (forall v,
             target_counts lst ra 90 90 v = Some (Some (0, 0)%Z, v)) as Ht.
  { intros v. unfold target_counts. rewrite Hside, Hra. reflexivity. }
  split; [apply Ht |].
  eexists; eexists. split.
  - unfold get_pmc8_coords, bind, gets.
    cbn [pmc8_simulation simPMC8Data sim_ra sim_dec].
    rewrite Ht. reflexivity.
  - unfold convert_motor_to_radec. cbn [Z.ltb Z.compare].
    split; [reflexivity |].
    set (a1 := 24 * inject_Z 0 / PMC8_AXIS0_SCALE).
    assert (a1 == 0) as Ea1 by reflexivity.
    clearbody a1.
    split; split_cmp; first [lra | left; lra | right; lra].
Qed.

End SimulatedPosition.

Lemma parked_simulation_is_home_witness :
  let w := sim_world (mkSimData 4 45 0 0 15 0 (1 # 2)) ST_STOPPED in
  let w' := state_after (set_pmc8_sim_system_status 20 ST_PARKED) w in
  0 <= 20 < 24
  /\ pmc8_simulation w = true
  /\ systemStatus w' = ST_PARKED
  /\ sim_dec (simPMC8Data w') = 90
  /\ target_counts 20 (sim_ra (simPMC8Data w')) (sim_dec (simPMC8Data w'))
                   (sim_dec (simPMC8Data w')) w'
     = Some (Some (0, 0)%Z, w')
  /\ exists ra' dec',
       get_pmc8_coords 20 w' = Some (Some (ra', dec'), w')
       /\ dec' == 90 /\ 0 <= ra' < 24
       /\ (ra' == 20 + 6 \/ ra' == 20 + 6 - 24).
Proof.
  intros w w'.
  assert (0 <= 20 < 24) as A by lra.
  assert (pmc8_simulation w = true) as B by reflexivity.
  split; [exact A |]. split; [exact B |].
  exact (parked_simulation_is_home 20 A w B).
Defined.

(** ** PMC-Eight: move rates *)

Local Open Scope Q_scope.

(** The direction command off simulation: one frame, acknowledged or
    not. *)
Lemma set_pmc8_direction_axis_run axis dir w :
  pmc8_simulation w = false ->
  exists b w1,
    set_pmc8_direction_axis axis dir w = Some (b, w1)
    /\ same_mount w w1
    /\ (b = true ->
        sent w1 = sent w ++ [("ESSd" ++ sprintf_d (axis_number axis)
                                     ++ sprintf_d dir ++ "!")%string])
    /\ (sent w1 = sent w
        \/ sent w1 = sent w ++ [("ESSd" ++ sprintf_d (axis_number axis)
                                        ++ sprintf_d dir ++ "!")%string]).
Proof.
  intros Hsim. unfold set_pmc8_direction_axis.
  assert (forall (c : PMC bool) (d : PMC bool),
             (sim <- gets pmc8_simulation ;;
              if sim then
                match axis with
                | PMC8_RA_AXIS => c
                | PMC8_DEC_AXIS => d
                end
              else
                ok <- tty_write ("ESSd" ++ sprintf_d (axis_number axis)
                                        ++ sprintf_d dir ++ "!") ;;
                if negb ok then ret false else
                r <- tty_read 7 ;;
                match r with
                | None => ret false
                | Some response =>
                    if negb (String.length response =? 7)%nat
                    then ret false else ret true
                end)%cmd w
             = (ok <- tty_write ("ESSd" ++ sprintf_d (axis_number axis)
                                        ++ sprintf_d dir ++ "!") ;;
                if negb ok then ret false else
                r <- tty_read 7 ;;
                match r with
                | None => ret false
                | Some response =>
                    if negb (String.length response =? 7)%nat
                    then ret false else ret true
                end)%cmd w) as E.
  { intros c d. unfold bind at 1. unfold gets at 1. now rewrite Hsim. }
  rewrite E. clear E.
  set (cmd := ("ESSd" ++ sprintf_d (axis_number axis) ++ sprintf_d dir ++ "!")%string).
  destruct (exchange_cases cmd 7 false
              (fun response =>
                 if negb (String.length response =? 7)%nat
                 then ret false else ret true) w)
    as [(w1 & E & M & S) | (bytes & rest & L & Hl & E)].
  - exists false, w1. split; [exact E |]. split; [exact M |].
    split; [discriminate | exact S].
  - eexists; eexists. split.
    + etransitivity; [exact E |]. cbv beta.
      rewrite length_str_take by exact Hl. reflexivity.
    + split; [apply same_mount_exchanged |].
      split; [intros _; reflexivity | right; reflexivity].
Qed.

(** The direction command in simulation. *)
Lemma set_pmc8_direction_axis_simulated axis dir w :
  pmc8_simulation w = true ->
  exists w1,
    set_pmc8_direction_axis axis dir w = Some (true, w1)
    /\ pmc8_simulation w1 = true /\ sent w1 = sent w /\ line w1 = line w
    /\ systemStatus w1 = systemStatus w.
Proof.
  intros Hsim. destruct w as [sim d st snt ln]. cbn in Hsim. subst sim.
  destruct axis; eexists; (split; [reflexivity |]); repeat split.
Qed.

(** The motor rate of a move rate the guards let through. *)
Lemma convert_move_rate_to_motor_guarded rate :
  Qabs rate <= 3840 ->
  exists rateval,
    convert_move_rate_to_motor (Qabs rate) = Some rateval
    /\ (0 <= rateval <= 3840)%Z
    /\ to_unsigned rateval = rateval.
Proof.
  intros H. unfold convert_move_rate_to_motor.
  pose proof (Qabs_nonneg rate) as P.
  set (v := Qabs rate * (PMC8_AXIS0_SCALE / ARCSEC_IN_CIRCLE)).
  assert (v == Qabs rate * (32 # 9)) as Ev
      by (unfold v, PMC8_AXIS0_SCALE, ARCSEC_IN_CIRCLE; field).
  destruct (cast_int_between v 0 13654) as (c & -> & B & _); try lia.
  { change (inject_Z 0) with 0. change (inject_Z 13654) with 13654. lra. }
  exists (clamp_rate PMC8_MAX_MOVE_MOTOR_RATE c).
  split; [reflexivity |].
  assert (0 <= clamp_rate PMC8_MAX_MOVE_MOTOR_RATE c <= 3840)%Z as R.
  { unfold clamp_rate, PMC8_MAX_MOVE_MOTOR_RATE.
    destruct (Z.gtb_spec c (256 * 15)); [lia |].
    destruct (Z.ltb_spec c (- (256 * 15))); lia. }
  split; [exact R |].
  unfold to_unsigned, UINT_MOD. apply Z.mod_small. lia.
Qed.

(** [set_pmc8_axis_move_rate] after its direction command. *)
Lemma set_pmc8_axis_move_rate_after_direction axis rate rateval w :
  convert_move_rate_to_motor (Qabs rate) = Some rateval ->
  to_unsigned rateval = rateval ->
  set_pmc8_axis_move_rate axis rate w
  = match set_pmc8_direction_axis axis (if Qltb rate 0 then 0%Z else 1%Z) w with
    | Some (true, w1) =>
        if pmc8_simulation w1
        then Some (true, set_simPMC8Data (set_moveRate rate (simPMC8Data w1)) w1)
        else
          (ok <- tty_write ("ESSr" ++ sprintf_d (axis_number axis)
                                   ++ sprintf_0X 4 rateval ++ "!") ;;
           if negb ok then ret false else
           r <- tty_read (String.length
                            ("ESSr" ++ sprintf_d (axis_number axis)
                                    ++ sprintf_0X 4 rateval ++ "!")) ;;
           match r with
           | None => ret false
           | Some response =>
               if (String.length response =? 10)%nat
               then ret true else ret false
           end)%cmd w1
    | Some (false, w1) => Some (false, w1)
    | None => None
    end.
Proof.
  intros Ec Eu. unfold set_pmc8_axis_move_rate. unfold bind at 1.
  destruct (Qltb rate 0);
    (destruct (set_pmc8_direction_axis axis _ w) as [[[] w1] |];
     cbn [negb]; [| reflexivity | reflexivity]);
    rewrite Ec; unfold defined; unfold bind at 1; unfold ret at 1;
    rewrite Eu; unfold bind at 1; unfold gets at 1;
    destruct (pmc8_simulation w1); reflexivity.
Qed.

(** A move rate: the direction of the axis first, 0 below zero and 1
    otherwise, then the size of the rate. *)
Lemma set_pmc8_axis_move_rate_run axis rate w :
  Qabs rate <= 3840 ->
  exists rateval,
    convert_move_rate_to_motor (Qabs rate) = Some rateval
    /\ (0 <= rateval <= 3840)%Z
    /\ (pmc8_simulation w = true ->
        exists w',
          set_pmc8_axis_move_rate axis rate w = Some (true, w')
          /\ pmc8_simulation w' = true /\ sent w' = sent w
          /\ line w' = line w /\ systemStatus w' = systemStatus w)
    /\ (pmc8_simulation w = false ->
        let fdir := ("ESSd" ++ sprintf_d (axis_number axis)
                            ++ (if Qltb rate 0 then "0" else "1") ++ "!")%string in
        let frate := ("ESSr" ++ sprintf_d (axis_number axis)
                             ++ sprintf_0X 4 rateval ++ "!")%string in
        exists b w' k,
          set_pmc8_axis_move_rate axis rate w = Some (b, w')
          /\ same_mount w w'
          /\ sent w' = sent w ++ firstn k [fdir; frate]
          /\ (b = true -> k = 2%nat)).
Proof.
  intros Hr.
  destruct (convert_move_rate_to_motor_guarded rate Hr) as (rv & Ec & Rv & Eu).
  exists rv. split; [exact Ec |]. split; [exact Rv |]. split.
  - intros Hsim.
    destruct (set_pmc8_direction_axis_simulated axis
                (if Qltb rate 0 then 0%Z else 1%Z) w Hsim)
      as (w1 & E1 & S1 & T1 & L1 & St1).
    rewrite (set_pmc8_axis_move_rate_after_direction axis rate rv w Ec Eu), E1, S1.
    eexists. split; [reflexivity |]. repeat split; assumption.
  - intros Hsim fdir frate.
    destruct (set_pmc8_direction_axis_run axis
                (if Qltb rate 0 then 0%Z else 1%Z) w Hsim)
      as (b1 & w1 & E1 & M1 & T1 & S1).
    assert (("ESSd" ++ sprintf_d (axis_number axis)
                    ++ sprintf_d (if Qltb rate 0 then 0%Z else 1%Z) ++ "!")%string
            = fdir) as Ef by (unfold fdir; destruct (Qltb rate 0); reflexivity).
    rewrite Ef in T1, S1.
    assert (pmc8_simulation w1 = false) as Hsim1
        by (destruct M1 as (A & _); congruence).
    rewrite (set_pmc8_axis_move_rate_after_direction axis rate rv w Ec Eu), E1.
    fold frate.
    destruct b1.
    + rewrite Hsim1.
      destruct (exchange_cases frate (String.length frate) false
                  (fun response =>
                     if (String.length response =? 10)%nat
                     then ret true else ret false) w1)
        as [(w2 & E & M & S) | (bytes & rest & L & Hl & E)].
      * exists false, w2.
        destruct S as [S | S].
        -- exists 1%nat. split; [exact E |].
           split; [exact (same_mount_trans _ _ _ M1 M) |].
           split; [| discriminate].
           rewrite S, (T1 eq_refl). reflexivity.
        -- exists 2%nat. split; [exact E |].
           split; [exact (same_mount_trans _ _ _ M1 M) |].
           split; [| discriminate].
           rewrite S, (T1 eq_refl), <- app_assoc. reflexivity.
      * destruct (String.length (str_take (String.length frate) bytes) =? 10)%nat
          eqn:E10.
        -- exists true, (exchanged frate rest w1), 2%nat.
           split; [etransitivity; [exact E | reflexivity] |].
           split; [exact (same_mount_trans _ _ _ M1
                            (same_mount_exchanged _ _ _)) |].
           split; [| reflexivity].
           cbn [sent exchanged]. rewrite (T1 eq_refl), <- app_assoc.
           reflexivity.
        -- exists false, (exchanged frate rest w1), 2%nat.
           split; [etransitivity; [exact E | reflexivity] |].
           split; [exact (same_mount_trans _ _ _ M1
                            (same_mount_exchanged _ _ _)) |].
           split; [| discriminate].
           cbn [sent exchanged]. rewrite (T1 eq_refl), <- app_assoc.
           reflexivity.
    + exists false, w1.
      destruct S1 as [S1 | S1].
      * exists 0%nat. split; [reflexivity |]. split; [exact M1 |].
        split; [| discriminate]. rewrite S1. cbn. now rewrite app_nil_r.
      * exists 1%nat. split; [reflexivity |]. split; [exact M1 |].
        split; [| discriminate]. exact S1.
Qed.

(** X14. Off simulation, a move rate of size at most 3840 arcsec/s that
    [set_pmc8_axis_move_rate] reports as set went out as two frames: the
    direction of the axis, 0 for a rate below zero and 1 otherwise, and then
    the motor rate of the size of the rate, between 0 and 3840, which is the
    same for a rate and its opposite. *)
Theorem move_rate_sign_is_direction (axis : PMC8_AXIS) (rate : Q)
        (w w' : world) :
  pmc8_simulation w = false -> Qabs rate <= 3840 ->
  set_pmc8_axis_move_rate axis rate w = Some (true, w') ->
  exists rateval,
    convert_move_rate_to_motor (Qabs rate) = Some rateval
    /\ convert_move_rate_to_motor (Qabs (- rate)) = Some rateval
    /\ (0 <= rateval <= 3840)%Z
    /\ sent w' = sent w
                 ++ [("ESSd" ++ sprintf_d (axis_number axis)
                             ++ (if Qltb rate 0 then "0" else "1") ++ "!")%string;
                     ("ESSr" ++ sprintf_d (axis_number axis)
                             ++ sprintf_0X 4 rateval ++ "!")%string].
Proof.
  intros Hsim Hr H.
  destruct (set_pmc8_axis_move_rate_run axis rate w Hr)
    as (rv & Ec & Rv & _ & Hoff).
  destruct (Hoff Hsim) as (b & w1 & k & E & _ & S & K).
  rewrite H in E. injection E as <- <-.
  rewrite (K eq_refl) in S.
  exists rv. split; [exact Ec |]. split; [| split; [exact Rv | exact S]].
  rewrite <- Ec. unfold convert_move_rate_to_motor.
  rewrite (cast_int_comp (Qabs (- rate) * (PMC8_AXIS0_SCALE / ARCSEC_IN_CIRCLE))
             (Qabs rate * (PMC8_AXIS0_SCALE / ARCSEC_IN_CIRCLE))).
  - reflexivity.
  - now rewrite Qabs_opp.
Qed.

Lemma move_rate_sign_is_direction_witness :
  let w := real_world [Reply "ESSd00!"; Reply "ESSr003555"] in
  let w' := state_after (set_pmc8_axis_move_rate PMC8_RA_AXIS (-3840)) w in
  pmc8_simulation w = false /\ Qabs (-3840) <= 3840
  /\ set_pmc8_axis_move_rate PMC8_RA_AXIS (-3840) w = Some (true, w')
  /\ exists rateval,
       convert_move_rate_to_motor (Qabs (-3840)) = Some rateval
       /\ convert_move_rate_to_motor (Qabs (- -3840)) = Some rateval
       /\ (0 <= rateval <= 3840)%Z
       /\ sent w' = sent w
                    ++ [("ESSd" ++ sprintf_d (axis_number PMC8_RA_AXIS)
                                ++ (if Qltb (-3840) 0 then "0" else "1") ++ "!")%string;
                        ("ESSr" ++ sprintf_d (axis_number PMC8_RA_AXIS)
                                ++ sprintf_0X 4 rateval ++ "!")%string].
Proof.
  intros w w'.
  assert (pmc8_simulation w = false) as A by reflexivity.
  assert (Qabs (-3840) <= 3840) as B by (vm_compute; discriminate).
  assert (set_pmc8_axis_move_rate PMC8_RA_AXIS (-3840) w = Some (true, w')) as C
      by (vm_compute; reflexivity).
  split; [exact A |]. split; [exact B |]. split; [exact C |].
  exact (move_rate_sign_is_direction PMC8_RA_AXIS (-3840) w w' A B C).
Defined.

(** ** PMC-Eight: jogging and stopping *)

Lemma convert_movespeedindex_to_rate_range mode :
  (0 <= convert_movespeedindex_to_rate mode <= 3840)%Z.
Proof.
  destruct (Z_lt_le_dec mode 0) as [N | P].
  - rewrite convert_movespeedindex_to_rate_other by lia. lia.
  - destruct (Z_lt_le_dec 3 mode) as [B | S].
    + rewrite convert_movespeedindex_to_rate_other by lia. lia.
    + assert (mode = 0 \/ mode = 1 \/ mode = 2 \/ mode = 3)%Z
        as [-> | [-> | [-> | ->]]] by lia; cbn; lia.
Qed.

Lemma Qabs_inject_Z_le z n :
  (- n <= z <= n)%Z -> Qabs (inject_Z z) <= inject_Z n.
Proof.
  intros H. apply Qabs_Qle_condition.
  rewrite <- inject_Z_opp, <- !Zle_Qle. exact H.
Qed.

(** Within the guard a custom move rate always returns, in either mode. *)
Lemma set_pmc8_axis_move_rate_returns axis rate w :
  Qabs rate <= 3840 ->
  exists b w', set_pmc8_axis_move_rate axis rate w = Some (b, w')
               /\ pmc8_simulation w' = pmc8_simulation w.
Proof.
  intros Hr.
  destruct (set_pmc8_axis_move_rate_run axis rate w Hr)
    as (rv & _ & _ & Hin & Hoff).
  destruct (pmc8_simulation w) eqn:Hsim.
  - destruct (Hin eq_refl) as (w' & E & S & _).
    exists true, w'. now split.
  - destruct (Hoff eq_refl) as (b & w' & k & E & (S & _) & _).
    exists b, w'. split; [exact E | congruence].
Qed.

Lemma custom_move_rates_return rate w :
  Qabs rate <= 3840 ->
  (exists b w', set_pmc8_custom_ra_move_rate rate w = Some (b, w')
                /\ pmc8_simulation w' = pmc8_simulation w)
  /\ (exists b w', set_pmc8_custom_dec_move_rate rate w = Some (b, w')
                   /\ pmc8_simulation w' = pmc8_simulation w).
Proof.
  intros Hr.
  unfold set_pmc8_custom_ra_move_rate, set_pmc8_custom_dec_move_rate.
  destruct (Qltb (inject_Z PMC8_MAX_MOVE_MOTOR_RATE) (Qabs rate)).
  - split; exists false, w; split; reflexivity.
  - split; now apply set_pmc8_axis_move_rate_returns.
Qed.

(** X15. [start_pmc8_motion] reports no failure of the rate commands: once
    the mount is found not to be slewing it returns [true] whatever
    happens on the line afterwards, for every direction and every speed
    index.  It returns [false] only when the mount is slewing or the slewing
    test itself fails, and then nothing more is done. *)
Theorem start_pmc8_motion_reports_no_failure (dir : PMC8_DIRECTION)
        (mode : Z) (w w0 : world) (slewing : option bool) :
  get_pmc8_is_scope_slewing w = Some (slewing, w0) ->
  (slewing = Some false ->
   exists w', start_pmc8_motion dir mode w = Some (true, w'))
  /\ (slewing <> Some false ->
      start_pmc8_motion dir mode w = Some (false, w0)).
Proof.
  intros Hs. split.
  - intros ->.
    unfold start_pmc8_motion. unfold bind at 1. rewrite Hs.
    pose proof (convert_movespeedindex_to_rate_range mode) as R.
    set (r := convert_movespeedindex_to_rate mode) in *.
    assert ((if (r >? PMC8_MAX_MOVE_MOTOR_RATE)%Z
             then PMC8_MAX_MOVE_MOTOR_RATE
             else if (r <? - PMC8_MAX_MOVE_MOTOR_RATE)%Z
                  then (- PMC8_MAX_MOVE_MOTOR_RATE)%Z else r) = r) as ->.
    { unfold PMC8_MAX_MOVE_MOTOR_RATE.
      destruct (Z.gtb_spec r (256 * 15)); [lia |].
      destruct (Z.ltb_spec r (- (256 * 15))); lia. }
    set (rarate := match dir with
                   | PMC8_W => r
                   | PMC8_E => (- r)%Z
                   | _ => 0%Z
                   end).
    set (decrate := match dir with
                    | PMC8_N => r
                    | PMC8_S => (- r)%Z
                    | _ => 0%Z
                    end).
    assert (Qabs (inject_Z rarate) <= 3840) as Hra.
    { change 3840 with (inject_Z 3840). apply Qabs_inject_Z_le.
      unfold rarate. destruct dir; lia. }
    assert (Qabs (inject_Z decrate) <= 3840) as Hde.
    { change 3840 with (inject_Z 3840). apply Qabs_inject_Z_le.
      unfold decrate. destruct dir; lia. }
    clearbody rarate decrate.
    assert (exists w1,
               (if negb (rarate =? 0)%Z
                then set_pmc8_custom_ra_move_rate (inject_Z rarate) ;; ret tt
                else ret tt) w0 = Some (tt, w1)) as (w1 & E1).
    { destruct (negb (rarate =? 0)%Z); [| now exists w0].
      destruct (custom_move_rates_return (inject_Z rarate) w0 Hra)
        as [(b & w1 & E & _) _].
      exists w1. unfold bind. now rewrite E. }
    assert (exists w2,
               (if negb (decrate =? 0)%Z
                then set_pmc8_custom_dec_move_rate (inject_Z decrate) ;; ret tt
                else ret tt) w1 = Some (tt, w2)) as (w2 & E2).
    { destruct (negb (decrate =? 0)%Z); [| now exists w1].
      destruct (custom_move_rates_return (inject_Z decrate) w1 Hde)
        as [_ (b & w2 & E & _)].
      exists w2. unfold bind. now rewrite E. }
    exists w2. unfold bind at 1. rewrite E1.
    unfold bind at 1. rewrite E2. reflexivity.
  - intros Hn. unfold start_pmc8_motion. unfold bind at 1. rewrite Hs.
    destruct slewing as [[|] |]; [reflexivity | congruence | reflexivity].
Qed.

Lemma start_pmc8_motion_reports_no_failure_witness :
  let w := real_world [Reply "ESGr0000035!"; Reply "ESGr1000000!";
                       WriteFails] in
  let w0 := state_after get_pmc8_is_scope_slewing w in
  get_pmc8_is_scope_slewing w = Some (Some false, w0)
  /\ line w0 = [WriteFails]
  /\ exists w', start_pmc8_motion PMC8_N 2 w = Some (true, w').
Proof.
  intros w w0.
  assert (get_pmc8_is_scope_slewing w = Some (Some false, w0)) as A
      by (vm_compute; reflexivity).
  split; [exact A |]. split; [reflexivity |].
  destruct (start_pmc8_motion_reports_no_failure PMC8_N 2 w w0 (Some false) A)
    as [H _].
  exact (H eq_refl).
Defined.

(** The two frames that stop an axis. *)
Lemma stop_axis_run axis w :
  pmc8_simulation w = false ->
  exists b w' k,
    set_pmc8_axis_move_rate axis 0 w = Some (b, w')
    /\ same_mount w w'
    /\ sent w' = sent w
                 ++ firstn k [("ESSd" ++ sprintf_d (axis_number axis) ++ "1!")%string;
                              ("ESSr" ++ sprintf_d (axis_number axis) ++ "0000!")%string]
    /\ (b = true -> k = 2%nat).
Proof.
  intros Hsim.
  assert (Qabs 0 <= 3840) as Hr by (vm_compute; discriminate).
  destruct (set_pmc8_axis_move_rate_run axis 0 w Hr)
    as (rv & Ec & _ & _ & Hoff).
  assert (rv = 0%Z) as -> by (vm_compute in Ec; now injection Ec).
  exact (Hoff Hsim).
Qed.

(** X16. Off simulation [abort_pmc8] stops the RA axis and then the Dec
    axis, each with a direction frame and a rate frame: what it wrote is a
    prefix of those four frames, all four when it returns [true], and the Dec
    axis is commanded only after the RA axis was stopped.
    [stop_pmc8_motion] writes a prefix of the two frames of one axis, the
    Dec axis for north and south and the RA axis for west and east. *)
Theorem abort_pmc8_frames (w : world) :
  pmc8_simulation w = false ->
  (exists b w' k,
      abort_pmc8 w = Some (b, w')
      /\ same_mount w w'
      /\ sent w' = sent w ++ firstn k ["ESSd01!"; "ESSr00000!";
                                       "ESSd11!"; "ESSr10000!"]%string
      /\ (b = true -> k = 4%nat))
  /\ (forall dir,
         let axis := match dir with
                     | PMC8_N | PMC8_S => PMC8_DEC_AXIS
                     | PMC8_W | PMC8_E => PMC8_RA_AXIS
                     end in
         exists b w' k,
           stop_pmc8_motion dir w = Some (b, w')
           /\ same_mount w w'
           /\ sent w' = sent w
                        ++ firstn k [("ESSd" ++ sprintf_d (axis_number axis)
                                             ++ "1!")%string;
                                     ("ESSr" ++ sprintf_d (axis_number axis)
                                             ++ "0000!")%string]
           /\ (b = true -> k = 2%nat)).
Proof.
  intros Hsim. split.
  - unfold abort_pmc8. rewrite off_simulation by exact Hsim.
    unfold set_pmc8_custom_ra_move_rate, set_pmc8_custom_dec_move_rate.
    change (Qltb (inject_Z PMC8_MAX_MOVE_MOTOR_RATE) (Qabs 0)) with false.
    cbv iota.
    destruct (stop_axis_run PMC8_RA_AXIS w Hsim)
      as (b1 & w1 & k1 & E1 & M1 & S1 & K1).
    unfold bind at 1. rewrite E1.
    destruct b1; cbn [negb].
    + rewrite (K1 eq_refl) in S1.
      assert (pmc8_simulation w1 = false) as Hsim1
          by (destruct M1 as (A & _); congruence).
      destruct (stop_axis_run PMC8_DEC_AXIS w1 Hsim1)
        as (b2 & w2 & k2 & E2 & M2 & S2 & K2).
      unfold bind at 1. rewrite E2.
      exists b2, w2, (2 + k2)%nat.
      split; [destruct b2; reflexivity |].
      split; [exact (same_mount_trans _ _ _ M1 M2) |].
      split.
      * rewrite S2, S1, <- app_assoc. reflexivity.
      * intros B. now rewrite (K2 B).
    + exists false, w1, (Nat.min k1 2).
      split; [reflexivity |]. split; [exact M1 |].
      split; [| discriminate].
      rewrite S1. f_equal.
      destruct k1 as [| [| [| k1]]]; reflexivity.
  - intros dir axis.
    unfold stop_pmc8_motion, set_pmc8_custom_ra_move_rate,
      set_pmc8_custom_dec_move_rate.
    change (Qltb (inject_Z PMC8_MAX_MOVE_MOTOR_RATE) (Qabs 0)) with false.
    cbv iota.
    destruct dir; exact (stop_axis_run _ w Hsim).
Qed.

Lemma abort_pmc8_frames_witness :
  let w := real_world [Reply "ESSd01!"; Reply "ESSr00000!";
                       Reply "ESSd11!"; Reply "ESSr10000!"] in
  pmc8_simulation w = false
  /\ result_of abort_pmc8 w = Some true
  /\ sent (state_after abort_pmc8 w)
     = ["ESSd01!"; "ESSr00000!"; "ESSd11!"; "ESSr10000!"]%string.
Proof.
  intros w.
  assert (pmc8_simulation w = false) as A by reflexivity.
  split; [exact A |].
  destruct (abort_pmc8_frames w A) as [(b & w' & k & E & _ & S & K) _].
  unfold result_of, state_after. rewrite E.
  assert (b = true) as -> by (vm_compute in E; now injection E).
  split; [reflexivity |]. rewrite S, (K eq_refl). reflexivity.
Defined.

(** ** PMC-Eight: the rate converters as functions of the rate *)

Local Open Scope Q_scope.

Lemma Qtrunc_monotone p q : p <= q -> (Qtrunc p <= Qtrunc q)%Z.
Proof.
  intros H.
  destruct (Qlt_le_dec p 0) as [Pn | Pp]; destruct (Qlt_le_dec q 0) as [Qn | Qp].
  - rewrite !Qtrunc_ceiling by lra. now apply Qceiling_resp_le.
  - destruct (Qtrunc_sign p) as [_ Sp]. destruct (Qtrunc_sign q) as [Sq _].
    assert (p <= 0) as P0 by lra. specialize (Sp P0). specialize (Sq Qp). lia.
  - lra.
  - rewrite !Qtrunc_floor by lra. now apply Qfloor_resp_le.
Qed.

Lemma clamp_rate_monotone limit m n :
  (0 <= limit)%Z -> (m <= n)%Z -> (clamp_rate limit m <= clamp_rate limit n)%Z.
Proof.
  intros L H. unfold clamp_rate.
  destruct (Z.gtb_spec m limit); destruct (Z.gtb_spec n limit);
    destruct (Z.ltb_spec m (- limit)); destruct (Z.ltb_spec n (- limit)); lia.
Qed.

Lemma clamp_rate_at_limit limit m :
  (0 <= limit)%Z -> (limit <= m)%Z -> clamp_rate limit m = limit.
Proof.
  intros L H. unfold clamp_rate.
  destruct (Z.gtb_spec m limit); [reflexivity |].
  destruct (Z.ltb_spec m (- limit)); lia.
Qed.

Lemma cast_int_value q c : cast_int q = Some c -> c = Qtrunc q.
Proof.
  unfold cast_int. destruct (in_int (Qtrunc q)); [| discriminate].
  now intros [= <-].
Qed.

(** X17. Both rate converters are monotone in the rate and saturate: the
    track rate reaches its limit of 2641 at 2641 * 9 / 800 arcsec/s, just
    under twice the sidereal rate, and the move rate reaches its limit of
    3840 at 1080 arcsec/s, so that every faster move, the 3840 arcsec/s of
    speed index 3 among them, is sent as the motor rate of 1080 arcsec/s. *)
Theorem motor_rates_saturate (rate rate' : Q) (m m' n n' : Z) :
  rate <= rate' ->
  convert_precise_rate_to_motor rate = Some m ->
  convert_precise_rate_to_motor rate' = Some m' ->
  convert_move_rate_to_motor rate = Some n ->
  convert_move_rate_to_motor rate' = Some n' ->
  (m <= m')%Z /\ (n <= n')%Z
  /\ (2641 * (9 # 800) <= rate -> m = 2641%Z)
  /\ (1080 <= rate -> n = 3840%Z)
  /\ convert_move_rate_to_motor (inject_Z (convert_movespeedindex_to_rate 3))
     = convert_move_rate_to_motor 1080.
Proof.
  intros H Em Em' En En'.
  unfold convert_precise_rate_to_motor in Em, Em'.
  unfold convert_move_rate_to_motor in En, En'.
  set (k := PMC8_AXIS0_SCALE / ARCSEC_IN_CIRCLE) in *.
  assert (k == 32 # 9) as Ek by reflexivity.
  destruct (cast_int (25 * rate * k)) as [a |] eqn:Ea; [| discriminate Em].
  destruct (cast_int (25 * rate' * k)) as [a' |] eqn:Ea'; [| discriminate Em'].
  destruct (cast_int (rate * k)) as [b |] eqn:Eb; [| discriminate En].
  destruct (cast_int (rate' * k)) as [b' |] eqn:Eb'; [| discriminate En'].
  apply cast_int_value in Ea, Ea', Eb, Eb'.
  injection Em as <-. injection Em' as <-.
  injection En as <-. injection En' as <-.
  clearbody k.
  assert (a <= a')%Z as Ha
      by (subst a a'; apply Qtrunc_monotone; rewrite Ek; lra).
  assert (b <= b')%Z as Hb
      by (subst b b'; apply Qtrunc_monotone; rewrite Ek; lra).
  split; [apply clamp_rate_monotone; [unfold PMC8_MAX_PRECISE_MOTOR_RATE; lia
                                     | exact Ha] |].
  split; [apply clamp_rate_monotone; [unfold PMC8_MAX_MOVE_MOTOR_RATE; lia
                                     | exact Hb] |].
  split; [| split; [| reflexivity]].
  - intros S.
    assert (2641 <= a)%Z as La.
    { subst a. change 2641%Z with (Qtrunc 2641).
      apply Qtrunc_monotone. rewrite Ek. lra. }
    apply clamp_rate_at_limit; [unfold PMC8_MAX_PRECISE_MOTOR_RATE; lia |].
    exact La.
  - intros S.
    assert (3840 <= b)%Z as Lb.
    { subst b. change 3840%Z with (Qtrunc 3840).
      apply Qtrunc_monotone. rewrite Ek. lra. }
    apply clamp_rate_at_limit; [unfold PMC8_MAX_MOVE_MOTOR_RATE; lia |].
    exact Lb.
Qed.

Lemma motor_rates_saturate_witness :
  1080 <= 3840
  /\ convert_precise_rate_to_motor 1080 = Some 2641%Z
  /\ convert_precise_rate_to_motor 3840 = Some 2641%Z
  /\ convert_move_rate_to_motor 1080 = Some 3840%Z
  /\ convert_move_rate_to_motor 3840 = Some 3840%Z
  /\ ((2641 <= 2641)%Z /\ (3840 <= 3840)%Z
      /\ (2641 * (9 # 800) <= 1080 -> 2641%Z = 2641%Z)
      /\ (1080 <= 1080 -> 3840%Z = 3840%Z)
      /\ convert_move_rate_to_motor (inject_Z (convert_movespeedindex_to_rate 3))
         = convert_move_rate_to_motor 1080).
Proof.
  assert (1080 <= 3840) as A by lra.
  assert (convert_precise_rate_to_motor 1080 = Some 2641%Z) as B by reflexivity.
  assert (convert_precise_rate_to_motor 3840 = Some 2641%Z) as C by reflexivity.
  assert (convert_move_rate_to_motor 1080 = Some 3840%Z) as D by reflexivity.
  assert (convert_move_rate_to_motor 3840 = Some 3840%Z) as E by reflexivity.
  split; [exact A |]. split; [exact B |]. split; [exact C |].
  split; [exact D |]. split; [exact E |].
  exact (motor_rates_saturate 1080 3840 2641 2641 3840 3840 A B C D E).
Defined.

(** ** PMC-Eight: the direction of an axis *)

Local Open Scope Z_scope.

(** X18. In simulation the direction of an axis reads back as it was set,
    and setting one axis leaves the other alone.  Off simulation a reply
    [ESGd], the axis, a decimal digit and [!] is read as that digit. *)
Theorem direction_reads_back (axis : PMC8_AXIS) (dir : Z) (w : world) :
  (pmc8_simulation w = true ->
   let w1 := state_after (set_pmc8_direction_axis axis dir) w in
   result_of (get_pmc8_direction_axis axis) w1 = Some (Some dir)
   /\ forall other,
        other <> axis ->
        result_of (get_pmc8_direction_axis other) w1
        = result_of (get_pmc8_direction_axis other) w)
  /\ (pmc8_simulation w = false -> 0 <= dir <= 9 ->
      forall rest,
        line w = Reply ("ESGd" ++ sprintf_d (axis_number axis)
                               ++ sprintf_d dir ++ "!") :: rest ->
        result_of (get_pmc8_direction_axis axis) w = Some (Some dir)).
Proof.
  split.
  - intros Hsim. destruct w as [sim d st snt ln]. cbn in Hsim. subst sim.
    destruct axis; (split; [reflexivity |]);
      intros other Ho; destruct other; try congruence; reflexivity.
  - intros Hsim Hd rest L.
    unfold result_of, get_pmc8_direction_axis.
    rewrite off_simulation by exact Hsim.
    set (reply := ("ESGd" ++ sprintf_d (axis_number axis)
                          ++ sprintf_d dir ++ "!")%string) in *.
    assert (String.length reply = 7%nat /\
            strtol_auto (str_take 2 (str_drop 5 reply)) = dir) as [Lr Ev].
    { unfold reply.
      assert (dir = 0 \/ dir = 1 \/ dir = 2 \/ dir = 3 \/ dir = 4 \/ dir = 5
              \/ dir = 6 \/ dir = 7 \/ dir = 8 \/ dir = 9) as D by lia.
      destruct axis;
        repeat (destruct D as [-> | D]; [split; reflexivity |]);
        subst dir; split; reflexivity. }
    rewrite (exchange_reply _ 7 None
               (fun response =>
                  if negb (String.length response =? 7)%nat then ret None
                  else ret (Some (strtol_auto (str_take 2 (str_drop 5 response)))))
               w reply rest L) by (rewrite Lr; lia).
    assert (str_take 7 reply = reply) as ->
        by (rewrite <- Lr; apply str_take_all).
    rewrite Lr, Ev. reflexivity.
Qed.

Lemma direction_reads_back_witness :
  let w := real_world [Reply "ESGd11!"] in
  pmc8_simulation w = false /\ 0 <= 1 <= 9
  /\ line w = [Reply "ESGd11!"]
  /\ result_of (get_pmc8_direction_axis PMC8_DEC_AXIS) w = Some (Some 1).
Proof.
  intros w.
  assert (pmc8_simulation w = false) as A by reflexivity.
  assert (0 <= 1 <= 9) as B by lia.
  assert (line w = [Reply "ESGd11!"]) as C by reflexivity.
  split; [exact A |]. split; [exact B |]. split; [exact C |].
  destruct (direction_reads_back PMC8_DEC_AXIS 1 w) as [_ H].
  exact (H A B [] C).
Defined.

(** ** PMC-Eight: the connection check and the firmware *)

Local Open Scope cmd_scope.

Lemma tty_read_section_run stop w :
  exists r w1,
    tty_read_section stop w = Some (r, w1)
    /\ same_mount w w1 /\ sent w1 = sent w.
Proof.
  destruct w as [sim d st snt ln]. unfold tty_read_section, same_mount.
  destruct ln as [| [| | bytes] rest]; cbn;
    eexists; eexists; (split; [reflexivity |]); repeat split.
Qed.

Lemma tty_write_run cmd w :
  exists ok w1,
    tty_write cmd w = Some (ok, w1)
    /\ same_mount w w1
    /\ (sent w1 = sent w \/ sent w1 = sent w ++ [cmd])
    /\ (ok = true -> sent w1 = sent w ++ [cmd]).
Proof.
  destruct w as [sim d st snt ln]. unfold tty_write, same_mount.
  destruct ln as [| [| | bytes] rest]; cbn;
    eexists; eexists; (split; [reflexivity |]);
    (split; [repeat split |]);
    first [ split; [right; reflexivity | intros _; reflexivity]
          | split; [left; reflexivity | discriminate] ].
Qed.

Lemma through_nonempty stop s r :
  through stop s = Some r -> (0 <? String.length r)%nat = true.
Proof.
  destruct s as [| c s']; [discriminate |]. cbn [through].
  destruct (Ascii.eqb c stop); [| destruct (through stop s')];
    intros H; try discriminate H; injection H as <-; reflexivity.
Qed.

(** One pass of the check writes the query once, or not at all. *)
Lemma check_pmc8_connection_passes_sent passes : forall w b w',
  pmc8_simulation w = false ->
  check_pmc8_connection_passes passes w = Some (b, w') ->
  same_mount w w'
  /\ exists k, (k <= passes)%nat /\ sent w' = sent w ++ repeat "ESGv!"%string k
               /\ (b = true -> (1 <= k)%nat).
Proof.
  induction passes as [| p IH]; intros w b w' Hsim H.
  - cbn in H. unfold ret in H. injection H as <- <-.
    split; [apply same_mount_refl |].
    exists 0%nat. split; [lia |]. split; [now rewrite app_nil_r | discriminate].
  - cbn [check_pmc8_connection_passes] in H.
    unfold bind at 1 in H. unfold gets at 1 in H. rewrite Hsim in H.
    unfold bind at 1 in H. unfold bind at 1 in H.
    destruct (tty_write_run "ESGv!" w) as (ok & w1 & E1 & M1 & S1 & T1).
    rewrite E1 in H.
    assert (pmc8_simulation w1 = false) as Hsim1
        by (destruct M1 as (A & _); congruence).
    assert (forall w2 k0,
               same_mount w1 w2 -> sent w2 = sent w ++ repeat "ESGv!"%string k0 ->
               (k0 <= 1)%nat ->
               check_pmc8_connection_passes p w2 = Some (b, w') ->
               same_mount w w'
               /\ exists k, (k <= S p)%nat
                            /\ sent w' = sent w ++ repeat "ESGv!"%string k
                            /\ (b = true -> (1 <= k)%nat)) as Next.
    { intros w2 k0 M2 S2 K0 H2.
      assert (pmc8_simulation w2 = false) as Hsim2
          by (destruct M2 as (A & _); congruence).
      destruct (IH w2 b w' Hsim2 H2) as (M & k & K & S & B).
      split; [exact (same_mount_trans _ _ _ M1 (same_mount_trans _ _ _ M2 M)) |].
      exists (k0 + k)%nat. split; [lia |]. split.
      - rewrite S, S2, <- app_assoc, repeat_app. reflexivity.
      - intros Hb. specialize (B Hb). lia. }
    destruct ok; cbn [negb] in H.
    + specialize (T1 eq_refl).
      destruct (tty_read_section_run "!"%char w1) as (r & w2 & E2 & M2 & S2).
      rewrite E2 in H.
      assert (sent w2 = sent w ++ repeat "ESGv!"%string 1) as S2'
          by (rewrite S2, T1; reflexivity).
      destruct r as [response |];
        [| exact (Next w2 1%nat M2 S2' (le_n 1) H)].
      destruct (0 <? String.length response)%nat;
        [| exact (Next w2 1%nat M2 S2' (le_n 1) H)].
      unfold bind at 1 in H. unfold stored_in in H.
      destruct (16 <=? String.length response)%nat; [discriminate H |].
      unfold ret at 1 in H.
      destruct (strncmp_eq 6 response "ESGvES");
        [| exact (Next w2 1%nat M2 S2' (le_n 1) H)].
      unfold ret in H. injection H as <- <-.
      split; [exact (same_mount_trans _ _ _ M1 M2) |].
      exists 1%nat. split; [lia |]. split; [exact S2' | intros _; lia].
    + unfold ret at 1 in H.
      destruct S1 as [S1 | S1].
      * apply (Next w1 0%nat (same_mount_refl w1)); [| lia | exact H].
        rewrite S1. cbn. now rewrite app_nil_r.
      * apply (Next w1 1%nat (same_mount_refl w1)); [| lia | exact H].
        exact S1.
Qed.

Lemma check_pmc8_connection_simulated w :
  pmc8_simulation w = true -> check_pmc8_connection w = Some (true, w).
Proof.
  intros Hsim. unfold check_pmc8_connection.
  cbn [check_pmc8_connection_passes].
  unfold bind at 1. unfold gets at 1. rewrite Hsim. reflexivity.
Qed.

Lemma get_pmc8_firmware_simulated w :
  pmc8_simulation w = true -> get_pmc8_firmware w = Some (None, w).
Proof.
  intros Hsim.
  unfold get_pmc8_firmware, get_pmc8_model, get_pmc8_main_firmware.
  unfold bind at 1. unfold ret at 1.
  unfold bind at 1. unfold bind at 1. unfold gets at 1. rewrite Hsim.
  reflexivity.
Qed.

(** X19. [check_pmc8_connection] returns [true] in simulation without
    touching the port.  Off simulation all it ever writes is the query
    [ESGv!], at most twice, and at least once when it returns [true];
    a pass that fails is followed by one more, so a write that fails first is
    made up for by a second pass whose reply starts with [ESGvES]. *)
Theorem check_pmc8_connection_tries_twice (w : world) :
  (pmc8_simulation w = true -> check_pmc8_connection w = Some (true, w))
  /\ (pmc8_simulation w = false ->
      forall b w',
        check_pmc8_connection w = Some (b, w') ->
        same_mount w w'
        /\ exists k, (k <= 2)%nat
                     /\ sent w' = sent w ++ repeat "ESGv!"%string k
                     /\ (b = true -> (1 <= k)%nat))
  /\ (pmc8_simulation w = false ->
      forall bytes rest response,
        line w = WriteFails :: Reply bytes :: rest ->
        through "!"%char bytes = Some response ->
        (String.length response < 16)%nat ->
        strncmp_eq 6 response "ESGvES" = true ->
        check_pmc8_connection w
        = Some (true, mkWorld false (simPMC8Data w) (systemStatus w)
                              (sent w ++ ["ESGv!"%string]) rest)).
Proof.
  split; [| split].
  - apply check_pmc8_connection_simulated.
  - intros Hsim b w' H.
    exact (check_pmc8_connection_passes_sent 2 w b w' Hsim H).
  - intros Hsim bytes rest response L T Hlen Hcmp.
    destruct w as [sim d st snt ln]. cbn in Hsim, L. subst sim ln.
    unfold check_pmc8_connection.
    cbn [check_pmc8_connection_passes].
    unfold tty_write, tty_read_section, stored_in, bind, gets, ret, negb.
    cbn [pmc8_simulation line simPMC8Data systemStatus sent].
    rewrite T, (through_nonempty _ _ _ T).
    apply Nat.ltb_lt in Hlen. rewrite Nat.ltb_antisym in Hlen.
    apply Bool.negb_true_iff in Hlen. rewrite Hlen, Hcmp. reflexivity.
Qed.

Lemma check_pmc8_connection_tries_twice_witness :
  let w := real_world [WriteFails; Reply "ESGvES06B9T9!"] in
  pmc8_simulation w = false
  /\ line w = [WriteFails; Reply "ESGvES06B9T9!"]
  /\ through "!"%char "ESGvES06B9T9!" = Some "ESGvES06B9T9!"%string
  /\ (String.length "ESGvES06B9T9!" < 16)%nat
  /\ strncmp_eq 6 "ESGvES06B9T9!" "ESGvES" = true
  /\ check_pmc8_connection w
     = Some (true, mkWorld false (simPMC8Data w) (systemStatus w)
                           (sent w ++ ["ESGv!"%string]) []).
Proof.
  intros w.
  assert (pmc8_simulation w = false) as A by reflexivity.
  assert (line w = [WriteFails; Reply "ESGvES06B9T9!"]) as B by reflexivity.
  assert (through "!"%char "ESGvES06B9T9!" = Some "ESGvES06B9T9!"%string) as C
      by reflexivity.
  assert (String.length "ESGvES06B9T9!" < 16)%nat as D by (cbn; lia).
  assert (strncmp_eq 6 "ESGvES06B9T9!" "ESGvES" = true) as E by reflexivity.
  split; [exact A |]. split; [exact B |]. split; [exact C |].
  split; [exact D |]. split; [exact E |].
  destruct (check_pmc8_connection_tries_twice w) as (_ & _ & H).
  exact (H A "ESGvES06B9T9!"%string [] "ESGvES06B9T9!"%string B C D E).
Defined.

(** X20. In simulation the firmware query never succeeds: the simulated
    reply has twelve bytes where [get_pmc8_main_firmware] wants thirteen, so
    [get_pmc8_firmware] returns [false] although [check_pmc8_connection]
    accepts the same reply.  Off simulation it succeeds exactly on a reply of
    thirteen bytes that ends at the first [#], and the board is the six bytes
    after the sixth. *)
Theorem get_pmc8_firmware_wants_13_bytes (w : world) :
  (pmc8_simulation w = true ->
   get_pmc8_firmware w = Some (None, w)
   /\ check_pmc8_connection w = Some (true, w))
  /\ (pmc8_simulation w = false ->
      forall bytes rest response,
        line w = Reply bytes :: rest ->
        through "#"%char bytes = Some response ->
        (String.length response < 24)%nat ->
        result_of get_pmc8_firmware w
        = if (String.length response =? 13)%nat
          then Some (Some ("PMC-Eight"%string,
                           strncpy 6 (str_drop 6 (str_take 12 response))))
          else Some None).
Proof.
  split.
  - intros Hsim. split.
    + now apply get_pmc8_firmware_simulated.
    + now apply check_pmc8_connection_simulated.
  - intros Hsim bytes rest response L T Hlen.
    destruct w as [sim d st snt ln]. cbn in Hsim, L. subst sim ln.
    unfold result_of, get_pmc8_firmware, get_pmc8_model, get_pmc8_main_firmware.
    unfold tty_write, tty_read_section, stored_in, bind, gets, ret, negb.
    cbn [pmc8_simulation line simPMC8Data systemStatus sent].
    rewrite T.
    rewrite (through_nonempty _ _ _ T).
    apply Nat.ltb_lt in Hlen. rewrite Nat.ltb_antisym in Hlen.
    apply Bool.negb_true_iff in Hlen. rewrite Hlen.
    destruct (String.length response =? 13)%nat; reflexivity.
Qed.

Lemma get_pmc8_firmware_wants_13_bytes_witness :
  let w := real_world [Reply "ESGvES06B9T9#"] in
  pmc8_simulation w = false
  /\ line w = [Reply "ESGvES06B9T9#"]
  /\ through "#"%char "ESGvES06B9T9#" = Some "ESGvES06B9T9#"%string
  /\ (String.length "ESGvES06B9T9#" < 24)%nat
  /\ result_of get_pmc8_firmware w
     = Some (Some ("PMC-Eight"%string, "06B9T9"%string)).
Proof.
  intros w.
  assert (pmc8_simulation w = false) as A by reflexivity.
  assert (line w = [Reply "ESGvES06B9T9#"]) as B by reflexivity.
  assert (through "#"%char "ESGvES06B9T9#" = Some "ESGvES06B9T9#"%string) as C
      by reflexivity.
  assert (String.length "ESGvES06B9T9#" < 24)%nat as D by (cbn; lia).
  split; [exact A |]. split; [exact B |]. split; [exact C |].
  split; [exact D |].
  destruct (get_pmc8_firmware_wants_13_bytes w) as [_ H].
  exact (H A "ESGvES06B9T9#"%string [] "ESGvES06B9T9#"%string B C D).
Defined.

(** ** PMC-Eight: track rates below zero *)

Local Open Scope Z_scope.

(** [%04X] pads to four digits and cuts nothing: a negative [int], printed
    as the unsigned value it converts to, takes eight. *)
Lemma sprintf_0X_negative m :
  - 2 ^ 28 <= m <= -1 -> String.length (sprintf_0X 4 (to_unsigned m)) = 8%nat.
Proof.
  intros H. unfold sprintf_0X, to_unsigned, UINT_MOD.
  replace (m mod 2 ^ 32) with (m + 2 ^ 32)
    by (apply Z.mod_unique with (q := -1); lia).
  cbn [hexN]. change (Z.of_nat 7) with 7.
  assert ((m + 2 ^ 32) / 16 ^ 7 = 15) as ->.
  { symmetry. apply Z.div_unique with (r := m + 2 ^ 32 - 15 * 16 ^ 7); lia. }
  change (hexdigit (15 mod 16)) with "F"%char.
  cbn [strip_zeros Nat.max]. reflexivity.
Qed.

Local Open Scope Q_scope.

Lemma convert_precise_rate_to_motor_negative rate :
  -24000000 <= rate <= - (9 # 800) ->
  exists m, convert_precise_rate_to_motor rate = Some m
            /\ (-2641 <= m <= -1)%Z.
Proof.
  intros H. unfold convert_precise_rate_to_motor.
  set (v := 25 * rate * (PMC8_AXIS0_SCALE / ARCSEC_IN_CIRCLE)).
  assert (v == rate * (800 # 9)) as Ev
      by (unfold v, PMC8_AXIS0_SCALE, ARCSEC_IN_CIRCLE; field).
  destruct (cast_int_bounds v) as (c & Ec & _ & N).
  { apply Qabs_Qlt_condition. lra. }
  rewrite Ec. destruct N as [N1 N2]; [lra |].
  assert (c <= -1)%Z as Hc.
  { assert (c < 0)%Z; [| lia]. apply Zlt_of_Qlt. change (inject_Z 0) with 0.
    lra. }
  exists (clamp_rate PMC8_MAX_PRECISE_MOTOR_RATE c). split; [reflexivity |].
  unfold clamp_rate, PMC8_MAX_PRECISE_MOTOR_RATE.
  destruct (Z.gtb_spec c 2641); [lia |].
  destruct (Z.ltb_spec c (- (2641))); lia.
Qed.

(** X21. A track rate of -9/800 arcsec/s or less has a motor rate below
    zero, and off simulation [set_pmc8_custom_ra_track_rate] cannot succeed
    with it: [%04X] prints the rate with eight digits, the frame has
    thirteen bytes, and the thirteen bytes read back fail the test for
    nine.  In simulation the same call returns [true] and records the
    rate. *)
Theorem negative_track_rate_never_succeeds (rate : Q) (w : world) :
  -24000000 <= rate <= - (9 # 800) ->
  (pmc8_simulation w = false ->
   exists w', set_pmc8_custom_ra_track_rate rate w = Some (false, w'))
  /\ (pmc8_simulation w = true ->
      exists w',
        set_pmc8_custom_ra_track_rate rate w = Some (true, w')
        /\ trackRate (simPMC8Data w') = rate).
Proof.
  intros H.
  destruct (convert_precise_rate_to_motor_negative rate H) as (m & Em & Rm).
  split.
  - intros Hsim. unfold set_pmc8_custom_ra_track_rate.
    rewrite Em. unfold defined. unfold bind at 1. unfold ret at 1.
    rewrite off_simulation by exact Hsim.
    set (cmd := ("ESTr" ++ sprintf_0X 4 (to_unsigned m) ++ "!")%string).
    assert (String.length cmd = 13%nat) as Lc.
    { unfold cmd. rewrite !length_append, sprintf_0X_negative by lia.
      reflexivity. }
    destruct (exchange_cases cmd (String.length cmd) false
                (fun response =>
                   if negb (String.length response =? 9)%nat then ret false
                   else set_pmc8_direction_axis PMC8_RA_AXIS 1) w)
      as [(w1 & E & _) | (bytes & rest & L & Hl & E)].
    + exists w1. exact E.
    + eexists. etransitivity; [exact E |]. cbv beta.
      rewrite length_str_take by exact Hl. rewrite Lc. reflexivity.
  - intros Hsim. unfold set_pmc8_custom_ra_track_rate.
    rewrite Em. unfold defined. unfold bind at 1. unfold ret at 1.
    rewrite in_simulation by exact Hsim.
    eexists. split; reflexivity.
Qed.

Lemma negative_track_rate_never_succeeds_witness :
  let w := real_world [Reply "ESTrFFFFFFA8!"; Reply "ESSd01!"] in
  -24000000 <= -1 <= - (9 # 800)
  /\ pmc8_simulation w = false
  /\ exists w', set_pmc8_custom_ra_track_rate (-1) w = Some (false, w').
Proof.
  intros w.
  assert (-24000000 <= -1 <= - (9 # 800)) as A by lra.
  assert (pmc8_simulation w = false) as B by reflexivity.
  split; [exact A |]. split; [exact B |].
  destruct (negative_track_rate_never_succeeds (-1) w A) as [H _].
  exact (H B).
Defined.

(** ** PMC-Eight: simulation and the port *)

Local Open Scope cmd_scope.

Lemma off_the_wire_ret {A : Type} (a : A) : off_the_wire (ret a).
Proof. intros w r w' Hsim H. injection H as _ <-. now repeat split. Qed.

Lemma off_the_wire_undefined {A : Type} : off_the_wire (@undefined world A).
Proof. intros w r w' Hsim H. discriminate H. Qed.

Lemma off_the_wire_defined {A : Type} (o : option A) : off_the_wire (defined o).
Proof.
  destruct o; [apply off_the_wire_ret | apply off_the_wire_undefined].
Qed.

Lemma off_the_wire_gets {A : Type} (f : world -> A) : off_the_wire (gets f).
Proof. intros w r w' Hsim H. injection H as _ <-. now repeat split. Qed.

Lemma off_the_wire_bind {A B : Type} (c : PMC A) (k : A -> PMC B) :
  off_the_wire c -> (forall a, off_the_wire (k a)) -> off_the_wire (bind c k).
Proof.
  intros Hc Hk w r w' Hsim H. unfold bind in H.
  destruct (c w) as [[a w1] |] eqn:E; [| discriminate H].
  destruct (Hc w a w1 Hsim E) as (S1 & T1 & L1).
  destruct (Hk a w1 r w' S1 H) as (S2 & T2 & L2).
  repeat split; congruence.
Qed.

(** A command that asks first whether the driver is in simulation is as
    quiet as its simulation branch. *)
Lemma off_the_wire_simulated {A : Type} (a b : PMC A) :
  off_the_wire a ->
  off_the_wire (sim <- gets pmc8_simulation ;; if sim then a else b).
Proof.
  intros Ha w r w' Hsim H. rewrite in_simulation in H by exact Hsim.
  exact (Ha w r w' Hsim H).
Qed.

(** A change of the simulated data or of the status. *)
Lemma off_the_wire_modify (f : world -> world) :
  (forall w, pmc8_simulation (f w) = pmc8_simulation w
             /\ sent (f w) = sent w /\ line (f w) = line w) ->
  off_the_wire (modify f).
Proof.
  intros Hf w r w' Hsim H. injection H as _ <-.
  destruct (Hf w) as (A & B & C). repeat split; congruence.
Qed.

Ltac quiet_step :=
  first
    [ apply off_the_wire_simulated
    | apply off_the_wire_bind; [| intros ?]
    | apply off_the_wire_ret
    | apply off_the_wire_gets
    | apply off_the_wire_defined
    | apply off_the_wire_undefined
    | apply off_the_wire_modify; intros [? ? ? ? ?]; repeat split
    | match goal with
      | |- off_the_wire (if ?b then _ else _) => destruct b
      | |- off_the_wire (match ?x with _ => _ end) => destruct x
      | |- off_the_wire (let _ := _ in _) => cbv zeta
      end ].

Ltac quiet := repeat quiet_step.

Lemma get_pmc8_tracking_rate_axis_quiet axis :
  off_the_wire (get_pmc8_tracking_rate_axis axis).
Proof. unfold get_pmc8_tracking_rate_axis. quiet. Qed.

Lemma set_pmc8_direction_axis_quiet axis dir :
  off_the_wire (set_pmc8_direction_axis axis dir).
Proof. unfold set_pmc8_direction_axis. quiet. Qed.

Lemma get_pmc8_direction_axis_quiet axis :
  off_the_wire (get_pmc8_direction_axis axis).
Proof. unfold get_pmc8_direction_axis. quiet. Qed.

Lemma get_pmc8_is_scope_slewing_quiet : off_the_wire get_pmc8_is_scope_slewing.
Proof.
  unfold get_pmc8_is_scope_slewing.
  apply off_the_wire_bind; [apply get_pmc8_tracking_rate_axis_quiet |].
  intros [rarate |]; [| apply off_the_wire_ret].
  apply off_the_wire_bind; [apply get_pmc8_tracking_rate_axis_quiet |].
  intros [decrate |]; quiet.
Qed.

Lemma set_pmc8_axis_move_rate_quiet axis rate :
  off_the_wire (set_pmc8_axis_move_rate axis rate).
Proof.
  unfold set_pmc8_axis_move_rate.
  apply off_the_wire_bind.
  - destruct (Qltb rate 0); apply set_pmc8_direction_axis_quiet.
  - intros rc. destruct rc; cbn [negb]; [| apply off_the_wire_ret].
    apply off_the_wire_bind; [apply off_the_wire_defined |].
    intros rateval. quiet.
Qed.

Lemma custom_move_rates_quiet rate :
  off_the_wire (set_pmc8_custom_ra_move_rate rate)
  /\ off_the_wire (set_pmc8_custom_dec_move_rate rate).
Proof.
  unfold set_pmc8_custom_ra_move_rate, set_pmc8_custom_dec_move_rate.
  destruct (Qltb _ _);
    split; first [apply off_the_wire_ret | apply set_pmc8_axis_move_rate_quiet].
Qed.

Lemma set_pmc8_custom_ra_track_rate_quiet rate :
  off_the_wire (set_pmc8_custom_ra_track_rate rate).
Proof. unfold set_pmc8_custom_ra_track_rate. quiet. Qed.

Lemma set_pmc8_target_position_quiet rapoint decpoint :
  off_the_wire (set_pmc8_target_position rapoint decpoint).
Proof.
  unfold set_pmc8_target_position, set_pmc8_target_position_axis. quiet.
Qed.

Lemma set_pmc8_sim_system_status_quiet lst value :
  off_the_wire (set_pmc8_sim_system_status lst value).
Proof.
  unfold set_pmc8_sim_system_status, set_pmc8_sim_ra, set_pmc8_sim_dec. quiet.
Qed.

Lemma target_counts_quiet lst ra dec dec_arg :
  off_the_wire (target_counts lst ra dec dec_arg).
Proof. unfold target_counts. quiet. Qed.

Lemma start_pmc8_motion_quiet dir mode :
  off_the_wire (start_pmc8_motion dir mode).
Proof.
  unfold start_pmc8_motion.
  apply off_the_wire_bind; [apply get_pmc8_is_scope_slewing_quiet |].
  intros [[|] |]; try apply off_the_wire_ret.
  cbv zeta.
  repeat (apply off_the_wire_bind; [| intros ?]);
    try apply off_the_wire_ret;
    (destruct (negb _); [| apply off_the_wire_ret]);
    (apply off_the_wire_bind; [| intros ?; apply off_the_wire_ret]);
    apply custom_move_rates_quiet.
Qed.

Lemma track_rate_commands_quiet :
  off_the_wire stop_pmc8_tracking_motion
  /\ forall rate, off_the_wire (set_pmc8_track_mode rate).
Proof.
  split.
  - unfold stop_pmc8_tracking_motion.
    apply off_the_wire_bind; [apply set_pmc8_custom_ra_track_rate_quiet |].
    intros []; apply off_the_wire_ret.
  - intros rate. unfold set_pmc8_track_mode.
    apply off_the_wire_bind; [apply off_the_wire_defined |].
    intros ?. apply set_pmc8_custom_ra_track_rate_quiet.
Qed.

Lemma position_commands_quiet :
  (forall ra dec, off_the_wire (set_pmc8_position ra dec))
  /\ off_the_wire get_pmc8_position.
Proof.
  split.
  - intros ra dec. unfold set_pmc8_position, set_pmc8_position_axis. quiet.
  - unfold get_pmc8_position, get_pmc8_position_axis. quiet.
Qed.

Lemma slew_pmc8_quiet lst ra dec : off_the_wire (slew_pmc8 lst ra dec).
Proof.
  unfold slew_pmc8.
  apply off_the_wire_bind; [apply target_counts_quiet |].
  intros [[racounts deccounts] |]; [| apply off_the_wire_ret].
  apply off_the_wire_bind; [apply set_pmc8_target_position_quiet |].
  intros []; cbn [negb]; [| apply off_the_wire_ret].
  apply off_the_wire_bind; [apply off_the_wire_gets |].
  intros sim.
  apply off_the_wire_bind; [| intros ?; apply off_the_wire_ret].
  destruct sim; [apply set_pmc8_sim_system_status_quiet | apply off_the_wire_ret].
Qed.

Lemma sync_commands_quiet lst ra dec :
  off_the_wire (sync_pmc8 lst ra dec) /\ off_the_wire (set_pmc8_radec lst ra dec).
Proof.
  split.
  - unfold sync_pmc8.
    apply off_the_wire_bind; [apply target_counts_quiet |].
    intros [[racounts deccounts] |]; quiet.
  - unfold set_pmc8_radec.
    apply off_the_wire_bind; [apply target_counts_quiet |].
    intros [[racounts deccounts] |]; quiet.
Qed.

Lemma get_pmc8_coords_quiet lst : off_the_wire (get_pmc8_coords lst).
Proof.
  unfold get_pmc8_coords.
  intros w r w' Hsim H. unfold bind at 1 in H. unfold gets at 1 in H.
  rewrite Hsim in H. revert H.
  apply (off_the_wire_bind
           (d <- gets simPMC8Data ;;
            target_counts lst (sim_ra d) (sim_dec d) (sim_dec d))
           (fun c => match c with
                     | None => ret None
                     | Some (racounts, deccounts) =>
                         ret (Some (convert_motor_to_radec lst racounts
                                                           deccounts))
                     end)); [| | exact Hsim].
  - apply off_the_wire_bind; [apply off_the_wire_gets |].
    intros ?. apply target_counts_quiet.
  - intros [[? ?] |]; apply off_the_wire_ret.
Qed.

Lemma unpark_and_abort_quiet lst :
  off_the_wire (unpark_pmc8 lst) /\ off_the_wire abort_pmc8.
Proof.
  split.
  - unfold unpark_pmc8. apply off_the_wire_simulated.
    apply off_the_wire_bind; [apply set_pmc8_sim_system_status_quiet |].
    intros ?. apply off_the_wire_ret.
  - unfold abort_pmc8. quiet.
Qed.

Lemma connection_commands_quiet :
  off_the_wire check_pmc8_connection /\ off_the_wire get_pmc8_firmware.
Proof.
  split; intros w r w' Hsim H.
  - rewrite check_pmc8_connection_simulated in H by exact Hsim.
    injection H as _ <-. now repeat split.
  - rewrite get_pmc8_firmware_simulated in H by exact Hsim.
    injection H as _ <-. now repeat split.
Qed.

(** X22. In simulation no command of the driver touches the port: whatever
    it returns, nothing has been written, nothing has been taken off the
    line, and the driver is still in simulation. *)
Theorem simulation_stays_off_the_wire (lst : Q) :
  off_the_wire check_pmc8_connection
  /\ off_the_wire get_pmc8_firmware
  /\ (forall axis, off_the_wire (get_pmc8_tracking_rate_axis axis))
  /\ (forall axis, off_the_wire (get_pmc8_direction_axis axis))
  /\ (forall axis dir, off_the_wire (set_pmc8_direction_axis axis dir))
  /\ off_the_wire get_pmc8_is_scope_slewing
  /\ (forall dir mode, off_the_wire (start_pmc8_motion dir mode))
  /\ (forall dir, off_the_wire (stop_pmc8_motion dir))
  /\ off_the_wire stop_pmc8_tracking_motion
  /\ (forall rate, off_the_wire (set_pmc8_track_mode rate))
  /\ (forall rate, off_the_wire (set_pmc8_custom_ra_track_rate rate))
  /\ (forall rate, off_the_wire (set_pmc8_custom_ra_move_rate rate))
  /\ (forall rate, off_the_wire (set_pmc8_custom_dec_move_rate rate))
  /\ (forall ra dec, off_the_wire (set_pmc8_target_position ra dec))
  /\ (forall ra dec, off_the_wire (set_pmc8_position ra dec))
  /\ off_the_wire get_pmc8_position
  /\ off_the_wire park_pmc8
  /\ off_the_wire (unpark_pmc8 lst)
  /\ off_the_wire abort_pmc8
  /\ (forall ra dec, off_the_wire (slew_pmc8 lst ra dec))
  /\ (forall ra dec, off_the_wire (sync_pmc8 lst ra dec))
  /\ (forall ra dec, off_the_wire (set_pmc8_radec lst ra dec))
  /\ off_the_wire (get_pmc8_coords lst).
Proof.
  split; [apply connection_commands_quiet |].
  split; [apply connection_commands_quiet |].
  split; [exact get_pmc8_tracking_rate_axis_quiet |].
  split; [exact get_pmc8_direction_axis_quiet |].
  split; [exact set_pmc8_direction_axis_quiet |].
  split; [exact get_pmc8_is_scope_slewing_quiet |].
  split; [exact start_pmc8_motion_quiet |].
  split; [intros []; unfold stop_pmc8_motion; apply custom_move_rates_quiet |].
  split; [apply track_rate_commands_quiet |].
  split; [apply track_rate_commands_quiet |].
  split; [exact set_pmc8_custom_ra_track_rate_quiet |].
  split; [intros rate; apply custom_move_rates_quiet |].
  split; [intros rate; apply custom_move_rates_quiet |].
  split; [exact set_pmc8_target_position_quiet |].
  split; [apply position_commands_quiet |].
  split; [apply position_commands_quiet |].
  split; [apply set_pmc8_target_position_quiet |].
  split; [apply unpark_and_abort_quiet |].
  split; [apply (unpark_and_abort_quiet lst) |].
  split; [exact (slew_pmc8_quiet lst) |].
  split; [intros ra dec; apply sync_commands_quiet |].
  split; [intros ra dec; apply sync_commands_quiet |].
  exact (get_pmc8_coords_quiet lst).
Qed.

(** ** Astro-Physics: the end of parking *)

Local Open Scope Q_scope.

Lemma Qeq_bool_difference x y : Qeq_bool (x - y) 0 = Qeq_bool x y.
Proof.
  destruct (Qeq_bool x y) eqn:E.
  - apply Qeq_bool_iff in E. apply Qeq_bool_iff. lra.
  - apply Qeq_bool_neq in E.
    destruct (Qeq_bool (x - y) 0) eqn:E'; [| reflexivity].
    apply Qeq_bool_iff in E'. exfalso. apply E. lra.
Qed.

Ltac pier_cases :=
  repeat match goal with
         | |- context [String.eqb ?x ?y] => destruct (String.eqb x y)
         end.

(** X23. A poll while parking, off simulation, with the four readings
    taken: when azimuth and altitude equal the snapshot, the mount is told
    to park, then tracking is switched off, and the state becomes PARKED;
    when the mount refuses to park the poll returns [false] and the state
    stays PARKING; when the readings differ from the snapshot nothing is
    commanded, the state stays PARKING and the readings become the
    snapshot. *)
Theorem parking_ends_when_static (ra dec az alt : Q) (s : ap_state)
        (park track pier : answer) (rest : list answer) :
  simulation s = false ->
  TrackState s = SCOPE_PARKING ->
  (answers s = Num ra :: Num dec :: Num az :: Num alt
                      :: park :: track :: pier :: rest ->
   lastAZ s == az -> lastAL s == alt -> succeeded park = true ->
   exists s' tail,
     ReadScopeStatus s = Some (true, s')
     /\ TrackState s' = SCOPE_PARKED
     /\ calls s' = calls s
                   ++ [getLX200RA; getLX200DEC; getLX200Az; getLX200Alt;
                       setAPPark; selectAPTrackingMode AP_TRACKING_OFF;
                       SetParked true; NewRaDec ra dec; pierSideQuery]
                   ++ tail
     /\ answers s' = rest)
  /\ (answers s = Num ra :: Num dec :: Num az :: Num alt :: park :: rest ->
      lastAZ s == az -> lastAL s == alt -> succeeded park = false ->
      exists s',
        ReadScopeStatus s = Some (false, s')
        /\ TrackState s' = SCOPE_PARKING
        /\ calls s' = calls s
                      ++ [getLX200RA; getLX200DEC; getLX200Az; getLX200Alt;
                          setAPPark]
        /\ lastAZ s' = lastAZ s /\ lastAL s' = lastAL s)
  /\ (answers s = Num ra :: Num dec :: Num az :: Num alt :: pier :: rest ->
      ~ (lastAZ s == az /\ lastAL s == alt) ->
      exists s' tail,
        ReadScopeStatus s = Some (true, s')
        /\ TrackState s' = SCOPE_PARKING
        /\ calls s' = calls s
                      ++ [getLX200RA; getLX200DEC; getLX200Az; getLX200Alt;
                          NewRaDec ra dec; pierSideQuery]
                      ++ tail
        /\ lastAZ s' = az /\ lastAL s' = alt
        /\ answers s' = rest).
Proof.
  intros Hsim Hst.
  split; [| split].
  - intros Hans Haz Hal Hp.
    apply Qeq_bool_iff in Haz, Hal.
    rewrite <- Qeq_bool_difference in Haz, Hal.
    unfold ReadScopeStatus, SetTrackEnabled, SetTrackMode, SetParked_true,
      syncSideOfPier, command, get_number, call, note, modify, gets, bind, ret,
      negb.
    rewrite Hsim, Hans. cbn -[Qeq_bool Qminus String.eqb str_init succeeded].
    rewrite Hst. cbn -[Qeq_bool Qminus String.eqb str_init succeeded].
    rewrite Haz, Hal. cbn -[String.eqb str_init succeeded].
    rewrite Hp. cbn -[String.eqb str_init succeeded].
    rewrite Hsim. cbn -[String.eqb str_init succeeded].
    destruct (succeeded track); cbn -[String.eqb str_init];
    destruct pier; cbn -[String.eqb str_init]; pier_cases;
      eexists; eexists; (split; [reflexivity |]); cbn;
      (split; [reflexivity |]);
      rewrite <- !app_assoc; cbn;
      (split; [reflexivity | reflexivity]).
  - intros Hans Haz Hal Hp.
    apply Qeq_bool_iff in Haz, Hal.
    rewrite <- Qeq_bool_difference in Haz, Hal.
    unfold ReadScopeStatus, SetTrackEnabled, SetTrackMode, SetParked_true,
      syncSideOfPier, command, get_number, call, note, modify, gets, bind, ret,
      negb.
    rewrite Hsim, Hans. cbn -[Qeq_bool Qminus String.eqb str_init succeeded].
    rewrite Hst. cbn -[Qeq_bool Qminus String.eqb str_init succeeded].
    rewrite Haz, Hal. cbn -[String.eqb str_init succeeded].
    rewrite Hp. cbn -[String.eqb str_init succeeded].
    eexists. split; [reflexivity |]. cbn.
    split; [exact Hst |].
    rewrite <- !app_assoc. cbn. repeat split; reflexivity.
  - intros Hans Hdiff.
    assert (Qeq_bool (lastAZ s - az) 0 && Qeq_bool (lastAL s - alt) 0 = false)
      as Hb.
    { rewrite !Qeq_bool_difference.
      destruct (Qeq_bool (lastAZ s) az) eqn:E1; [| reflexivity].
      destruct (Qeq_bool (lastAL s) alt) eqn:E2; [| reflexivity].
      exfalso. apply Hdiff. split; now apply Qeq_bool_iff. }
    unfold ReadScopeStatus, SetTrackEnabled, SetTrackMode, SetParked_true,
      syncSideOfPier, command, get_number, call, note, modify, gets, bind, ret,
      negb.
    rewrite Hsim, Hans. cbn -[Qeq_bool Qminus String.eqb str_init succeeded].
    rewrite Hst. cbn -[Qeq_bool Qminus String.eqb str_init succeeded].
    rewrite Hb. cbn -[String.eqb str_init].
    destruct pier; cbn -[String.eqb str_init]; pier_cases;
      eexists; eexists; (split; [reflexivity |]); cbn;
      (split; [exact Hst |]);
      rewrite <- !app_assoc; cbn;
      repeat split; reflexivity.
Qed.

(** ** Astro-Physics: a poll that cannot read the mount *)

(** X24. Off simulation, a poll whose RA reading fails returns [false]
    after that one call, with the coordinates alerted and the position and
    the state as they were.  When the RA is read and the Dec reading fails
    the poll returns [false] as well, but the RA just read has already
    replaced the current RA.  In neither case is a position reported to the
    base class. *)
Theorem ReadScopeStatus_read_failure (s : ap_state) :
  simulation s = false ->
  ((forall ra, hd Err (answers s) <> Num ra) ->
   exists s',
     ReadScopeStatus s = Some (false, s')
     /\ EqNP_s s' = IPS_ALERT /\ TrackState s' = TrackState s
     /\ currentRA s' = currentRA s /\ currentDEC s' = currentDEC s
     /\ calls s' = calls s ++ [getLX200RA])
  /\ (forall ra a rest,
         answers s = Num ra :: a :: rest ->
         (forall dec, a <> Num dec) ->
         exists s',
           ReadScopeStatus s = Some (false, s')
           /\ EqNP_s s' = IPS_ALERT /\ TrackState s' = TrackState s
           /\ currentRA s' = ra /\ currentDEC s' = currentDEC s
           /\ lastRA s' = lastRA s /\ lastDE s' = lastDE s
           /\ calls s' = calls s ++ [getLX200RA; getLX200DEC]).
Proof.
  intros Hsim. split.
  - intros Hra.
    unfold ReadScopeStatus, get_number, call, modify, gets, bind, ret.
    rewrite Hsim. cbn -[hd tl].
    destruct (hd Err (answers s)) as [| | ra | t];
      try (exfalso; now apply (Hra ra));
      eexists; (split; [reflexivity |]); cbn; repeat split; reflexivity.
  - intros ra a rest Hans Ha.
    unfold ReadScopeStatus, get_number, call, modify, gets, bind, ret.
    rewrite Hsim, Hans. cbn.
    destruct a as [| | dec | t]; try (exfalso; now apply (Ha dec));
      eexists; (split; [reflexivity |]); cbn;
      rewrite <- ?app_assoc; repeat split; reflexivity.
Qed.

Lemma ReadScopeStatus_read_failure_witness :
  let s := ap_fresh [Num 5; Err] in
  simulation s = false
  /\ answers s = [Num 5; Err]
  /\ (forall dec, Err <> Num dec)
  /\ exists s',
       ReadScopeStatus s = Some (false, s')
       /\ EqNP_s s' = IPS_ALERT /\ TrackState s' = TrackState s
       /\ currentRA s' = 5 /\ currentDEC s' = currentDEC s
       /\ lastRA s' = lastRA s /\ lastDE s' = lastDE s
       /\ calls s' = calls s ++ [getLX200RA; getLX200DEC].
Proof.
  intros s.
  assert (simulation s = false) as A by reflexivity.
  assert (answers s = [Num 5; Err]) as B by reflexivity.
  assert (forall dec, Err <> Num dec) as C by discriminate.
  split; [exact A |]. split; [exact B |]. split; [exact C |].
  destruct (ReadScopeStatus_read_failure s A) as [_ H].
  exact (H 5 Err [] B C).
Defined.

(** ** Astro-Physics: what a poll does to the state *)

Ltac poll_cases H Hsim :=
  repeat first
    [ progress rewrite Hsim in H
    | match type of H with
      | context [match ?x with _ => _ end] =>
          match x with
          | hd Err _ => destruct x
          | Qeq_bool _ _ => destruct x
          | String.eqb _ _ => destruct x
          | succeeded _ => destruct x
          | andb _ _ => destruct x
          end
      end
    | progress cbn -[Qeq_bool Qminus String.eqb str_init succeeded hd tl andb]
        in H ].

(** X25. Off simulation a poll moves the state only forward along the two
    edges it watches: from SLEWING to TRACKING and from PARKING to PARKED.
    In every other case, and whenever the poll returns [false], the state
    after the poll is the state before. *)
Theorem ReadScopeStatus_transitions (s s' : ap_state) (b : bool) :
  simulation s = false ->
  ReadScopeStatus s = Some (b, s') ->
  (TrackState s' = TrackState s
   \/ (TrackState s = SCOPE_SLEWING /\ TrackState s' = SCOPE_TRACKING)
   \/ (TrackState s = SCOPE_PARKING /\ TrackState s' = SCOPE_PARKED))
  /\ (b = false -> TrackState s' = TrackState s)
  /\ simulation s' = false.
Proof.
  intros Hsim H.
  unfold ReadScopeStatus, SetTrackEnabled, SetTrackMode, SetTrackRate,
    SetParked_true, syncSideOfPier, command, get_number, call, note, modify,
    gets, bind, ret, negb in H.
  rewrite Hsim in H.
  cbn -[Qeq_bool Qminus String.eqb str_init succeeded hd tl andb] in H.
  destruct (hd Err (answers s));
    cbn -[Qeq_bool Qminus String.eqb str_init succeeded hd tl andb] in H;
    try (injection H as <- <-; cbn; repeat split; auto; fail).
  destruct (hd Err (tl (answers s)));
    cbn -[Qeq_bool Qminus String.eqb str_init succeeded hd tl andb] in H;
    try (injection H as <- <-; cbn; repeat split; auto; fail).
  destruct (TrackState s) eqn:Hst;
    cbn -[Qeq_bool Qminus String.eqb str_init succeeded hd tl andb] in H.
  all: poll_cases H Hsim; try discriminate H; injection H as <- <-;
    cbn; rewrite ?Hst, ?Hsim; repeat split; auto; try discriminate.
Qed.

Lemma ReadScopeStatus_transitions_witness :
  let s := ap_fresh [Num 5; Num 10; Txt "East#"] in
  let s' := state_after ReadScopeStatus s in
  simulation s = false
  /\ ReadScopeStatus s = Some (true, s')
  /\ ((TrackState s' = TrackState s
       \/ (TrackState s = SCOPE_SLEWING /\ TrackState s' = SCOPE_TRACKING)
       \/ (TrackState s = SCOPE_PARKING /\ TrackState s' = SCOPE_PARKED))
      /\ (true = false -> TrackState s' = TrackState s)
      /\ simulation s' = false).
Proof.
  intros s s'.
  assert (simulation s = false) as A by reflexivity.
  assert (ReadScopeStatus s = Some (true, s')) as B by (vm_compute; reflexivity).
  split; [exact A |]. split; [exact B |].
  exact (ReadScopeStatus_transitions s s' true A B).
Defined.

(** ** Astro-Physics: the commands of a slew *)

Ltac goto_cases H Hsim :=
  repeat first
    [ progress rewrite Hsim in H
    | match type of H with
      | context [match ?x with _ => _ end] =>
          match x with
          | succeeded _ => destruct x
          | MovementNSSP_s _ => destruct x
          | MovementWESP_s _ => destruct x
          end
      end
    | progress cbn -[succeeded hd tl] in H ].

(** X26. Off simulation [Goto] talks to the mount in a fixed order: an
    abort first when the coordinates are busy, then the target RA, the
    target Dec and the slew.  When it returns [true] all of them were sent,
    the state is SLEWING, the coordinates are busy and the snapshot is the
    target.  When it returns [false] it stopped at the command that failed:
    the state and the snapshot are as before, the coordinates or the abort
    switch are alerted, and the target it was given is stored all the
    same. *)
Theorem Goto_commands (r d : Q) (s s' : ap_state) (b : bool) :
  simulation s = false ->
  Goto r d s = Some (b, s') ->
  let expected :=
    (match EqNP_s s with IPS_BUSY => [abortSlew] | _ => [] end)
      ++ [setAPObjectRA r; setAPObjectDEC d; Slew] in
  targetRA s' = r /\ targetDEC s' = d
  /\ (b = true ->
      calls s' = calls s ++ expected
      /\ TrackState s' = SCOPE_SLEWING /\ EqNP_s s' = IPS_BUSY
      /\ lastRA s' = r /\ lastDE s' = d /\ motionCommanded s' = true)
  /\ (b = false ->
      TrackState s' = TrackState s
      /\ lastRA s' = lastRA s /\ lastDE s' = lastDE s
      /\ (EqNP_s s' = IPS_ALERT \/ AbortSP_s s' = IPS_ALERT)
      /\ exists k,
           (1 <= k <= length expected)%nat
           /\ (calls s' = calls s ++ firstn k expected
               \/ calls s' = calls s ++ expected ++ [slewError])).
Proof.
  intros Hsim H expected. subst expected.
  unfold Goto, command, call, note, modify, gets, bind, ret, negb in H.
  cbn -[succeeded hd tl] in H. rewrite Hsim in H.
  cbn -[succeeded hd tl] in H.
  destruct (EqNP_s s) eqn:Eq; cbn -[succeeded hd tl] in H.
  all: goto_cases H Hsim.
  all: injection H as <- <-; cbn -[firstn]; rewrite <- ?app_assoc;
    (split; [reflexivity |]); (split; [reflexivity |]);
    (split; [intros B; try discriminate B; repeat split; reflexivity |]);
    intros B; try discriminate B;
    (split; [reflexivity |]); (split; [reflexivity |]);
    (split; [reflexivity |]);
    (split; [first [left; reflexivity | right; reflexivity] |]).
  all: first
         [ exists 1%nat; split; [cbn; lia |]; left; reflexivity
         | exists 2%nat; split; [cbn; lia |]; left; reflexivity
         | exists 3%nat; split; [cbn; lia |]; left; reflexivity
         | exists 3%nat; split; [cbn; lia |]; right; reflexivity
         | exists 4%nat; split; [cbn; lia |]; right; reflexivity ].
Qed.

Lemma Goto_commands_witness :
  let s := ap_fresh [Ack; Ack; Ack] in
  let s' := state_after (Goto 5 10) s in
  simulation s = false
  /\ Goto 5 10 s = Some (true, s')
  /\ calls s' = [setAPObjectRA 5; setAPObjectDEC 10; Slew]
  /\ TrackState s' = SCOPE_SLEWING /\ lastRA s' = 5 /\ lastDE s' = 10.
Proof.
  intros s s'.
  assert (simulation s = false) as A by reflexivity.
  assert (Goto 5 10 s = Some (true, s')) as B by (vm_compute; reflexivity).
  split; [exact A |]. split; [exact B |].
  destruct (Goto_commands 5 10 s s' true A B) as (_ & _ & H & _).
  destruct (H eq_refl) as (C & T & _ & R & D & _).
  repeat split; assumption.
Defined.

(** ** Astro-Physics: tracking on and off *)

Local Open Scope Q_scope.

(** X27. Tracking is switched through the tracking mode.  In simulation
    [SetTrackEnabled] returns [true] and calls nothing.  Off simulation,
    switching tracking off selects the mode OFF, whatever mode is chosen;
    switching it on in custom mode first selects the sidereal mode and then
    sends the two rates of the track rate property, each as the multiplier
    [SetTrackRate] computes; when the mount refuses the sidereal mode no rate
    is sent. *)
Theorem SetTrackEnabled_commands (s : ap_state) :
  (simulation s = true ->
   forall enabled, SetTrackEnabled enabled s = Some (true, s))
  /\ (simulation s = false ->
      exists s',
        SetTrackEnabled false s = Some (succeeded (hd Err (answers s)), s')
        /\ calls s' = calls s ++ [selectAPTrackingMode AP_TRACKING_OFF])
  /\ (simulation s = false -> TrackModeSP_on s = TRACK_CUSTOM ->
      forall a1 a2 a3 rest,
        answers s = a1 :: a2 :: a3 :: rest ->
        succeeded a1 = true -> succeeded a2 = true -> succeeded a3 = true ->
        exists s',
          SetTrackEnabled true s = Some (true, s')
          /\ calls s'
             = calls s
               ++ [selectAPTrackingMode AP_TRACKING_SIDEREAL;
                   setAPRATrackRate ((TrackRateN_RA s - TRACKRATE_SIDEREAL)
                                     / TRACKRATE_SIDEREAL);
                   setAPDETrackRate (TrackRateN_DE s / TRACKRATE_SIDEREAL)])
  /\ (simulation s = false -> TrackModeSP_on s = TRACK_CUSTOM ->
      succeeded (hd Err (answers s)) = false ->
      exists s',
        SetTrackEnabled true s = Some (false, s')
        /\ calls s' = calls s ++ [selectAPTrackingMode AP_TRACKING_SIDEREAL]).
Proof.
  split; [| split; [| split]].
  - intros Hsim enabled.
    unfold SetTrackEnabled, SetTrackMode, SetTrackRate, command, call, gets,
      bind, ret, negb.
    rewrite Hsim.
    destruct enabled; [destruct (TrackModeSP_on s) |]; cbn; rewrite ?Hsim;
      reflexivity.
  - intros Hsim.
    unfold SetTrackEnabled, SetTrackMode, SetTrackRate, command, call, gets,
      bind, ret, negb.
    rewrite Hsim. cbn -[succeeded hd tl].
    destruct (succeeded (hd Err (answers s)));
      eexists; (split; [reflexivity |]); reflexivity.
  - intros Hsim Hmode a1 a2 a3 rest Hans H1 H2 H3.
    unfold SetTrackEnabled, SetTrackMode, SetTrackRate, command, call, gets,
      bind, ret, negb.
    rewrite Hsim, Hmode, Hans. cbn -[succeeded Qdiv Qminus].
    rewrite H1. cbn -[succeeded Qdiv Qminus].
    rewrite Hsim. cbn -[succeeded Qdiv Qminus].
    rewrite H2. cbn -[succeeded Qdiv Qminus].
    rewrite H3. cbn -[succeeded Qdiv Qminus].
    eexists. split; [reflexivity |]. cbn -[Qdiv Qminus].
    rewrite <- !app_assoc. reflexivity.
  - intros Hsim Hmode Hf.
    unfold SetTrackEnabled, SetTrackMode, SetTrackRate, command, call, gets,
      bind, ret, negb.
    rewrite Hsim, Hmode. cbn -[succeeded hd tl].
    rewrite Hf. eexists. split; reflexivity.
Qed.

Lemma SetTrackEnabled_commands_witness :
  let s := ap_with SCOPE_TRACKING 0 0 [Ack; Ack; Ack] in
  simulation s = false /\ TrackModeSP_on s = TRACK_CUSTOM
  /\ answers s = [Ack; Ack; Ack] /\ succeeded Ack = true
  /\ exists s',
       SetTrackEnabled true s = Some (true, s')
       /\ calls s'
          = calls s
            ++ [selectAPTrackingMode AP_TRACKING_SIDEREAL;
                setAPRATrackRate ((TrackRateN_RA s - TRACKRATE_SIDEREAL)
                                  / TRACKRATE_SIDEREAL);
                setAPDETrackRate (TrackRateN_DE s / TRACKRATE_SIDEREAL)].
Proof.
  intros s.
  assert (simulation s = false) as A by reflexivity.
  assert (TrackModeSP_on s = TRACK_CUSTOM) as B by reflexivity.
  assert (answers s = [Ack; Ack; Ack]) as C by reflexivity.
  assert (succeeded Ack = true) as D by reflexivity.
  split; [exact A |]. split; [exact B |]. split; [exact C |].
  split; [exact D |].
  destruct (SetTrackEnabled_commands s) as (_ & _ & H & _).
  exact (H A B Ack Ack Ack [] C D D D).
Defined.

Lemma parking_ends_when_static_witness :
  let s := ap_with SCOPE_PARKING 180 40
                   [Num 5; Num 10; Num 180; Num 40; Ack; Ack; Txt "East#"] in
  simulation s = false /\ TrackState s = SCOPE_PARKING
  /\ answers s = [Num 5; Num 10; Num 180; Num 40; Ack; Ack; Txt "East#"]
  /\ lastAZ s == 180 /\ lastAL s == 40 /\ succeeded Ack = true
  /\ exists s' tail,
       ReadScopeStatus s = Some (true, s')
       /\ TrackState s' = SCOPE_PARKED
       /\ calls s' = calls s
                     ++ [getLX200RA; getLX200DEC; getLX200Az; getLX200Alt;
                         setAPPark; selectAPTrackingMode AP_TRACKING_OFF;
                         SetParked true; NewRaDec 5 10; pierSideQuery]
                     ++ tail
       /\ answers s' = [].
Proof.
  intros s.
  assert (simulation s = false) as A by reflexivity.
  assert (TrackState s = SCOPE_PARKING) as B by reflexivity.
  assert (answers s
          = [Num 5; Num 10; Num 180; Num 40; Ack; Ack; Txt "East#"]) as C
      by reflexivity.
  assert (lastAZ s == 180) as D by reflexivity.
  assert (lastAL s == 40) as E by reflexivity.
  assert (succeeded Ack = true) as F by reflexivity.
  split; [exact A |]. split; [exact B |]. split; [exact C |].
  split; [exact D |]. split; [exact E |]. split; [exact F |].
  destruct (parking_ends_when_static 5 10 180 40 s Ack Ack (Txt "East#") []
              A B) as [H _].
  exact (H C D E F).
Defined.

(** ** Astro-Physics: the firmware version *)

Local Open Scope Z_scope.

Lemma strstr_found_short hay :
  (String.length hay <= 2)%nat -> strstr_found "VCP4" hay = false.
Proof.
  intros H.
  destruct hay as [| a [| b [| c hay']]]; cbn in H; try lia;
    cbn -[ascii_dec];
    repeat match goal with
           | |- context [ascii_dec ?x ?y] => destruct (ascii_dec x y)
           end; reflexivity.
Qed.

Local Open Scope Z_scope.

(** X28. [getFirmwareVersion] decides on the version string alone.  A
    string that holds [VCP4], the simulated one among them, gives version V
    on a GTOCP4.  Otherwise a string of one or two characters whose first
    character, as a signed [char], is E or any character after it gives the
    version of that distance from E, on a GTOCP2 for E and F and on a GTOCP3
    for all others: nothing checks that the distance names a version, so the
    letter V gives version V on a GTOCP3 and the letter e the number 32,
    which no version has.  Every other string, the empty one, one of three
    characters or more, or one that starts below E, makes it return [false]
    and leaves version and servo type as they were. *)
Theorem getFirmwareVersion_classifies (versionString : string) (f : firmware) :
  (strstr_found "VCP4" versionString = true ->
   getFirmwareVersion versionString f = Some (true, mkFirmware MCV_V GTOCP4))
  /\ getFirmwareVersion simulated_version f
     = Some (true, mkFirmware MCV_V GTOCP4)
  /\ (String.length versionString = 1%nat
      \/ String.length versionString = 2%nat ->
      69 <= char_value (c_head versionString) ->
      getFirmwareVersion versionString f
      = Some (true,
              mkFirmware (char_value (c_head versionString) - 69)
                         (if char_value (c_head versionString) <? 71
                          then GTOCP2 else GTOCP3)))
  /\ getFirmwareVersion "V" f = Some (true, mkFirmware MCV_V GTOCP3)
  /\ getFirmwareVersion "e" f = Some (true, mkFirmware 32 GTOCP3)
  /\ (strstr_found "VCP4" versionString = false ->
      (String.length versionString = 0%nat
       \/ (3 <= String.length versionString)%nat
       \/ char_value (c_head versionString) < 69) ->
      getFirmwareVersion versionString f = Some (false, f)).
Proof.
  split; [| split; [reflexivity
                   | split; [| split; [reflexivity | split; [reflexivity |]]]]].
  - intros H. unfold getFirmwareVersion. rewrite H. reflexivity.
  - intros Hl Hc.
    unfold getFirmwareVersion.
    rewrite strstr_found_short by (destruct Hl as [-> | ->]; lia).
    assert (((String.length versionString =? 1)%nat
             || (String.length versionString =? 2)%nat) = true) as ->.
    { destruct Hl as [-> | ->]; reflexivity. }
    cbv zeta. change (char_value "E") with 69.
    set (n := char_value (c_head versionString)) in *.
    assert ((n - 69 >=? 0) = true) as -> by (apply Z.geb_le; lia).
    unfold bind, ret, modify, gets. cbn [firmwareVersion servoType].
    unfold MCV_G.
    destruct (Z.ltb_spec (n - 69) 2); destruct (Z.ltb_spec n 71);
      try lia; reflexivity.
  - intros Hn Hcase. unfold getFirmwareVersion. rewrite Hn.
    destruct Hcase as [L0 | [L3 | Hc]].
    + rewrite L0. reflexivity.
    + destruct ((String.length versionString =? 1)%nat) eqn:E1;
        [apply Nat.eqb_eq in E1; lia |].
      destruct ((String.length versionString =? 2)%nat) eqn:E2;
        [apply Nat.eqb_eq in E2; lia |].
      reflexivity.
    + destruct ((String.length versionString =? 1)%nat
                || (String.length versionString =? 2)%nat); [| reflexivity].
      cbv zeta. change (char_value "E") with 69.
      destruct (Z.geb_spec (char_value (c_head versionString) - 69) 0);
        [lia | reflexivity].
Qed.

Lemma getFirmwareVersion_classifies_witness :
  let f := mkFirmware MCV_UNKNOWN GTOCP_UNKNOWN in
  (String.length "F1" = 1%nat \/ String.length "F1" = 2%nat)
  /\ 69 <= char_value (c_head "F1")
  /\ getFirmwareVersion "F1" f = Some (true, mkFirmware 1 GTOCP2).
Proof.
  intros f.
  assert (String.length "F1" = 1%nat \/ String.length "F1" = 2%nat) as A
      by (right; reflexivity).
  assert (69 <= char_value (c_head "F1")) as B by (cbn; lia).
  split; [exact A |]. split; [exact B |].
  destruct (getFirmwareVersion_classifies "F1" f) as (_ & _ & H & _).
  exact (H A B).
Defined.

Local Open Scope Z_scope.
